(** * front-estudo: the cash-ledger browser client

  A shallow embedding of the data-preparation and query pipeline of the
  client ([src/auth.ts], [src/api.ts], [src/pages/CashPage.tsx],
  [src/pages/ReportsPage.tsx], [src/pages/LoginPage.tsx],
  [src/pages/CredentialsPage.tsx]) together with the properties its
  specification states about it and further properties of the code.

  Conventions of the embedding.
  - A JavaScript string is the list of its UTF-16 code units
    ([JsString]); [js "..."] writes an ASCII literal.
  - A JavaScript number is an IEEE 754 binary64 value, the [spec_float] of
    the Standard Library with [prec = 53] and [emax = 1024]; the arithmetic
    of the source is the correctly rounded arithmetic of [SpecFloat].
  - [localStorage] is a finite map from keys to strings.
  - React state is a record ([CashPage.State], [ReportsPage.State]); a
    handler is a function from the state and browser before the event to the
    state and browser after it, the answers of the browser's image machinery
    and of the remote service being passed in as an environment ([Env]). *)

From Stdlib Require Import ZArith NArith Lia Bool Ascii String SpecFloat.
From Stdlib Require Import QArith Qpower Lqa.
From stdpp Require Import base option list strings gmap.

Set Warnings "-register-all".
Local Open Scope Z_scope.

(* ===================================================================== *)
(** * JavaScript strings *)
(* ===================================================================== *)

Module Js.

(** A string is a sequence of UTF-16 code units. *)
Definition JsString : Type := list N.

(** The code units of an ASCII literal. *)
Definition js (s : string) : JsString :=
  List.map N_of_ascii (list_ascii_of_string s).

#[global] Arguments js : simpl never.

Definition dquote : N := 34%N.     (* the double quote *)
Definition comma : N := 44%N.      (* , *)
Definition semicolon : N := 59%N.  (* ; *)
Definition newline : N := 10%N.    (* \n *)
Definition carriageReturn : N := 13%N. (* \r *)
Definition dot : N := 46%N.        (* . *)
Definition BOM : N := 65279%N.     (* U+FEFF *)

Definition streq (a b : JsString) : bool := bool_decide (a = b).

(** [s.length] *)
Definition jslength (s : JsString) : Z := Z.of_nat (length s).

(** [s.startsWith(p)] *)
Fixpoint startsWith (p s : JsString) : bool :=
  match p, s with
  | [], _ => true
  | _ :: _, [] => false
  | a :: p', b :: s' => (a =? b)%N && startsWith p' s'
  end.

(** [s.replaceAll(c, r)] for a pattern of one code unit. *)
Fixpoint replaceAll (c : N) (r : JsString) (s : JsString) : JsString :=
  match s with
  | [] => []
  | x :: s' => (if (x =? c)%N then r else [x]) ++ replaceAll c r s'
  end.

(** [s.replace(c, r)]: only the first occurrence. *)
Fixpoint replaceFirst (c : N) (r : JsString) (s : JsString) : JsString :=
  match s with
  | [] => []
  | x :: s' => if (x =? c)%N then r ++ s' else x :: replaceFirst c r s'
  end.

(** [xs.join(sep)] *)
Fixpoint join (sep : JsString) (xs : list JsString) : JsString :=
  match xs with
  | [] => []
  | [x] => x
  | x :: rest => x ++ sep ++ join sep rest
  end.

(** WhiteSpace and LineTerminator code units of ECMAScript, the ones
    [String.prototype.trim] strips. *)
Definition isWhiteSpace (c : N) : bool :=
  (bool_decide (c ∈ [9; 10; 11; 12; 13; 32; 160; 5760; 8232; 8233; 8239;
                      8287; 12288; 65279])
   || ((8192 <=? c) && (c <=? 8202)))%N.

Fixpoint trimStart (s : JsString) : JsString :=
  match s with
  | [] => []
  | c :: s' => if isWhiteSpace c then trimStart s' else s
  end.

Definition trimEnd (s : JsString) : JsString := rev (trimStart (rev s)).

(** [s.trim()] *)
Definition trim (s : JsString) : JsString := trimEnd (trimStart s).

(** [s.toLowerCase()]. The ASCII capitals map to their small letters;
    U+212A (Kelvin sign) and U+0130 are the two code units outside ASCII
    whose lower case contains an ASCII letter.  Every other code unit
    outside ASCII lowers to code units outside ASCII and is kept as it is:
    the source only compares the result with ASCII patterns. *)
Definition lowerUnit (c : N) : JsString :=
  if ((65 <=? c) && (c <=? 90))%N then [(c + 32)%N]
  else if (c =? 8490)%N then [107%N]
  else if (c =? 304)%N then [105%N; 775%N]
  else [c].

Definition toLowerCase (s : JsString) : JsString := mbind lowerUnit s.

(** The tails of a string, the longest first: the positions at which a
    pattern anchored at the end can start. *)
Fixpoint tails (s : JsString) : list JsString :=
  s :: match s with [] => [] | _ :: t => tails t end.

(** [s.split(c)] for a separator of one code unit. *)
Fixpoint splitOn (sep : N) (s : JsString) : list JsString :=
  match s with
  | [] => [[]]
  | c :: rest =>
      if (c =? sep)%N then [] :: splitOn sep rest
      else match splitOn sep rest with
           | part :: parts => (c :: part) :: parts
           | [] => [[c]]
           end
  end.

(** The class [\d] of a regular expression. *)
Definition isDecimalDigit (c : N) : bool := ((48 <=? c) && (c <=? 57))%N.

(** Truthiness of a string: the empty string is falsy. *)
Definition truthy (s : JsString) : bool :=
  match s with [] => false | _ => true end.

End Js.
Import Js.

(* ===================================================================== *)
(** * JavaScript numbers *)
(* ===================================================================== *)

Module Num.

Definition prec : Z := 53.
Definition emax : Z := 1024.

Definition number : Type := spec_float.

Definition add : number -> number -> number := SFadd prec emax.
Definition sub : number -> number -> number := SFsub prec emax.
Definition mul : number -> number -> number := SFmul prec emax.
Definition div : number -> number -> number := SFdiv prec emax.

(** The number an integer denotes (exact below 2^53). *)
Definition ofZ (z : Z) : number := binary_normalize prec emax z 0 false.

(** The number a decimal literal [n / 10^k] denotes, for [n] and [10^k]
    below 2^53: the nearest binary64 value of the quotient. *)
Definition decimal (n : Z) (k : nat) : number := div (ofZ n) (ofZ (10 ^ Z.of_nat k)).

Definition zero : number := S754_zero false.

#[global] Instance number_eq_dec : EqDecision number.
Proof. solve_decision. Defined.

End Num.

(** [Math.min], [Math.max] and [Math.round] on numbers. *)
Module JsMath.
Import Num.

Definition isNaN (x : number) : bool :=
  match x with S754_nan => true | _ => false end.

(** [Math.min(a, b)]: NaN if either is NaN, and -0 is below +0. *)
Definition min (a b : number) : number :=
  if isNaN a || isNaN b then S754_nan
  else match a, b with
       | S754_zero sa, S754_zero sb => S754_zero (sa || sb)
       | _, _ => if SFltb b a then b else a
       end.

(** [Math.max(a, b)]: NaN if either is NaN, and +0 is above -0. *)
Definition max (a b : number) : number :=
  if isNaN a || isNaN b then S754_nan
  else match a, b with
       | S754_zero sa, S754_zero sb => S754_zero (sa && sb)
       | _, _ => if SFltb a b then b else a
       end.

(** The integer [floor(x + 1/2)] of a finite value [(-1)^s * m * 2^e],
    computed exactly. *)
Definition roundHalfUp (s : bool) (m : positive) (e : Z) : Z :=
  let v := cond_Zopp s (Z.pos m) in
  if 0 <=? e then v * 2 ^ e
  else (2 * v + 2 ^ (- e)) / 2 ^ (- e + 1).

(** The number of the integer [r] a value of sign [s] rounds to: a zero
    keeps the sign of the value. *)
Definition ofRounded (s : bool) (r : Z) : number :=
  match r with
  | Z0 => S754_zero s
  | _ => ofZ r
  end.

(** [Math.round(x)]: the nearest integer, ties towards +infinity; NaN,
    the infinities and the zeros are returned as they are. *)
Definition round (x : number) : number :=
  match x with
  | S754_finite s m e => ofRounded s (roundHalfUp s m e)
  | _ => x
  end.

End JsMath.

(* ===================================================================== *)
(** * types/cash.ts *)
(* ===================================================================== *)

Inductive CashEntryType := IN | OUT.
Inductive CashPaymentMethod := CASH | PIX | CARD.

#[global] Instance CashEntryType_eq_dec : EqDecision CashEntryType.
Proof. solve_decision. Defined.
#[global] Instance CashPaymentMethod_eq_dec : EqDecision CashPaymentMethod.
Proof. solve_decision. Defined.

(** An optional property [f?: T] is [option T]; [None] is [undefined]. *)
Record CashEntry := {
  id : JsString;
  type : CashEntryType;
  amount : Num.number;
  description : JsString;
  category : option JsString;
  paymentMethod : option CashPaymentMethod;
  createdAt : JsString;
}.

Record CreateCashEntryDto := {
  dto_type : CashEntryType;
  dto_paymentMethod : CashPaymentMethod;
  dto_amount : Num.number;
  dto_description : JsString;
  dto_category : option JsString;
  dto_entryDate : option JsString;
}.

Record DailyCashSummary := {
  sum_date : JsString;
  sum_totalIn : Num.number;
  sum_totalOut : Num.number;
  sum_balance : Num.number;
  sum_countIn : Num.number;
  sum_countOut : Num.number;
  sum_totalEntries : Num.number;
}.

(** Modelled from the spec: the declaration of [ReceiptScanResult] is not
    among the sources; the specification gives the Recognition Result as
    [{ type?, paymentMethod?, amount?, description?, category?, entryDate?,
    confidence }], every field independently optional.  The handler reads
    [confidence] through [??], so it is optional here as well. *)
Record ReceiptScanResult := {
  scan_type : option CashEntryType;
  scan_paymentMethod : option CashPaymentMethod;
  scan_amount : option Num.number;
  scan_description : option JsString;
  scan_category : option JsString;
  scan_entryDate : option JsString;
  scan_confidence : option Num.number;
}.

Definition typeName (t : CashEntryType) : JsString :=
  match t with IN => js "IN" | OUT => js "OUT" end.

Definition paymentName (p : CashPaymentMethod) : JsString :=
  match p with CASH => js "CASH" | PIX => js "PIX" | CARD => js "CARD" end.

(** [a ?? b] *)
Definition nullish {A} (a : option A) (b : A) : A :=
  match a with Some v => v | None => b end.

Infix "??" := nullish (at level 45, left associativity).

(* ===================================================================== *)
(** * JSON.parse *)
(* ===================================================================== *)

(** The values [JSON.parse] produces.  A number is kept as the text of its
    literal. *)
Inductive Json :=
| JNull
| JBool (b : bool)
| JNumber (literal : JsString)
| JString (s : JsString)
| JArray (items : list Json)
| JObject (members : list (JsString * Json)).

(** An object all of whose properties are strings, in property order:
    what the service sends for a user. *)
Definition StringRecord : Type := list (JsString * JsString).

Definition recordJson (r : StringRecord) : Json :=
  JObject (List.map (fun kv => (kv.1, JString kv.2)) r).

Module JSON.

Definition isWs (c : N) : bool :=
  ((c =? 32) || (c =? 9) || (c =? 10) || (c =? 13))%N.

Fixpoint skipWs (s : JsString) : JsString :=
  match s with
  | c :: s' => if isWs c then skipWs s' else s
  | [] => []
  end.

Definition isDigit (c : N) : bool := ((48 <=? c) && (c <=? 57))%N.

Definition hexVal (c : N) : option N :=
  if isDigit c then Some (c - 48)%N
  else if ((97 <=? c) && (c <=? 102))%N then Some (c - 87)%N
  else if ((65 <=? c) && (c <=? 70))%N then Some (c - 55)%N
  else None.

(** A literal keyword at the head of the input. *)
Definition keyword (k : JsString) (v : Json) (s : JsString)
  : option (Json * JsString) :=
  if startsWith k s then Some (v, drop (length k) s) else None.

(** The longest run of digits at the head of the input. *)
Fixpoint digits (s : JsString) : JsString * JsString :=
  match s with
  | c :: s' => if isDigit c then let '(d, r) := digits s' in (c :: d, r)
               else ([], s)
  | [] => ([], [])
  end.

(** A number literal: an optional minus, an integer part without leading
    zeros, an optional fraction and an optional exponent. *)
Definition number (s : JsString) : option (JsString * JsString) :=
  let '(sign, s1) :=
    match s with c :: r => if (c =? 45)%N then ([c], r) else ([], s) | [] => ([], s) end in
  let '(int, s2) := digits s1 in
  match int with
  | [] => None
  | d :: more =>
      if (d =? 48)%N && negb (bool_decide (more = [])) then None else
      let frac :=
        match s2 with
        | c :: r =>
            if (c =? 46)%N then
              let '(f, s3) := digits r in
              match f with [] => None | _ => Some (c :: f, s3) end
            else Some ([], s2)
        | [] => Some ([], s2)
        end in
      match frac with
      | None => None
      | Some (f, s3) =>
          match s3 with
          | c :: r =>
              if ((c =? 101) || (c =? 69))%N then
                let '(esign, r1) :=
                  match r with
                  | x :: r' => if ((x =? 43) || (x =? 45))%N then ([x], r') else ([], r)
                  | [] => ([], r)
                  end in
                let '(ex, s4) := digits r1 in
                match ex with
                | [] => None
                | _ => Some (sign ++ int ++ f ++ c :: esign ++ ex, s4)
                end
              else Some (sign ++ int ++ f, s3)
          | [] => Some (sign ++ int ++ f, s3)
          end
      end
  end.

(** The characters of a string literal, after its opening quote. *)
Fixpoint chars (s : JsString) : option (JsString * JsString) :=
  match s with
  | [] => None
  | c :: s' =>
      if (c =? 34)%N then Some ([], s')
      else if (c <? 32)%N then None
      else if (c =? 92)%N then
        match s' with
        | e :: s'' =>
            let simple (u : N) :=
              match chars s'' with Some (t, r) => Some (u :: t, r) | None => None end in
            if (e =? 34)%N then simple 34%N
            else if (e =? 92)%N then simple 92%N
            else if (e =? 47)%N then simple 47%N
            else if (e =? 98)%N then simple 8%N
            else if (e =? 102)%N then simple 12%N
            else if (e =? 110)%N then simple 10%N
            else if (e =? 114)%N then simple 13%N
            else if (e =? 116)%N then simple 9%N
            else if (e =? 117)%N then
              match s'' with
              | h1 :: h2 :: h3 :: h4 :: s4 =>
                  match hexVal h1, hexVal h2, hexVal h3, hexVal h4 with
                  | Some a, Some b, Some c', Some d =>
                      match chars s4 with
                      | Some (t, r) => Some ((((a * 16 + b) * 16 + c') * 16 + d)%N :: t, r)
                      | None => None
                      end
                  | _, _, _, _ => None
                  end
              | _ => None
              end
            else None
        | [] => None
        end
      else match chars s' with Some (t, r) => Some (c :: t, r) | None => None end
  end.

(** value, the elements of an array after its first bracket or a comma, and
    the members of an object likewise; [fuel] bounds the nesting and the
    number of elements. *)
Fixpoint value (fuel : nat) (s : JsString) : option (Json * JsString) :=
  match fuel with
  | O => None
  | S fuel' =>
      match skipWs s with
      | [] => None
      | c :: r =>
          if (c =? 110)%N then keyword (js "null") JNull (c :: r)
          else if (c =? 116)%N then keyword (js "true") (JBool true) (c :: r)
          else if (c =? 102)%N then keyword (js "false") (JBool false) (c :: r)
          else if (c =? 34)%N then
            match chars r with Some (t, r') => Some (JString t, r') | None => None end
          else if (c =? 91)%N then
            match skipWs r with
            | x :: r' =>
                if (x =? 93)%N then Some (JArray [], r')
                else match elements fuel' (x :: r') with
                     | Some (vs, r'') => Some (JArray vs, r'')
                     | None => None
                     end
            | [] => None
            end
          else if (c =? 123)%N then
            match skipWs r with
            | x :: r' =>
                if (x =? 125)%N then Some (JObject [], r')
                else match members fuel' (x :: r') with
                     | Some (ms, r'') => Some (JObject ms, r'')
                     | None => None
                     end
            | [] => None
            end
          else match number (c :: r) with
               | Some (n, r') => Some (JNumber n, r')
               | None => None
               end
      end
  end
with elements (fuel : nat) (s : JsString) : option (list Json * JsString) :=
  match fuel with
  | O => None
  | S fuel' =>
      match value fuel' s with
      | Some (v, r) =>
          match skipWs r with
          | x :: r' =>
              if (x =? 93)%N then Some ([v], r')
              else if (x =? 44)%N then
                match elements fuel' r' with
                | Some (vs, r'') => Some (v :: vs, r'')
                | None => None
                end
              else None
          | [] => None
          end
      | None => None
      end
  end
with members (fuel : nat) (s : JsString) : option (list (JsString * Json) * JsString) :=
  match fuel with
  | O => None
  | S fuel' =>
      match skipWs s with
      | q :: r =>
          if (q =? 34)%N then
            match chars r with
            | Some (k, r1) =>
                match skipWs r1 with
                | colon :: r2 =>
                    if (colon =? 58)%N then
                      match value fuel' r2 with
                      | Some (v, r3) =>
                          match skipWs r3 with
                          | x :: r4 =>
                              if (x =? 125)%N then Some ([(k, v)], r4)
                              else if (x =? 44)%N then
                                match members fuel' r4 with
                                | Some (ms, r5) => Some ((k, v) :: ms, r5)
                                | None => None
                                end
                              else None
                          | [] => None
                          end
                      | None => None
                      end
                    else None
                | [] => None
                end
            | None => None
            end
          else None
      | [] => None
      end
  end.

(** [JSON.parse(text)]: [None] when it throws a SyntaxError.  Every call
    of the three functions above consumes input or spends fuel on a level of
    nesting, so twice the length of the text is fuel enough. *)
Definition parse (text : JsString) : option Json :=
  match value (2 * length text + 2) text with
  | Some (v, r) => match skipWs r with [] => Some v | _ => None end
  | None => None
  end.

Definition hexDigit (n : N) : N := if (n <? 10)%N then (48 + n)%N else (87 + n)%N.

(** [\uXXXX] with small hexadecimal digits. *)
Definition unicodeEscape (c : N) : JsString :=
  [92; 117; hexDigit ((c / 4096) mod 16); hexDigit ((c / 256) mod 16);
   hexDigit ((c / 16) mod 16); hexDigit (c mod 16)]%N.

Definition isLeadingSurrogate (c : N) : bool := ((55296 <=? c) && (c <=? 56319))%N.
Definition isTrailingSurrogate (c : N) : bool := ((56320 <=? c) && (c <=? 57343))%N.

(** The body of QuoteJSONString: the short escapes, [\uXXXX] for the other
    control characters and for a surrogate that is not half of a pair, and
    every other code point as it is. *)
Fixpoint quoteUnits (s : JsString) : JsString :=
  match s with
  | [] => []
  | c :: rest =>
      if (c =? 8)%N then [92; 98]%N ++ quoteUnits rest
      else if (c =? 9)%N then [92; 116]%N ++ quoteUnits rest
      else if (c =? 10)%N then [92; 110]%N ++ quoteUnits rest
      else if (c =? 12)%N then [92; 102]%N ++ quoteUnits rest
      else if (c =? 13)%N then [92; 114]%N ++ quoteUnits rest
      else if (c =? 34)%N then [92; 34]%N ++ quoteUnits rest
      else if (c =? 92)%N then [92; 92]%N ++ quoteUnits rest
      else if (c <? 32)%N then unicodeEscape c ++ quoteUnits rest
      else if isLeadingSurrogate c then
        match rest with
        | d :: rest' =>
            if isTrailingSurrogate d then c :: d :: quoteUnits rest'
            else unicodeEscape c ++ quoteUnits rest
        | [] => unicodeEscape c
        end
      else if isTrailingSurrogate c then unicodeEscape c ++ quoteUnits rest
      else c :: quoteUnits rest
  end.

Definition quote (s : JsString) : JsString := [34%N] ++ quoteUnits s ++ [34%N].

(** [JSON.stringify(o)] for an object of string properties: no white
    space, the properties in their order. *)
Definition member (kv : JsString * JsString) : JsString :=
  quote kv.1 ++ [58%N] ++ quote kv.2.

Definition stringifyRecord (r : StringRecord) : JsString :=
  [123%N] ++ join [44%N] (List.map member r) ++ [125%N].

End JSON.

(* ===================================================================== *)
(** * The browser and the remote service *)
(* ===================================================================== *)

(** The [message] property of an error response's body: absent
    ([undefined] or [null]), a string, an array of strings, or any other
    value, of which the pages only ever test the truthiness. *)
Inductive ApiMessage :=
| MessageAbsent
| MessageText (s : JsString)
| MessageList (items : list JsString)
| MessageOther (isTruthy : bool).

(** What a rejected promise carries: an axios error, with the status of the
    response when there is one, or any other exception. *)
Inductive JsError :=
| AxiosError (status : option Z) (message : ApiMessage)
| OtherError (message : JsString).

Definition Params : Type := list (string * JsString).

(** The calls a page issues, in the order it issues them. *)
Inductive Effect :=
| ReadFile (name : JsString)
| LoadImage (dataUrl : JsString)
| DrawImage (width height : Num.number)
| HttpGet (url : string) (params : Params)
| HttpPostScan (base64Image language : JsString)
| HttpPostEntry (body : CreateCashEntryDto)
| HttpDelete (url : JsString)
| Navigate (path : string) (replace : bool).

(** What is outside the page and survives it: the storage of the origin,
    the calls made so far (oldest first). *)
Record Browser := {
  localStorage : gmap string JsString;
  effects : list Effect;
}.

Definition perform (e : Effect) (b : Browser) : Browser :=
  {| localStorage := localStorage b; effects := effects b ++ [e] |}.

Definition setStorage (m : gmap string JsString) (b : Browser) : Browser :=
  {| localStorage := m; effects := effects b |}.

(* ===================================================================== *)
(** * auth.ts *)
(* ===================================================================== *)

Module Auth.

Definition TOKEN_KEY : string := "credentials-front.access-token".
Definition USER_KEY : string := "credentials-front.user".

Definition getToken (st : gmap string JsString) : option JsString :=
  st !! TOKEN_KEY.

(** [Boolean(getToken())]: [null] and the empty string are falsy. *)
Definition isAuthenticated (st : gmap string JsString) : bool :=
  match getToken st with Some t => truthy t | None => false end.

(** The value returned ([JNull] for [null]) and the storage afterwards. *)
Definition getCurrentUser (st : gmap string JsString)
  : Json * gmap string JsString :=
  match st !! USER_KEY with
  | None => (JNull, st)
  | Some raw =>
      if negb (truthy raw) then (JNull, st)
      else match JSON.parse raw with
           | Some user => (user, st)
           | None => (JNull, delete USER_KEY st)
           end
  end.

Definition logout (st : gmap string JsString) : gmap string JsString :=
  delete USER_KEY (delete TOKEN_KEY st).

Definition setSession (accessToken : JsString) (user : StringRecord)
    (st : gmap string JsString) : gmap string JsString :=
  <[USER_KEY := JSON.stringifyRecord user]> (<[TOKEN_KEY := accessToken]> st).

(** The body of a successful [POST /login]. *)
Record LoginResponse := { accessToken : JsString; user : StringRecord }.

(** [login]; [post email password] is the answer of the service.  The
    value is the user or the exception thrown. *)
Definition login (post : JsString -> JsString -> JsError + LoginResponse)
    (email password : JsString) (st : gmap string JsString)
  : (JsError + StringRecord) * gmap string JsString :=
  match post email password with
  | inr res => (inr (user res), setSession (accessToken res) (user res) st)
  | inl err => (inl err, st)
  end.

Record RegisterInput := {
  reg_name : JsString;
  reg_email : JsString;
  reg_password : JsString;
}.

(** [register]: the storage is not involved. *)
Definition register (post : RegisterInput -> JsError + StringRecord)
    (input : RegisterInput) : JsError + StringRecord :=
  post input.

End Auth.

(* ===================================================================== *)
(** * api.ts *)
(* ===================================================================== *)

Module Api.

Definition TOKEN_KEY : string := "credentials-front.access-token".

(** The request interceptor, on the headers of the outgoing request. *)
Definition authorize (st : gmap string JsString) (headers : gmap string JsString)
  : gmap string JsString :=
  match st !! TOKEN_KEY with
  | Some token =>
      if truthy token then <["Authorization"%string := js "Bearer " ++ token]> headers
      else headers
  | None => headers
  end.

End Api.

(* ===================================================================== *)
(** * pages/ReportsPage.tsx *)
(* ===================================================================== *)

(** The value of a filter select: ['ALL' | T]. *)
Inductive Filter (A : Type) := ALL | Only (a : A).
Arguments ALL {A}.
Arguments Only {A} a.

Module ReportsPage.

(** [escapeCsv], on the text [String(value ?? '')] of the cell. *)
Definition needsQuoting (c : N) : bool :=
  ((c =? dquote) || (c =? comma) || (c =? semicolon) || (c =? newline))%N.

(** The text between double quotes with its double quotes doubled. *)
Definition quoted (text : JsString) : JsString :=
  [dquote] ++ replaceAll dquote [dquote; dquote] text ++ [dquote].

Definition escapeCsv (text : JsString) : JsString :=
  if negb (existsb needsQuoting text) then text
  else quoted text.

Definition paymentMethodLabel (value : option CashPaymentMethod) : JsString :=
  match value with
  | Some CASH => js "Dinheiro"
  | Some CARD => js "Cartao"
  | Some PIX => js "PIX"
  | None => js "-"
  end.

Record State := {
  items : list CashEntry;
  loading : bool;
  error : JsString;
  typeFilter : Filter CashEntryType;
  dateFrom : JsString;
  dateTo : JsString;
  category_ : JsString;
  description_ : JsString;
  minAmount : JsString;
  maxAmount : JsString;
}.

Definition setItems (v : list CashEntry) (s : State) : State :=
  {| items := v; loading := loading s; error := error s;
     typeFilter := typeFilter s; dateFrom := dateFrom s; dateTo := dateTo s;
     category_ := category_ s; description_ := description_ s;
     minAmount := minAmount s; maxAmount := maxAmount s |}.

Definition setLoading (v : bool) (s : State) : State :=
  {| items := items s; loading := v; error := error s;
     typeFilter := typeFilter s; dateFrom := dateFrom s; dateTo := dateTo s;
     category_ := category_ s; description_ := description_ s;
     minAmount := minAmount s; maxAmount := maxAmount s |}.

Definition setError (v : JsString) (s : State) : State :=
  {| items := items s; loading := loading s; error := v;
     typeFilter := typeFilter s; dateFrom := dateFrom s; dateTo := dateTo s;
     category_ := category_ s; description_ := description_ s;
     minAmount := minAmount s; maxAmount := maxAmount s |}.

(** [...(cond ? { key: value } : {})] *)
Definition spreadIf (cond : bool) (key : string) (value : JsString) : Params :=
  if cond then [(key, value)] else [].

(** The [params] object of [loadReport]. *)
Definition reportParams (s : State) : Params :=
  match typeFilter s with
  | ALL => []
  | Only t => [("type"%string, typeName t)]
  end
  ++ spreadIf (truthy (dateFrom s)) "dateFrom" (dateFrom s)
  ++ spreadIf (truthy (dateTo s)) "dateTo" (dateTo s)
  ++ spreadIf (truthy (trim (category_ s))) "category" (trim (category_ s))
  ++ spreadIf (truthy (trim (description_ s))) "description" (trim (description_ s))
  ++ spreadIf (negb (streq (minAmount s) [])) "minAmount" (minAmount s)
  ++ spreadIf (negb (streq (maxAmount s) [])) "maxAmount" (maxAmount s).

Definition handleUnauthorized (b : Browser) : Browser :=
  perform (Navigate "/login" true) (setStorage (Auth.logout (localStorage b)) b).

(** [loadReport]; [get] is the answer of the service to the request. *)
Definition loadReport (get : Params -> JsError + list CashEntry)
    (sb : State * Browser) : State * Browser :=
  let '(s, b) := sb in
  let s := setError [] (setLoading true s) in
  let b := perform (HttpGet "/cash-entries" (reportParams s)) b in
  match get (reportParams s) with
  | inr data => (setLoading false (setItems data s), b)
  | inl err =>
      match err with
      | AxiosError (Some 401) _ => (setLoading false s, handleUnauthorized b)
      | _ =>
          let apiMessage :=
            match err with
            | AxiosError _ (MessageList l) => join (js ", ") l
            | _ => js "Falha ao carregar relatorio."
            end in
          (setLoading false (setError apiMessage s), b)
      end
  end.

(** The accumulator of [totals]. *)
Record Totals := { totalIn : Num.number; totalOut : Num.number }.

Definition totalsStep (acc : Totals) (item : CashEntry) : Totals :=
  match type item with
  | IN => {| totalIn := Num.add (totalIn acc) (amount item); totalOut := totalOut acc |}
  | OUT => {| totalIn := totalIn acc; totalOut := Num.add (totalOut acc) (amount item) |}
  end.

(** [items.reduce(..., { totalIn: 0, totalOut: 0 })] *)
Definition totals (items : list CashEntry) : Totals :=
  fold_left totalsStep items {| totalIn := Num.zero; totalOut := Num.zero |}.

Definition net (items : list CashEntry) : Num.number :=
  Num.sub (totalIn (totals items)) (totalOut (totals items)).

Section Download.

(** The host's date and number formatting: [toLocaleString] gives the
    pt-BR text of the date a string denotes, or nothing when the string is
    not a date; [toFixed2] is [Number.prototype.toFixed(2)]. *)
Variable toLocaleString : JsString -> option JsString.
Variable toFixed2 : Num.number -> JsString.

Definition formatDateTimeBR (value : JsString) : JsString :=
  match toLocaleString value with
  | None => value
  | Some text => text
  end.

Definition header : list JsString :=
  [js "Data/Hora"; js "Tipo"; js "Categoria"; js "Descricao"; js "Pagamento"; js "Valor"].

(** One row of [handleDownloadCsv]. *)
Definition row (item : CashEntry) : list JsString :=
  [ formatDateTimeBR (createdAt item);
    match type item with IN => js "Entrada" | OUT => js "Saida" end;
    category item ?? [];
    description item;
    match paymentMethod item with Some p => paymentName p | None => [] end;
    replaceFirst dot [comma] (toFixed2 (amount item)) ].

(** [row.map((cell) => escapeCsv(cell)).join(';')] *)
Definition line (cells : list JsString) : JsString :=
  join [semicolon] (List.map escapeCsv cells).

Definition csv (items : list CashEntry) : JsString :=
  join [newline] (List.map line (header :: List.map row items)).

(** The text of the downloaded blob. *)
Definition document (items : list CashEntry) : JsString := BOM :: csv items.

End Download.

(** A part of a split string, when it is there and not empty. *)
Definition truthyPart (parts : list JsString) (i : nat) : option JsString :=
  match parts !! i with
  | Some part => if truthy part then Some part else None
  | None => None
  end.

Definition formatDateInputBR (value : JsString) : JsString :=
  if negb (truthy value) then js "-"
  else
    let parts := splitOn 45%N value in
    match truthyPart parts 0, truthyPart parts 1, truthyPart parts 2 with
    | Some year, Some month, Some day => day ++ js "/" ++ month ++ js "/" ++ year
    | _, _, _ => value
    end.

Definition clearFilters (s : State) : State :=
  {| items := items s; loading := loading s; error := error s;
     typeFilter := ALL; dateFrom := []; dateTo := []; category_ := [];
     description_ := []; minAmount := []; maxAmount := [] |}.

(** The dependencies of the effect that schedules [loadReport]. *)
Record Filters := {
  f_typeFilter : Filter CashEntryType;
  f_dateFrom : JsString;
  f_dateTo : JsString;
  f_category : JsString;
  f_description : JsString;
  f_minAmount : JsString;
  f_maxAmount : JsString;
}.

Definition filtersOf (s : State) : Filters :=
  {| f_typeFilter := typeFilter s; f_dateFrom := dateFrom s; f_dateTo := dateTo s;
     f_category := category_ s; f_description := description_ s;
     f_minAmount := minAmount s; f_maxAmount := maxAmount s |}.

(** The state after the filter setters have given the filters [f]. *)
Definition withFilters (f : Filters) (s : State) : State :=
  {| items := items s; loading := loading s; error := error s;
     typeFilter := f_typeFilter f; dateFrom := f_dateFrom f; dateTo := f_dateTo f;
     category_ := f_category f; description_ := f_description f;
     minAmount := f_minAmount f; maxAmount := f_maxAmount f |}.

#[global] Instance Filter_eq_dec {A} `{EqDecision A} : EqDecision (Filter A).
Proof. solve_decision. Defined.

#[global] Instance Filters_eq_dec : EqDecision Filters.
Proof. solve_decision. Defined.

(** A timeout of the window that has neither fired nor been cleared: its
    identifier, the time it is due, and the filters of the render whose
    [loadReport] it will call. *)
Record Timer := { timer_id : nat; due : Z; captured : Filters }.

(** The mounted page: what it shows, the browser, the clock in
    milliseconds, the timeouts of the window, and the identifier the cleanup
    of the last effect will clear. *)
Record Page := {
  view : State;
  browser : Browser;
  now : Z;
  nextTimer : nat;
  timers : list Timer;
  cleanup : option nat;
}.

(** [window.setTimeout(() => void loadReport(), 250)] followed by the
    registration of [() => window.clearTimeout(timer)] as cleanup. *)
Definition runEffect (p : Page) : Page :=
  {| view := view p; browser := browser p; now := now p;
     nextTimer := S (nextTimer p);
     timers := timers p ++ [{| timer_id := nextTimer p; due := now p + 250;
                               captured := filtersOf (view p) |}];
     cleanup := Some (nextTimer p) |}.

(** The cleanup of the last effect: [window.clearTimeout(timer)]. *)
Definition runCleanup (p : Page) : Page :=
  match cleanup p with
  | None => p
  | Some id =>
      {| view := view p; browser := browser p; now := now p;
         nextTimer := nextTimer p;
         timers := filter (fun t => timer_id t <> id) (timers p);
         cleanup := None |}
  end.

(** The first render. *)
Definition mount (s : State) (b : Browser) (time : Z) : Page :=
  runEffect {| view := s; browser := b; now := time; nextTimer := O;
               timers := []; cleanup := None |}.

(** The filter setters give the filters [f].  When a dependency changed,
    the cleanup of the last effect runs and then the effect again, both
    taken to happen at the moment of the change. *)
Definition setFilters (f : Filters) (p : Page) : Page :=
  let p' := {| view := withFilters f (view p); browser := browser p; now := now p;
               nextTimer := nextTimer p; timers := timers p; cleanup := cleanup p |} in
  if decide (f = filtersOf (view p)) then p' else runEffect (runCleanup p').

(** A timeout fires: [loadReport] of the render that set it, whose filters
    are the captured ones; its state updates reach the state shown now. *)
Definition fire (get : Z -> Params -> JsError + list CashEntry) (p : Page) (t : Timer)
  : Page :=
  let '(s, b) :=
    loadReport (get (due t)) (withFilters (captured t) (view p), browser p) in
  {| view := withFilters (filtersOf (view p)) s; browser := b; now := now p;
     nextTimer := nextTimer p; timers := timers p; cleanup := cleanup p |}.

(** Insertion of a timeout among timeouts in the order they fire. *)
Fixpoint insertTimer (t : Timer) (ts : list Timer) : list Timer :=
  match ts with
  | [] => [t]
  | u :: rest => if due t <? due u then t :: u :: rest else u :: insertTimer t rest
  end.

(** [dt] milliseconds pass: the timeouts due by then fire, the earliest
    first. *)
Definition elapse (get : Z -> Params -> JsError + list CashEntry) (dt : Z) (p : Page)
  : Page :=
  let time := now p + dt in
  let ready := filter (fun t => due t <= time) (timers p) in
  let waiting := filter (fun t => ~ due t <= time) (timers p) in
  let p' := {| view := view p; browser := browser p; now := time;
               nextTimer := nextTimer p; timers := waiting; cleanup := cleanup p |} in
  fold_left (fire get) (fold_right insertTimer [] ready) p'.

End ReportsPage.

(* ===================================================================== *)
(** * pages/CashPage.tsx *)
(* ===================================================================== *)

(** The [File] a file input hands over: its declared media type and its
    name.  Its bytes are only seen by the browser ([Env] below). *)
Record File := { file_type : JsString; file_name : JsString }.

(** The browser's image machinery and the remote service, as the page
    sees them. *)
Record Env := {
  (** [FileReader.readAsDataURL]: the data URL, or nothing on [onerror] or
      a result that is not a string *)
  readAsDataURL : File -> option JsString;
  (** decoding an [Image] from a data URL: its [width] and [height], or
      nothing on [onerror] *)
  loadImage : JsString -> option (Z * Z);
  (** whether [canvas.getContext("2d")] gives a context *)
  context2d : bool;
  (** [canvas.toDataURL("image/jpeg", 0.82)] after the image was drawn on a
      canvas of the given width and height *)
  toDataURL : JsString -> Num.number -> Num.number -> JsString;
  (** POST /cash-entries/scan-receipt *)
  scanReceipt : JsString -> JsString -> JsError + ReceiptScanResult;
  (** POST /cash-entries *)
  createEntry : CreateCashEntryDto -> JsError + unit;
  (** DELETE /cash-entries/{id} *)
  deleteEntry : JsString -> JsError + unit;
  (** GET /cash-entries *)
  getEntries : Params -> JsError + list CashEntry;
  (** GET /cash-summary/daily *)
  getSummary : Params -> JsError + DailyCashSummary;
  (** when both requests of [loadDashboard] are rejected: whether the
      rejection of the summary request arrives before the other one *)
  summaryRejectsFirst : bool;
}.

Module CashPage.

(** The text of [ocrInfo]: empty, or the sentence reporting the confidence
    percentage it is built from. *)
Inductive OcrInfo := OcrEmpty | OcrRead (confidencePercent : Num.number).

Record State := {
  entries : list CashEntry;
  summary : option DailyCashSummary;
  selectedDate : JsString;
  typeFilter : Filter CashEntryType;
  paymentFilter : Filter CashPaymentMethod;
  loadingDashboard : bool;
  submitting : bool;
  scanningReceipt : bool;
  ocrInfo : OcrInfo;
  error : JsString;
  form : CreateCashEntryDto;
  receiptInputValue : JsString;
}.

Definition setEntries (v : list CashEntry) (s : State) : State :=
  {| entries := v; summary := summary s; selectedDate := selectedDate s;
     typeFilter := typeFilter s; paymentFilter := paymentFilter s;
     loadingDashboard := loadingDashboard s; submitting := submitting s;
     scanningReceipt := scanningReceipt s; ocrInfo := ocrInfo s;
     error := error s; form := form s;
     receiptInputValue := receiptInputValue s |}.

Definition setSummary (v : option DailyCashSummary) (s : State) : State :=
  {| entries := entries s; summary := v; selectedDate := selectedDate s;
     typeFilter := typeFilter s; paymentFilter := paymentFilter s;
     loadingDashboard := loadingDashboard s; submitting := submitting s;
     scanningReceipt := scanningReceipt s; ocrInfo := ocrInfo s;
     error := error s; form := form s;
     receiptInputValue := receiptInputValue s |}.

Definition setSelectedDate (v : JsString) (s : State) : State :=
  {| entries := entries s; summary := summary s; selectedDate := v;
     typeFilter := typeFilter s; paymentFilter := paymentFilter s;
     loadingDashboard := loadingDashboard s; submitting := submitting s;
     scanningReceipt := scanningReceipt s; ocrInfo := ocrInfo s;
     error := error s; form := form s;
     receiptInputValue := receiptInputValue s |}.

Definition setLoadingDashboard (v : bool) (s : State) : State :=
  {| entries := entries s; summary := summary s;
     selectedDate := selectedDate s; typeFilter := typeFilter s;
     paymentFilter := paymentFilter s; loadingDashboard := v;
     submitting := submitting s; scanningReceipt := scanningReceipt s;
     ocrInfo := ocrInfo s; error := error s; form := form s;
     receiptInputValue := receiptInputValue s |}.

Definition setSubmitting (v : bool) (s : State) : State :=
  {| entries := entries s; summary := summary s; selectedDate := selectedDate s;
     typeFilter := typeFilter s; paymentFilter := paymentFilter s;
     loadingDashboard := loadingDashboard s; submitting := v;
     scanningReceipt := scanningReceipt s; ocrInfo := ocrInfo s;
     error := error s; form := form s;
     receiptInputValue := receiptInputValue s |}.

Definition setScanningReceipt (v : bool) (s : State) : State :=
  {| entries := entries s; summary := summary s;
     selectedDate := selectedDate s; typeFilter := typeFilter s;
     paymentFilter := paymentFilter s;
     loadingDashboard := loadingDashboard s; submitting := submitting s;
     scanningReceipt := v; ocrInfo := ocrInfo s; error := error s;
     form := form s; receiptInputValue := receiptInputValue s |}.

Definition setOcrInfo (v : OcrInfo) (s : State) : State :=
  {| entries := entries s; summary := summary s;
     selectedDate := selectedDate s; typeFilter := typeFilter s;
     paymentFilter := paymentFilter s;
     loadingDashboard := loadingDashboard s; submitting := submitting s;
     scanningReceipt := scanningReceipt s; ocrInfo := v; error := error s;
     form := form s; receiptInputValue := receiptInputValue s |}.

Definition setError (v : JsString) (s : State) : State :=
  {| entries := entries s; summary := summary s;
     selectedDate := selectedDate s; typeFilter := typeFilter s;
     paymentFilter := paymentFilter s;
     loadingDashboard := loadingDashboard s; submitting := submitting s;
     scanningReceipt := scanningReceipt s; ocrInfo := ocrInfo s; error := v;
     form := form s; receiptInputValue := receiptInputValue s |}.

Definition setForm (v : CreateCashEntryDto) (s : State) : State :=
  {| entries := entries s; summary := summary s;
     selectedDate := selectedDate s; typeFilter := typeFilter s;
     paymentFilter := paymentFilter s;
     loadingDashboard := loadingDashboard s; submitting := submitting s;
     scanningReceipt := scanningReceipt s; ocrInfo := ocrInfo s;
     error := error s; form := v; receiptInputValue := receiptInputValue s |}.

Definition setReceiptInputValue (v : JsString) (s : State) : State :=
  {| entries := entries s; summary := summary s;
     selectedDate := selectedDate s; typeFilter := typeFilter s;
     paymentFilter := paymentFilter s;
     loadingDashboard := loadingDashboard s; submitting := submitting s;
     scanningReceipt := scanningReceipt s; ocrInfo := ocrInfo s;
     error := error s; form := form s; receiptInputValue := v |}.

Definition maxDimension : Num.number := Num.ofZ 1600.

(** The width and height [fileToOptimizedDataUrl] gives the canvas, from
    the width and height of the decoded image. *)
Definition scale (width height : Z) : Num.number :=
  JsMath.min (Num.ofZ 1)
    (Num.div maxDimension (JsMath.max (Num.ofZ width) (Num.ofZ height))).

Definition optimizedSize (width height : Z) : Num.number * Num.number :=
  let scale := scale width height in
  (JsMath.max (Num.ofZ 1) (JsMath.round (Num.mul (Num.ofZ width) scale)),
   JsMath.max (Num.ofZ 1) (JsMath.round (Num.mul (Num.ofZ height) scale))).

(** [fileToOptimizedDataUrl]: the exception thrown or the data URL, and the
    browser afterwards. *)
Definition fileToOptimizedDataUrl (env : Env) (file : File) (b : Browser)
  : (JsError + JsString) * Browser :=
  let b := perform (ReadFile (file_name file)) b in
  match readAsDataURL env file with
  | None => (inl (OtherError (js "Falha ao ler imagem.")), b)
  | Some original =>
      let b := perform (LoadImage original) b in
      match loadImage env original with
      | None => (inl (OtherError (js "Falha ao carregar imagem.")), b)
      | Some (w, h) =>
          let '(width, height) := optimizedSize w h in
          if negb (context2d env)
          then (inl (OtherError (js "Falha ao preparar imagem.")), b)
          else (inr (toDataURL env original width height),
                perform (DrawImage width height) b)
      end
  end.

(** Canonicalisation of a code unit under the [i] flag.  A code unit outside
    ASCII never canonicalises to an ASCII one, and the patterns of the source
    are ASCII, so only the ASCII small letters need their capitals. *)
Definition canonicalize (c : N) : N :=
  if ((97 <=? c) && (c <=? 122))%N then (c - 32)%N else c.

Fixpoint eqIgnoreCase (pat s : JsString) : bool :=
  match pat, s with
  | [], [] => true
  | a :: pat', b :: s' => (canonicalize a =? canonicalize b)%N && eqIgnoreCase pat' s'
  | _, _ => false
  end.

(** The alternatives of [(png|jpe?g|webp|bmp|gif|heic|heif)]. *)
Definition extensions : list JsString :=
  [js "png"; js "jpg"; js "jpeg"; js "webp"; js "bmp"; js "gif"; js "heic"; js "heif"].

(** [/\.(png|jpe?g|webp|bmp|gif|heic|heif)$/i.test(s)]: some tail of [s]
    is a dot and one of the alternatives, up to case. *)
Definition extensionTest (s : JsString) : bool :=
  existsb (fun t => existsb (fun ext => eqIgnoreCase (dot :: ext) t) extensions)
          (tails s).

Definition isLikelyImageFile (file : File) : bool :=
  if startsWith (js "image/") (file_type file) then true
  else let lowerName := toLowerCase (file_name file) in
       extensionTest lowerName.

Definition extractApiMessage (err : JsError) : option JsString :=
  match err with
  | AxiosError _ (MessageList l) => Some (join (js ", ") l)
  | AxiosError _ (MessageText m) => if truthy (trim m) then Some m else None
  | _ => None
  end.

Definition handleUnauthorized (b : Browser) : Browser :=
  perform (Navigate "/login" true) (setStorage (Auth.logout (localStorage b)) b).

(** The [params] of the list request of [loadDashboard]. *)
Definition dashboardParams (s : State) : Params :=
  [("date"%string, selectedDate s)]
  ++ match typeFilter s with ALL => [] | Only t => [("type"%string, typeName t)] end
  ++ match paymentFilter s with
     | ALL => []
     | Only p => [("paymentMethod"%string, paymentName p)]
     end.

(** [loadDashboard].  Both requests are issued before either is awaited;
    [Promise.all] rejects with the rejection that arrives first, so when
    both fail the error caught is the one [summaryRejectsFirst] names. *)
Definition loadDashboard (env : Env) (sb : State * Browser) : State * Browser :=
  let '(s, b) := sb in
  let s := setError [] (setLoadingDashboard true s) in
  let summaryParams := [("date"%string, selectedDate s)] in
  let b := perform (HttpGet "/cash-summary/daily" summaryParams)
             (perform (HttpGet "/cash-entries" (dashboardParams s)) b) in
  let caught (err : JsError) :=
    match err with
    | AxiosError (Some 401) _ => (setLoadingDashboard false s, handleUnauthorized b)
    | _ =>
        (setLoadingDashboard false
           (setError (js "Nao foi possivel carregar os dados do caixa. Verifique se o backend esta rodando.") s),
         b)
    end in
  match getEntries env (dashboardParams s), getSummary env summaryParams with
  | inr entriesRes, inr summaryRes =>
      (setLoadingDashboard false (setSummary (Some summaryRes) (setEntries entriesRes s)), b)
  | inl err, inr _ => caught err
  | inr _, inl err => caught err
  | inl listErr, inl summaryErr =>
      caught (if summaryRejectsFirst env then summaryErr else listErr)
  end.

(** [Number.isFinite] *)
Definition isFinite (x : Num.number) : bool :=
  match x with
  | S754_finite _ _ _ | S754_zero _ => true
  | _ => false
  end.

(** The body [handleCreateEntry] posts. *)
Definition entryBody (f : CreateCashEntryDto) : CreateCashEntryDto :=
  {| dto_type := dto_type f;
     dto_paymentMethod := dto_paymentMethod f;
     dto_amount := dto_amount f;
     dto_description := trim (dto_description f);
     dto_category :=
       match dto_category f with
       | Some c => if truthy (trim c) then Some (trim c) else None
       | None => None
       end;
     dto_entryDate := dto_entryDate f |}.

(** The form after a successful submission. *)
Definition clearedForm (selectedDate : JsString) (prev : CreateCashEntryDto)
  : CreateCashEntryDto :=
  {| dto_type := dto_type prev;
     dto_paymentMethod := dto_paymentMethod prev;
     dto_amount := Num.zero;
     dto_description := [];
     dto_category := Some [];
     dto_entryDate := Some (dto_entryDate prev ?? selectedDate) |}.

(** [handleCreateEntry] *)
Definition handleCreateEntry (env : Env) (sb : State * Browser) : State * Browser :=
  let '(s, b) := sb in
  let s := setError [] s in
  if negb (truthy (trim (dto_description (form s))))
  then (setError (js "Informe uma descricao para o lancamento.") s, b)
  else if negb (isFinite (dto_amount (form s))) || SFleb (dto_amount (form s)) Num.zero
  then (setError (js "Informe um valor maior que zero.") s, b)
  else
    let s := setSubmitting true s in
    let b := perform (HttpPostEntry (entryBody (form s))) b in
    match createEntry env (entryBody (form s)) with
    | inr _ =>
        let s := setForm (clearedForm (selectedDate s) (form s)) s in
        let '(s, b) := loadDashboard env (s, b) in
        (setSubmitting false s, b)
    | inl (AxiosError (Some 401) _) => (setSubmitting false s, handleUnauthorized b)
    | inl err =>
        (setSubmitting false
           (setError (extractApiMessage err ?? js "Falha ao criar lancamento.") s), b)
    end.

(** [handleDeleteEntry] *)
Definition handleDeleteEntry (env : Env) (id : JsString) (sb : State * Browser)
  : State * Browser :=
  let '(s, b) := sb in
  let s := setError [] s in
  let url := js "/cash-entries/" ++ id in
  let b := perform (HttpDelete url) b in
  match deleteEntry env url with
  | inr _ => loadDashboard env (s, b)
  | inl (AxiosError (Some 401) _) => (s, handleUnauthorized b)
  | inl _ => (setError (js "Falha ao excluir lancamento.") s, b)
  end.

(** The update [setForm] receives after a recognition call. *)
Definition mergeScan (parsed : ReceiptScanResult) (prev : CreateCashEntryDto)
  : CreateCashEntryDto :=
  {| dto_type := scan_type parsed ?? dto_type prev;
     dto_paymentMethod := scan_paymentMethod parsed ?? dto_paymentMethod prev;
     dto_amount := scan_amount parsed ?? dto_amount prev;
     dto_description := scan_description parsed ?? dto_description prev;
     dto_category :=
       match scan_category parsed with Some c => Some c | None => dto_category prev end;
     dto_entryDate :=
       match scan_entryDate parsed with Some d => Some d | None => dto_entryDate prev end |}.

Definition invalidFile : JsString := js "Arquivo invalido. Envie uma imagem.".
Definition tooLarge : JsString :=
  js "Imagem muito grande. Tire a foto mais de perto ou com menor resolucao.".
Definition scanFailed : JsString :=
  js "Falha ao ler comprovante. Tente novamente com uma foto mais nitida.".

(** The [try] block of [handleScanReceiptFile]: the state and browser when
    it completes, or the exception it throws. *)
Definition scanBody (env : Env) (file : File) (s : State) (b : Browser)
  : JsError * State * Browser + State * Browser :=
  if negb (isLikelyImageFile file) then inr (setError invalidFile s, b)
  else
    match fileToOptimizedDataUrl env file b with
    | (inl err, b) => inl (err, s, b)
    | (inr base64Image, b) =>
        if negb (startsWith (js "data:image/") base64Image)
        then inr (setError invalidFile s, b)
        else if jslength base64Image >? 9500000
        then inr (setError tooLarge s, b)
        else
          let b := perform (HttpPostScan base64Image (js "por")) b in
          match scanReceipt env base64Image (js "por") with
          | inl err => inl (err, s, b)
          | inr parsed =>
              let s := setForm (mergeScan parsed (form s)) s in
              let s :=
                match scan_entryDate parsed with
                | Some d => if truthy d then setSelectedDate d s else s
                | None => s
                end in
              let confidencePercent :=
                JsMath.round (Num.mul (scan_confidence parsed ?? Num.zero) (Num.ofZ 100)) in
              inr (setOcrInfo (OcrRead confidencePercent) s, b)
          end
    end.

(** [handleScanReceiptFile]: the [try] block, its [catch] and its
    [finally]. *)
Definition handleScanReceiptFile (env : Env) (file : File) (sb : State * Browser)
  : State * Browser :=
  let '(s, b) := sb in
  let s := setScanningReceipt true (setOcrInfo OcrEmpty (setError [] s)) in
  let '(s, b) :=
    match scanBody env file s b with
    | inr done => done
    | inl (err, s, b) => (setError (extractApiMessage err ?? scanFailed) s, b)
    end in
  (setReceiptInputValue [] (setScanningReceipt false s), b).

(** The groups of [/^(\d{4})-(\d{2})-(\d{2})$/] when the string matches:
    year, month and day. *)
Definition isoDate (value : JsString) : option (JsString * JsString * JsString) :=
  match value with
  | [y1; y2; y3; y4; h1; m1; m2; h2; d1; d2] =>
      if forallb isDecimalDigit [y1; y2; y3; y4; m1; m2; d1; d2]
         && (h1 =? 45)%N && (h2 =? 45)%N
      then Some ([y1; y2; y3; y4], [m1; m2], [d1; d2])
      else None
  | _ => None
  end.

(** [formatDateBR]; [toLocaleDateString] is the pt-BR date text of the date
    a string denotes for [Date], or nothing when it denotes none. *)
Definition formatDateBR (toLocaleDateString : JsString -> option JsString)
    (value : JsString) : JsString :=
  match isoDate value with
  | Some (year, month, day) => day ++ js "/" ++ month ++ js "/" ++ year
  | None =>
      match toLocaleDateString value with
      | None => value
      | Some text => text
      end
  end.

Definition handleLogout (b : Browser) : Browser :=
  perform (Navigate "/login" true) (setStorage (Auth.logout (localStorage b)) b).



End CashPage.

(* ===================================================================== *)
(** * pages/LoginPage.tsx and pages/CredentialsPage.tsx *)
(* ===================================================================== *)

(** credenciais.ts *)
Record Credential := {
  cred_id : JsString;
  cred_name : JsString;
  cred_username : JsString;
  cred_createdAt : JsString;
}.

Record CreateCredentialDto := {
  new_name : JsString;
  new_username : JsString;
  new_password : JsString;
}.

(** The calls the two pages issue, in the order they issue them. *)
Inductive Call :=
| PostLogin (email password : JsString)
| PostRegister (input : Auth.RegisterInput)
| GetCredentials
| PostCredential (body : CreateCredentialDto)
| DeleteCredential (url : JsString)
| GoTo (path : string) (replace : bool).

(** The storage of the origin and the calls made so far (oldest first). *)
Record Client := {
  storage : gmap string JsString;
  calls : list Call;
}.

Definition call (c : Call) (cl : Client) : Client :=
  {| storage := storage cl; calls := calls cl ++ [c] |}.

Definition store (m : gmap string JsString) (cl : Client) : Client :=
  {| storage := m; calls := calls cl |}.

Module LoginPage.

Inductive AuthMode := LoginMode | RegisterMode.

(** What [setError] is given: a text, or the [message] of the response as
    it came when that is neither absent, a string nor an array; of such a
    value, whether it is truthy. *)
Inductive ErrorShown := ErrorText (text : JsString) | ErrorOther (isTruthy : bool).

(** The test [error ? ... : null] of the render: whether the error
    paragraph is on the page. *)
Definition shown (e : ErrorShown) : bool :=
  match e with
  | ErrorText text => truthy text
  | ErrorOther isTruthy => isTruthy
  end.

Record State := {
  mode : AuthMode;
  name : JsString;
  email : JsString;
  password : JsString;
  loading : bool;
  message : JsString;
  error : ErrorShown;
}.

Definition setMode (v : AuthMode) (s : State) : State :=
  {| mode := v; name := name s; email := email s; password := password s;
     loading := loading s; message := message s; error := error s |}.

Definition setPassword (v : JsString) (s : State) : State :=
  {| mode := mode s; name := name s; email := email s; password := v;
     loading := loading s; message := message s; error := error s |}.

Definition setLoading (v : bool) (s : State) : State :=
  {| mode := mode s; name := name s; email := email s; password := password s;
     loading := v; message := message s; error := error s |}.

Definition setMessage (v : JsString) (s : State) : State :=
  {| mode := mode s; name := name s; email := email s; password := password s;
     loading := loading s; message := v; error := error s |}.

Definition setError (v : ErrorShown) (s : State) : State :=
  {| mode := mode s; name := name s; email := email s; password := password s;
     loading := loading s; message := message s; error := v |}.

(** The remote service: POST /login and POST /register. *)
Record Service := {
  postLogin : JsString -> JsString -> JsError + Auth.LoginResponse;
  postRegister : Auth.RegisterInput -> JsError + StringRecord;
}.

Definition isRegister (s : State) : bool :=
  match mode s with RegisterMode => true | LoginMode => false end.

(** The [catch] clause followed by the [finally] clause. *)
Definition caught (err : JsError) (s : State) : State :=
  setLoading false
    (setError
       match err with
       | AxiosError _ (MessageList l) => ErrorText (join (js ", ") l)
       | AxiosError _ MessageAbsent => ErrorText (js "Erro na autenticacao.")
       | AxiosError _ (MessageText m) => ErrorText m
       | AxiosError _ (MessageOther isTruthy) => ErrorOther isTruthy
       | OtherError _ => ErrorText (js "Erro inesperado na autenticacao.")
       end s).

(** [handleSubmit] *)
Definition handleSubmit (svc : Service) (sc : State * Client) : State * Client :=
  let '(s, c) := sc in
  let s := setMessage [] (setError (ErrorText []) s) in
  if negb (truthy (trim (email s))) || negb (truthy (trim (password s)))
     || (isRegister s && negb (truthy (trim (name s))))
  then (setError (ErrorText (js "Preencha os campos obrigatorios.")) s, c)
  else
    let s := setLoading true s in
    if isRegister s then
      let input := {| Auth.reg_name := name s; Auth.reg_email := email s;
                      Auth.reg_password := password s |} in
      let c := call (PostRegister input) c in
      match Auth.register (postRegister svc) input with
      | inr _ =>
          (setLoading false
             (setPassword []
                (setMode LoginMode
                   (setMessage
                      (js "Cadastro realizado. Agora faca login para acessar as credenciais.")
                      s))), c)
      | inl err => (caught err s, c)
      end
    else
      let c := call (PostLogin (email s) (password s)) c in
      match Auth.login (postLogin svc) (email s) (password s) (storage c) with
      | (inr _, st) => (setLoading false s, call (GoTo "/cash" true) (store st c))
      | (inl err, st) => (caught err s, store st c)
      end.

End LoginPage.

Module CredentialsPage.

Record State := {
  items : list Credential;
  form : CreateCredentialDto;
  loading : bool;
  loadingList : bool;
  error : JsString;
}.

Definition setItems (v : list Credential) (s : State) : State :=
  {| items := v; form := form s; loading := loading s;
     loadingList := loadingList s; error := error s |}.

Definition setForm (v : CreateCredentialDto) (s : State) : State :=
  {| items := items s; form := v; loading := loading s;
     loadingList := loadingList s; error := error s |}.

Definition setLoading (v : bool) (s : State) : State :=
  {| items := items s; form := form s; loading := v;
     loadingList := loadingList s; error := error s |}.

Definition setLoadingList (v : bool) (s : State) : State :=
  {| items := items s; form := form s; loading := loading s;
     loadingList := v; error := error s |}.

Definition setError (v : JsString) (s : State) : State :=
  {| items := items s; form := form s; loading := loading s;
     loadingList := loadingList s; error := v |}.

(** The remote service: GET /credentials, POST /credentials and
    DELETE /credentials/{id}. *)
Record Service := {
  getCredentials : JsError + list Credential;
  postCredential : CreateCredentialDto -> JsError + unit;
  deleteCredential : JsString -> JsError + unit;
}.

Definition handleUnauthorized (c : Client) : Client :=
  call (GoTo "/login" true) (store (Auth.logout (storage c)) c).

(** [loadCredentials] *)
Definition loadCredentials (svc : Service) (sc : State * Client) : State * Client :=
  let '(s, c) := sc in
  let s := setError [] (setLoadingList true s) in
  let c := call GetCredentials c in
  match getCredentials svc with
  | inr data => (setLoadingList false (setItems data s), c)
  | inl (AxiosError (Some 401) _) => (setLoadingList false s, handleUnauthorized c)
  | inl _ =>
      (setLoadingList false
         (setError (js "Nao foi possivel carregar credenciais. Verifique se a API Nest esta rodando.") s),
       c)
  end.

Definition emptyForm : CreateCredentialDto :=
  {| new_name := []; new_username := []; new_password := [] |}.

(** [handleSubmit].  [loadCredentials] catches what its request throws, so
    only the POST reaches the [catch] clause. *)
Definition handleSubmit (svc : Service) (sc : State * Client) : State * Client :=
  let '(s, c) := sc in
  let s := setError [] (setLoading true s) in
  let c := call (PostCredential (form s)) c in
  match postCredential svc (form s) with
  | inr _ =>
      let '(s, c) := loadCredentials svc (setForm emptyForm s, c) in
      (setLoading false s, c)
  | inl (AxiosError (Some 401) _) => (setLoading false s, handleUnauthorized c)
  | inl _ =>
      (setLoading false
         (setError (js "Falha ao criar credencial. Confira os campos e a API.") s), c)
  end.

(** [handleDelete] *)
Definition handleDelete (svc : Service) (id : JsString) (sc : State * Client)
  : State * Client :=
  let '(s, c) := sc in
  let s := setError [] s in
  let url := js "/credentials/" ++ id in
  let c := call (DeleteCredential url) c in
  match deleteCredential svc url with
  | inr _ => loadCredentials svc (s, c)
  | inl (AxiosError (Some 401) _) => (s, handleUnauthorized c)
  | inl _ => (setError (js "Falha ao excluir credencial.") s, c)
  end.

Definition handleLogout (c : Client) : Client :=
  call (GoTo "/login" true) (store (Auth.logout (storage c)) c).

Definition total (s : State) : nat := length (items s).

End CredentialsPage.

(* ===================================================================== *)
(** * A reader of delimited text *)
(* ===================================================================== *)

(** The reader the specification has in mind for the exported document, a
    standard reader of delimited text: a byte-order mark at the head is
    dropped; fields are separated by a semicolon; a record ends at a line
    feed, at a carriage return, or at a carriage return followed by a line
    feed; a field that opens with a double quote runs to the next double
    quote that is not doubled, a doubled one stands for one double quote,
    and separators and line ends inside it are data.  This definition
    follows the specification, not the source: the source only writes such
    documents. *)
Module CsvReader.

Inductive Mode :=
| FieldStart   (* nothing of the field read yet *)
| Unquoted     (* inside a field that did not open with a quote *)
| Quoted       (* inside a quoted field *)
| QuoteSeen    (* a quote was read inside a quoted field *)
| ReturnSeen.  (* a carriage return has just ended a record *)

(** [record] holds the fields of the current record read so far and
    [field] the code units of the current field. *)
Fixpoint read (mode : Mode) (field : JsString) (record : list JsString)
    (input : JsString) : list (list JsString) :=
  match input with
  | [] => [record ++ [field]]
  | c :: rest =>
      match mode with
      | Quoted =>
          if (c =? dquote)%N then read QuoteSeen field record rest
          else read Quoted (field ++ [c]) record rest
      | FieldStart =>
          if (c =? dquote)%N then read Quoted [] record rest
          else if (c =? semicolon)%N then read FieldStart [] (record ++ [field]) rest
          else if (c =? newline)%N then (record ++ [field]) :: read FieldStart [] [] rest
          else if (c =? carriageReturn)%N
          then (record ++ [field]) :: read ReturnSeen [] [] rest
          else read Unquoted (field ++ [c]) record rest
      | Unquoted =>
          if (c =? semicolon)%N then read FieldStart [] (record ++ [field]) rest
          else if (c =? newline)%N then (record ++ [field]) :: read FieldStart [] [] rest
          else if (c =? carriageReturn)%N
          then (record ++ [field]) :: read ReturnSeen [] [] rest
          else read Unquoted (field ++ [c]) record rest
      | QuoteSeen =>
          if (c =? dquote)%N then read Quoted (field ++ [dquote]) record rest
          else if (c =? semicolon)%N then read FieldStart [] (record ++ [field]) rest
          else if (c =? newline)%N then (record ++ [field]) :: read FieldStart [] [] rest
          else if (c =? carriageReturn)%N
          then (record ++ [field]) :: read ReturnSeen [] [] rest
          else read Unquoted (field ++ [c]) record rest
      | ReturnSeen =>
          if (c =? newline)%N then read FieldStart [] [] rest
          else if (c =? dquote)%N then read Quoted [] record rest
          else if (c =? semicolon)%N then read FieldStart [] (record ++ [field]) rest
          else if (c =? carriageReturn)%N
          then (record ++ [field]) :: read ReturnSeen [] [] rest
          else read Unquoted (field ++ [c]) record rest
      end
  end.

Definition stripBOM (text : JsString) : JsString :=
  match text with
  | c :: rest => if (c =? BOM)%N then rest else text
  | [] => []
  end.

Definition parse (text : JsString) : list (list JsString) :=
  read FieldStart [] [] (stripBOM text).

(** What the reader does once the fields [fields] of a record are complete
    and the input continues with a separator or ends. *)
Definition continue (fields : list JsString) (rest : JsString)
  : list (list JsString) :=
  match rest with
  | [] => [fields]
  | c :: r =>
      if (c =? semicolon)%N then read FieldStart [] fields r
      else fields :: read FieldStart [] [] r
  end.

(** The input after a field: nothing, or a separator and more. *)
Inductive delimited : JsString -> Prop :=
| delimited_end : delimited []
| delimited_field r : delimited (semicolon :: r)
| delimited_record r : delimited (newline :: r).

End CsvReader.

(* ===================================================================== *)
(** * Notions the properties are stated with *)
(* ===================================================================== *)

Module Spec.

(** The recognition result [{}]: every field undefined. *)
Definition emptyScan : ReceiptScanResult :=
  {| scan_type := None; scan_paymentMethod := None; scan_amount := None;
     scan_description := None; scan_category := None; scan_entryDate := None;
     scan_confidence := None |}.

(** [merged] is the value of a field after the merge, given the value
    [result] the recognition result has for it and the value [draft] the
    draft had. *)
Definition overwrites {A} (result : option A) (draft merged : A) : Prop :=
  (forall v, result = Some v -> merged = v) /\ (result = None -> merged = draft).

(** A page state to run the handlers from: the initial state of the
    component, for a given date. *)
Definition initialCash (today : JsString) : CashPage.State :=
  {| CashPage.entries := []; CashPage.summary := None;
     CashPage.selectedDate := today;
     CashPage.typeFilter := ALL; CashPage.paymentFilter := ALL;
     CashPage.loadingDashboard := true; CashPage.submitting := false;
     CashPage.scanningReceipt := false; CashPage.ocrInfo := CashPage.OcrEmpty;
     CashPage.error := [];
     CashPage.form :=
       {| dto_type := IN; dto_paymentMethod := PIX; dto_amount := Num.zero;
          dto_description := []; dto_category := Some [];
          dto_entryDate := Some today |};
     CashPage.receiptInputValue := js "C:\fakepath\recibo.jpg" |}.

(** A browser holding a session. *)
Definition signedIn : Browser :=
  {| localStorage :=
       <[Auth.USER_KEY := js "{}"]> (<[Auth.TOKEN_KEY := js "token"]> ∅);
     effects := [] |}.

Definition unauthorized : JsError :=
  AxiosError (Some 401) (MessageText (js "Unauthorized")).

(** A photo taken by the camera, and a browser and service for it: the
    photo is read and decoded, the encoder answers [encoded], and the
    service answers every request with [401 Unauthorized]. *)
Definition photo : File :=
  {| file_type := js "image/jpeg"; file_name := js "recibo.jpg" |}.

Definition expiredSession (encoded : JsString) : Env :=
  {| readAsDataURL := fun _ => Some (js "data:image/jpeg;base64,/9j/4AAQ");
     loadImage := fun _ => Some (4000, 3000);
     context2d := true;
     toDataURL := fun _ _ _ => encoded;
     scanReceipt := fun _ _ => inl unauthorized;
     createEntry := fun _ => inl unauthorized;
     deleteEntry := fun _ => inl unauthorized;
     getEntries := fun _ => inl unauthorized;
     getSummary := fun _ => inl unauthorized;
     summaryRejectsFirst := false |}.

(** An encoded image of 9,500,013 code units. *)
Definition hugeImage : JsString :=
  js "data:image/jpeg;base64," ++ replicate (Z.to_nat 9499990) 65%N.

Definition smallImage : JsString := js "data:image/jpeg;base64,/9j/2wBD".

(** A code unit that is not an ASCII capital. *)
Definition notCapital (c : N) : Prop := ~ (65 <= c <= 90)%N.

(** The calls that stay inside the browser: reading the file, decoding the
    image, drawing it.  The others go to the network or change the page. *)
Definition localOnly (e : Effect) : bool :=
  match e with
  | ReadFile _ | LoadImage _ | DrawImage _ _ => true
  | HttpGet _ _ | HttpPostScan _ _ | HttpPostEntry _ | HttpDelete _
  | Navigate _ _ => false
  end.

Definition today : JsString := js "2024-03-01".

(** The value a request carries for a key, if any (the first, should a
    key occur twice). *)
Fixpoint param (key : string) (ps : Params) : option JsString :=
  match ps with
  | [] => None
  | (k, v) :: rest => if String.eqb key k then Some v else param key rest
  end.

(** A text predicate is set when it is not the empty string. *)
Definition whenSet (s : JsString) : option JsString :=
  match s with [] => None | _ => Some s end.

(** A select filter is set when it is not ALL. *)
Definition chosen {A} (f : Filter A) : option A :=
  match f with ALL => None | Only a => Some a end.

(** An entry of the given type whose amount is the number the service
    sends for [cents] hundredths. *)
Definition entry (t : CashEntryType) (cents : Z) : CashEntry :=
  {| id := js "e"; type := t; amount := Num.decimal cents 2;
     description := js "venda"; category := None; paymentMethod := Some PIX;
     createdAt := js "2024-03-01T12:00:00.000Z" |}.

(** The amounts of the entries of one type, in the order of the list. *)
Definition amountsOf (t : CashEntryType) (items : list CashEntry) : list Num.number :=
  amount <$> filter (fun item => type item = t) items.

(** A stored user record that is not JSON. *)
Definition corrupted : gmap string JsString :=
  <[Auth.USER_KEY := js "{oops"]> (<[Auth.TOKEN_KEY := js "token"]> ∅).

(** The rational a positive finite number [m * 2^e] denotes. *)
Definition F2Q (m : positive) (e : Z) : Q := inject_Z (Z.pos m) * 2 ^ e.

(** Half a unit in the last place of a normal number, relative to it. *)
Definition eps : Q := 1 # 4503599627370496.

(** Checks of the resize arithmetic over the images that need no
    scaling, one per value: the scale of an image whose larger side is [M] is
    one; a side [w] times one, rounded, is [w]; and [Math.max(1, r)] of a
    rounded value. *)
Definition scaleIsOne (M : Z) : bool :=
  bool_decide (JsMath.min (Num.ofZ 1) (Num.div CashPage.maxDimension (Num.ofZ M))
               = Num.ofZ 1).

Definition sideIsKept (w : Z) : bool :=
  bool_decide (JsMath.max (Num.ofZ 1) (JsMath.round (Num.mul (Num.ofZ w) (Num.ofZ 1)))
               = Num.ofZ w).

Definition maxWithOne (r : Z) : bool :=
  bool_decide (JsMath.max (Num.ofZ 1) (JsMath.ofRounded false r) = Num.ofZ (Z.max 1 r)).

(** What [handleUnauthorized] does to the browser: the token and the user
    record are removed and the last call is the navigation to the login
    page. *)
Definition endsSession (before after : Browser) : Prop :=
  localStorage after = Auth.logout (localStorage before)
  /\ last (effects after) = Some (Navigate "/login" true).

(** A browser and service for [photo] whose recognition call answers
    [result]. *)
Definition recognizing (encoded : JsString) (result : ReceiptScanResult) : Env :=
  {| readAsDataURL := fun _ => Some (js "data:image/jpeg;base64,/9j/4AAQ");
     loadImage := fun _ => Some (4000, 3000);
     context2d := true;
     toDataURL := fun _ _ _ => encoded;
     scanReceipt := fun _ _ => inr result;
     createEntry := fun _ => inr tt;
     deleteEntry := fun _ => inr tt;
     getEntries := fun _ => inr [];
     getSummary := fun _ => inl (AxiosError None MessageAbsent);
     summaryRejectsFirst := false |}.

(** The draft [{ description: "almoco", amount: 0 }] and the recognition
    result [{ amount: 120.5, confidence: 0.73 }]. *)
Definition lunchDraft : CashPage.State :=
  CashPage.setForm
    {| dto_type := OUT; dto_paymentMethod := CASH; dto_amount := Num.zero;
       dto_description := js "almoco"; dto_category := Some [];
       dto_entryDate := Some today |}
    (initialCash today).

Definition lunchScan : ReceiptScanResult :=
  {| scan_type := None; scan_paymentMethod := None;
     scan_amount := Some (Num.decimal 1205 1);
     scan_description := None; scan_category := None; scan_entryDate := None;
     scan_confidence := Some (Num.decimal 73 2) |}.

(** Host formatting for the examples: dates are left as they are and an
    amount is printed from its hundredths. *)
Definition plainDate (value : JsString) : option JsString := None.

Definition fixedAmount (text : JsString) (x : Num.number) : JsString := text.

(** ** The exported document *)

(** A cell the export writes so that a standard reader gets it back: it
    has no carriage return, or it is one of the cells [escapeCsv] quotes. *)
Definition returnSafe (cell : JsString) : bool :=
  existsb ReportsPage.needsQuoting cell
  || negb (existsb (N.eqb carriageReturn) cell).

(** An entry whose description holds a carriage return: [linha\rretorno]. *)
Definition twoLines : CashEntry :=
  {| id := js "e"; type := IN; amount := Num.decimal 1250 2;
     description := js "linha" ++ [carriageReturn] ++ js "retorno";
     category := None; paymentMethod := Some PIX;
     createdAt := js "2024-03-01T12:00:00.000Z" |}.

(** ** The dashboard *)

(** The rejection [loadDashboard] catches, if any: the one of the request
    that failed, the earlier one when both failed. *)
Definition dashboardRejection (env : Env) (s : CashPage.State) : option JsError :=
  match getEntries env (CashPage.dashboardParams s),
        getSummary env [("date"%string, CashPage.selectedDate s)] with
  | inr _, inr _ => None
  | inl err, inr _ => Some err
  | inr _, inl err => Some err
  | inl listErr, inl summaryErr =>
      Some (if summaryRejectsFirst env then summaryErr else listErr)
  end.

(** ** Sessions, sign-in and credentials *)

(** Whether a request was answered with a response, or with
    [401 Unauthorized]. *)
Definition succeeded {A} (answer : JsError + A) : bool :=
  match answer with inr _ => true | inl _ => false end.

Definition is401 {A} (answer : JsError + A) : bool :=
  match answer with
  | inl (AxiosError (Some 401) _) => true
  | _ => false
  end.

(** Whether the session ends when a write answered [written] is followed,
    if it succeeded, by a list request answered [listed]. *)
Definition expires {A B} (written : JsError + A) (listed : JsError + B) : bool :=
  if succeeded written then is401 listed else is401 written.

Definition isGoTo (c : Call) : bool :=
  match c with GoTo _ _ => true | _ => false end.

(** The session of [before] is ended in [after], or kept, as [ends] says:
    the storage is cleared of it and the login page opened, or neither. *)
Definition sessionOutcome (ends : bool) (before after : Client) : Prop :=
  storage after = (if ends then Auth.logout (storage before) else storage before)
  /\ filter isGoTo (calls after)
     = filter isGoTo (calls before) ++ (if ends then [GoTo "/login" true] else []).

(** The body of the registration request for what the form holds. *)
Definition registerInput (s : LoginPage.State) : Auth.RegisterInput :=
  {| Auth.reg_name := LoginPage.name s; Auth.reg_email := LoginPage.email s;
     Auth.reg_password := LoginPage.password s |}.

(** The error the service answers the form with, if it refuses it. *)
Definition rejection (svc : LoginPage.Service) (s : LoginPage.State) : option JsError :=
  match LoginPage.mode s with
  | LoginPage.LoginMode =>
      match LoginPage.postLogin svc (LoginPage.email s) (LoginPage.password s) with
      | inl err => Some err
      | inr _ => None
      end
  | LoginPage.RegisterMode =>
      match LoginPage.postRegister svc (registerInput s) with
      | inl err => Some err
      | inr _ => None
      end
  end.

(** A user, the registration form filled in for her, the same form in
    login mode, a service that accepts every request and one that refuses
    every request with [err], and a browser without a session. *)
Definition ana : StringRecord :=
  [(js "id", js "u1"); (js "email", js "ana@example.com");
   (js "name", js "Ana"); (js "createdAt", js "2024-03-01T12:00:00.000Z")].

Definition signUp : LoginPage.State :=
  {| LoginPage.mode := LoginPage.RegisterMode; LoginPage.name := js "Ana";
     LoginPage.email := js "ana@example.com"; LoginPage.password := js "s3nha";
     LoginPage.loading := false; LoginPage.message := [];
     LoginPage.error := LoginPage.ErrorText [] |}.

Definition signIn : LoginPage.State := LoginPage.setMode LoginPage.LoginMode signUp.

Definition accepting : LoginPage.Service :=
  {| LoginPage.postLogin := fun _ _ =>
       inr {| Auth.accessToken := js "eyJhbGciOi"; Auth.user := ana |};
     LoginPage.postRegister := fun _ => inr ana |}.

Definition refusing (err : JsError) : LoginPage.Service :=
  {| LoginPage.postLogin := fun _ _ => inl err;
     LoginPage.postRegister := fun _ => inl err |}.

Definition signedOut : Client := {| storage := ∅; calls := [] |}.

(** ** New entries *)

(** A body the service is sent for a new entry is normalized: its
    description is trimmed and not empty, its amount a positive finite
    number, its category absent or trimmed and not empty. *)
Definition normalized (body : CreateCashEntryDto) : Prop :=
  trim (dto_description body) = dto_description body
  /\ dto_description body <> []
  /\ CashPage.isFinite (dto_amount body) = true
  /\ SFltb Num.zero (dto_amount body) = true
  /\ forall c, dto_category body = Some c -> trim c = c /\ c <> [].

(** The draft [{ description: " almoco ", amount: 120.5, category: "" }]. *)
Definition lunchEntry : CashPage.State :=
  CashPage.setForm
    {| dto_type := OUT; dto_paymentMethod := CASH; dto_amount := Num.decimal 1205 1;
       dto_description := js " almoco "; dto_category := Some [];
       dto_entryDate := Some today |}
    (initialCash today).

(** ** The report filters *)

Definition isGet (e : Effect) : bool :=
  match e with HttpGet _ _ => true | _ => false end.

(** A burst of filter changes: each comes less than 250 ms after the one
    before it and gives filters other than the ones in place. *)
Fixpoint burst (current : ReportsPage.Filters)
    (changes : list (Z * ReportsPage.Filters)) : Prop :=
  match changes with
  | [] => True
  | (gap, f) :: rest => 0 <= gap < 250 /\ f <> current /\ burst f rest
  end.

(** The page after the changes, each made when its gap has passed. *)
Definition typing (get : Z -> Params -> JsError + list CashEntry)
    (changes : list (Z * ReportsPage.Filters)) (p : ReportsPage.Page)
  : ReportsPage.Page :=
  fold_left (fun p change => ReportsPage.setFilters change.2
                               (ReportsPage.elapse get change.1 p)) changes p.

(** The filters in place after the changes. *)
Fixpoint lastFilters (start : ReportsPage.Filters)
    (changes : list (Z * ReportsPage.Filters)) : ReportsPage.Filters :=
  match changes with
  | [] => start
  | (_, f) :: rest => lastFilters f rest
  end.

(** The page while a burst is going on: one timeout is waiting, it is the
    one the cleanup will clear, it captured the filters shown, and nothing
    has been requested since [b]. *)
Definition waitingFor (f : ReportsPage.Filters) (b : Browser) (p : ReportsPage.Page)
  : Prop :=
  ReportsPage.filtersOf (ReportsPage.view p) = f /\ ReportsPage.browser p = b
  /\ exists t, ReportsPage.timers p = [t]
               /\ ReportsPage.cleanup p = Some (ReportsPage.timer_id t)
               /\ ReportsPage.captured t = f
               /\ ReportsPage.due t = ReportsPage.now p + 250.

(** The report page as it opens, and the category filter as the letters
    of [cafe] are typed into it. *)
Definition initialReport : ReportsPage.State :=
  {| ReportsPage.items := []; ReportsPage.loading := true; ReportsPage.error := [];
     ReportsPage.typeFilter := ALL; ReportsPage.dateFrom := []; ReportsPage.dateTo := [];
     ReportsPage.category_ := []; ReportsPage.description_ := [];
     ReportsPage.minAmount := []; ReportsPage.maxAmount := [] |}.

Definition categoryTyped (text : JsString) : ReportsPage.Filters :=
  {| ReportsPage.f_typeFilter := ALL; ReportsPage.f_dateFrom := [];
     ReportsPage.f_dateTo := []; ReportsPage.f_category := text;
     ReportsPage.f_description := []; ReportsPage.f_minAmount := [];
     ReportsPage.f_maxAmount := [] |}.

Definition typingCafe : list (Z * ReportsPage.Filters) :=
  [(120, categoryTyped (js "c")); (90, categoryTyped (js "ca"));
   (140, categoryTyped (js "caf")); (200, categoryTyped (js "cafe"))].

End Spec.
Import Spec.

(* ===================================================================== *)
(** * The model at work *)
(* ===================================================================== *)

Section Examples.
Import CashPage ReportsPage.

Example escapeCsv_plain : escapeCsv (js "fornecedor") = js "fornecedor".
Proof. reflexivity. Qed.

Example escapeCsv_amount : escapeCsv (js "45,90") = [dquote] ++ js "45,90" ++ [dquote].
Proof. reflexivity. Qed.

Example escapeCsv_quote :
  escapeCsv (js "a" ++ [dquote] ++ js "b")
  = [dquote] ++ js "a" ++ [dquote; dquote] ++ js "b" ++ [dquote].
Proof. reflexivity. Qed.

(** The exported document of one OUT entry of 45.90. *)
Example document_one_entry :
  document plainDate (fixedAmount (js "45.90")) [entry OUT 4590]
  = [BOM] ++ js "Data/Hora;Tipo;Categoria;Descricao;Pagamento;Valor" ++ [newline]
    ++ js "2024-03-01T12:00:00.000Z;Saida;;venda;PIX;"
    ++ [dquote] ++ js "45,90" ++ [dquote].
Proof. reflexivity. Qed.

Example camera_capture_accepted :
  isLikelyImageFile {| file_type := js ""; file_name := js "IMG_0042.HEIC" |} = true.
Proof. reflexivity. Qed.

Example pdf_rejected :
  isLikelyImageFile {| file_type := js "application/pdf"; file_name := js "recibo.pdf" |}
  = false.
Proof. reflexivity. Qed.

Example extension_needs_its_dot :
  isLikelyImageFile {| file_type := js ""; file_name := js "recibopng" |} = false.
Proof. reflexivity. Qed.

Example landscape_photo :
  optimizedSize 4000 3000 = (Num.ofZ 1600, Num.ofZ 1200).
Proof. reflexivity. Qed.

Example thin_strip : optimizedSize 1 5000 = (Num.ofZ 1, Num.ofZ 1600).
Proof. reflexivity. Qed.

Example small_image : optimizedSize 640 480 = (Num.ofZ 640, Num.ofZ 480).
Proof. reflexivity. Qed.

(** The scenario of the specification: the recognition result
    [{ amount: 120.5, confidence: 0.73 }] merged into the draft
    [{ description: "almoco", amount: 0 }] gives
    [{ description: "almoco", amount: 120.5 }], and the text reports 73%. *)
Example lunch_receipt :
  let r := handleScanReceiptFile (recognizing smallImage lunchScan) photo
             (lunchDraft, signedIn) in
  dto_description (CashPage.form r.1) = js "almoco"
  /\ dto_amount (CashPage.form r.1) = Num.decimal 1205 1
  /\ CashPage.ocrInfo r.1 = OcrRead (Num.ofZ 73)
  /\ CashPage.error r.1 = []
  /\ CashPage.scanningReceipt r.1 = false.
Proof. vm_compute. repeat split. Qed.

(** Three entries of 0.10, 0.20 and 0.30: the total is
    0.6000000000000001. *)
Example totals_three :
  totalIn (totals [entry IN 10; entry IN 20; entry IN 30])
  = S754_finite false 5404319552844596 (-53).
Proof. reflexivity. Qed.

Example json_object :
  JSON.parse (js "{ } ") = Some (JObject []) /\ JSON.parse (js "[1,]") = None.
Proof. split; reflexivity. Qed.

End Examples.

(* ===================================================================== *)
(** * Properties of the delimited-text export *)
(* ===================================================================== *)

Section EscapeCsv.
Import ReportsPage.

Lemma existsb_needsQuoting (text : JsString) :
  existsb needsQuoting text = true <->
  dquote ∈ text \/ comma ∈ text \/ semicolon ∈ text \/ newline ∈ text.
Proof.
  rewrite existsb_exists. unfold needsQuoting. split.
  - intros (c & Hin & Hc). apply list_elem_of_In in Hin.
    repeat (apply orb_true_iff in Hc; destruct Hc as [Hc | Hc]);
      apply N.eqb_eq in Hc; subst c; tauto.
  - intros H.
    destruct H as [H | [H | [H | H]]]; apply list_elem_of_In in H;
      eexists; (split; [exact H | ]); reflexivity.
Qed.

Lemma quoted_neq (text : JsString) : quoted text <> text.
Proof.
  intros H. apply (f_equal length) in H. unfold quoted in H.
  simpl in H. rewrite length_app in H. simpl in H.
  assert (length text <= length (replaceAll dquote [dquote; dquote] text))%nat.
  { clear H. induction text as [| c t IH]; simpl; [lia |].
    destruct (c =? dquote)%N; simpl; lia. }
  lia.
Qed.

(** C3 (as the code has it): a field is quoted, that is wrapped in double
    quotes with its double quotes doubled, if and only if it contains a
    double quote, a comma, a semicolon or a line feed; a field containing
    none of the four is returned as it is. *)
Theorem escapeCsv_quotes_iff (text : JsString) :
  (escapeCsv text = quoted text <->
     dquote ∈ text \/ comma ∈ text \/ semicolon ∈ text \/ newline ∈ text)
  /\ (~ (dquote ∈ text \/ comma ∈ text \/ semicolon ∈ text \/ newline ∈ text) ->
      escapeCsv text = text).
Proof.
  pose proof (existsb_needsQuoting text) as Hex.
  unfold escapeCsv.
  destruct (existsb needsQuoting text) eqn:E; simpl.
  - split; [tauto |]. intros Hn. exfalso. apply Hn, Hex. reflexivity.
  - split; [| reflexivity]. split.
    + intros Heq. exfalso. exact (quoted_neq text (eq_sym Heq)).
    + intros H. apply Hex in H. discriminate.
Qed.

(** C3, counterexample: the field [a,b] contains no double quote, no
    semicolon and no line feed, and it is quoted. *)
Lemma escapeCsv_comma_is_quoted :
  ~ (forall text : JsString,
       escapeCsv text = quoted text <->
       dquote ∈ text \/ semicolon ∈ text \/ newline ∈ text).
Proof.
  intros H. specialize (H (js "a,b")).
  destruct H as [H _]. specialize (H eq_refl).
  destruct H as [H | [H | H]]; vm_compute in H;
    repeat (apply elem_of_cons in H; destruct H as [H | H]; [discriminate |]);
    inversion H.
Qed.

End EscapeCsv.

(** ** Reading back what the export writes *)

Section RoundTrip.
Import ReportsPage CsvReader.

#[local] Hint Constructors delimited : core.

Lemma continue_field fields r :
  continue fields (semicolon :: r) = read FieldStart [] fields r.
Proof. reflexivity. Qed.

Lemma continue_record fields r :
  continue fields (newline :: r) = fields :: read FieldStart [] [] r.
Proof. reflexivity. Qed.

Lemma read_delimited mode field record rest :
  delimited rest -> mode <> Quoted -> mode <> ReturnSeen ->
  (mode = FieldStart -> field = []) ->
  read mode field record rest = continue (record ++ [field]) rest.
Proof.
  intros Hd Hm Hr Hf. destruct Hd; destruct mode; try congruence;
    try (rewrite Hf by reflexivity); reflexivity.
Qed.

Lemma read_unquoted text : forall field record rest,
  existsb needsQuoting text = false ->
  existsb (N.eqb carriageReturn) text = false ->
  read Unquoted field record (text ++ rest) = read Unquoted (field ++ text) record rest.
Proof.
  induction text as [| c t IH]; intros field record rest H Hcr;
    cbn [existsb] in H, Hcr; simpl.
  - by rewrite app_nil_r.
  - apply orb_false_iff in H as [Hc Ht]. unfold needsQuoting in Hc.
    repeat (apply orb_false_iff in Hc; destruct Hc as [Hc ?]).
    apply orb_false_iff in Hcr as [Hr Hcr]. rewrite N.eqb_sym in Hr.
    replace (c =? semicolon)%N with false by done.
    replace (c =? newline)%N with false by done.
    rewrite Hr.
    rewrite IH by done. by rewrite <- app_assoc.
Qed.

Lemma read_quoted text : forall field record rest,
  read Quoted field record (replaceAll dquote [dquote; dquote] text ++ dquote :: rest)
  = read QuoteSeen (field ++ text) record rest.
Proof.
  induction text as [| c t IH]; intros field record rest; simpl.
  - by rewrite app_nil_r.
  - destruct (c =? dquote)%N eqn:E; simpl.
    + apply N.eqb_eq in E; subst c. rewrite IH. by rewrite <- app_assoc.
    + rewrite E. rewrite IH. by rewrite <- app_assoc.
Qed.

(** One escaped field is read back as the field, when it has no carriage
    return or is quoted. *)
Lemma read_escapeCsv text record rest :
  returnSafe text = true ->
  delimited rest ->
  read FieldStart [] record (escapeCsv text ++ rest) = continue (record ++ [text]) rest.
Proof.
  intros Hsafe Hd. unfold escapeCsv. unfold returnSafe in Hsafe.
  destruct (existsb needsQuoting text) eqn:E; simpl.
  - unfold quoted. rewrite <- app_assoc. simpl. rewrite read_quoted. simpl.
    by apply read_delimited.
  - cbn [orb] in Hsafe. apply negb_true_iff in Hsafe.
    destruct text as [| c t]; simpl.
    + by apply read_delimited.
    + cbn [existsb] in E, Hsafe. apply orb_false_iff in E as [Hc Ht].
      unfold needsQuoting in Hc.
      repeat (apply orb_false_iff in Hc; destruct Hc as [Hc ?]).
      apply orb_false_iff in Hsafe as [Hr Hcr]. rewrite N.eqb_sym in Hr.
      replace (c =? dquote)%N with false by done.
      replace (c =? semicolon)%N with false by done.
      replace (c =? newline)%N with false by done.
      rewrite Hr.
      rewrite read_unquoted by done. by apply read_delimited.
Qed.

(** One written line is read back as its cells. *)
Lemma read_line cells : forall cell record rest,
  Forall (fun c => returnSafe c = true) (cell :: cells) ->
  delimited rest ->
  read FieldStart [] record
       (join [semicolon] (List.map escapeCsv (cell :: cells)) ++ rest)
  = continue (record ++ cell :: cells) rest.
Proof.
  induction cells as [| c cs IH]; intros cell record rest Hsafe Hd.
  - simpl. apply read_escapeCsv; [by inversion Hsafe | done].
  - inversion Hsafe as [| ? ? H1 H2]; subst.
    change (join [semicolon] (List.map escapeCsv (cell :: c :: cs)))
      with (escapeCsv cell ++ semicolon :: join [semicolon] (List.map escapeCsv (c :: cs))).
    rewrite <- app_assoc, <- app_comm_cons. rewrite read_escapeCsv by auto.
    rewrite continue_field, IH by done. by rewrite <- app_assoc.
Qed.

(** Lines of at least one cell each, joined by line feeds, are read back
    as the lists of their cells. *)
Lemma read_lines rows : forall first,
  Forall (fun r => r <> []) (first :: rows) ->
  Forall (Forall (fun c => returnSafe c = true)) (first :: rows) ->
  read FieldStart [] [] (join [newline] (List.map line (first :: rows)))
  = first :: rows.
Proof.
  induction rows as [| r rs IH]; intros first Hne Hsafe.
  - inversion Hne as [| ? ? H1 _]; subst. inversion Hsafe as [| ? ? S1 _]; subst.
    destruct first as [| c cs]; [done |].
    change (join [newline] (List.map line [c :: cs]))
      with (join [semicolon] (List.map escapeCsv (c :: cs))).
    rewrite <- (app_nil_r (join _ _)). by rewrite read_line.
  - inversion Hne as [| ? ? H1 H2]; subst. inversion Hsafe as [| ? ? S1 S2]; subst.
    destruct first as [| c cs]; [done |].
    change (join [newline] (List.map line ((c :: cs) :: r :: rs)))
      with (join [semicolon] (List.map escapeCsv (c :: cs))
            ++ newline :: join [newline] (List.map line (r :: rs))).
    rewrite read_line by auto. rewrite continue_record. f_equal. by apply IH.
Qed.

(** C4, on the code: the export is read back by a standard reader exactly
    when no cell carries a bare carriage return.  For every result set and
    every formatting of dates and amounts, if each cell of each row has no
    carriage return or is one of the cells [escapeCsv] quotes (it holds a
    double quote, a comma, a semicolon or a line feed), then reading the
    exported document back gives the header followed by exactly the row of
    every entry, in order.  But [escapeCsv] does not quote a cell for a
    carriage return: for the entry whose description is [linha], a carriage
    return, [retorno], the reader ends the record at the carriage return
    and returns two records for the one row, so the tuples read are not the
    tuples written. *)
Theorem export_splits_at_carriage_return :
  (forall (toLocaleString : JsString -> option JsString)
          (toFixed2 : Num.number -> JsString) (items : list CashEntry),
     Forall (Forall (fun cell => returnSafe cell = true))
       (List.map (row toLocaleString toFixed2) items) ->
     CsvReader.parse (document toLocaleString toFixed2 items)
     = header :: List.map (row toLocaleString toFixed2) items)
  /\ escapeCsv (description twoLines) = description twoLines
  /\ CsvReader.parse (document plainDate (fixedAmount (js "12.50")) [twoLines])
     = [header;
        [js "2024-03-01T12:00:00.000Z"; js "Entrada"; []; js "linha"];
        [js "retorno"; js "PIX"; js "12,50"]]
  /\ CsvReader.parse (document plainDate (fixedAmount (js "12.50")) [twoLines])
     <> header :: List.map (row plainDate (fixedAmount (js "12.50"))) [twoLines].
Proof.
  split; [| split; [reflexivity | split; [reflexivity | discriminate]]].
  intros toLocaleString toFixed2 items Hsafe.
  change (CsvReader.parse (document toLocaleString toFixed2 items))
    with (read FieldStart [] []
            (join [newline]
               (List.map line (header :: List.map (row toLocaleString toFixed2) items)))).
  apply read_lines.
  - constructor; [done |].
    apply Forall_forall. intros r Hr. apply list_elem_of_In, in_map_iff in Hr.
    destruct Hr as (item & <- & _). done.
  - constructor; [| exact Hsafe]. by repeat constructor.
Qed.

End RoundTrip.

(* ===================================================================== *)
(** * Properties of the draft merge *)
(* ===================================================================== *)

Section Merge.
Import CashPage.

(** C2: the merge is a field-level overwrite.  For each of the six fields
    on its own, a value the recognition result defines replaces the draft's
    and an undefined one keeps the draft's; so merging the empty result
    gives the draft back. *)
Theorem mergeScan_fieldwise (d : CreateCashEntryDto) (r : ReceiptScanResult) :
  overwrites (scan_type r) (dto_type d) (dto_type (mergeScan r d))
  /\ overwrites (scan_paymentMethod r) (dto_paymentMethod d)
                (dto_paymentMethod (mergeScan r d))
  /\ overwrites (scan_amount r) (dto_amount d) (dto_amount (mergeScan r d))
  /\ overwrites (scan_description r) (dto_description d)
                (dto_description (mergeScan r d))
  /\ overwrites (Some <$> scan_category r) (dto_category d)
                (dto_category (mergeScan r d))
  /\ overwrites (Some <$> scan_entryDate r) (dto_entryDate d)
                (dto_entryDate (mergeScan r d))
  /\ mergeScan emptyScan d = d.
Proof.
  unfold overwrites, mergeScan, nullish.
  destruct d as [dt dp da dd dc de].
  destruct r as [[t |] [p |] [a |] [ds |] [c |] [e |] cf]; simpl;
    repeat split; congruence.
Qed.

End Merge.

(* ===================================================================== *)
(** * Properties of the receipt digitization workflow *)
(* ===================================================================== *)

Section Validation.
Import CashPage.

Lemma startsWith_prefix (p s : JsString) :
  startsWith p s = true <-> p `prefix_of` s.
Proof.
  revert s. induction p as [| a p IH]; intros s; simpl.
  - split; [intros _; apply prefix_nil | done].
  - destruct s as [| b s].
    + split; [done |]. intros [k Hk]. discriminate.
    + rewrite andb_true_iff, N.eqb_eq, IH. split.
      * intros [-> Hp]. by apply prefix_cons.
      * intros [k Hk]. injection Hk as -> ->. split; [done |]. by exists k.
Qed.

Lemma elem_of_tails (t s : JsString) : t ∈ tails s <-> t `suffix_of` s.
Proof.
  induction s as [| c s IH]; simpl.
  - rewrite list_elem_of_singleton. split.
    + intros ->. done.
    + intros H. by apply suffix_nil_inv.
  - rewrite elem_of_cons, IH. split.
    + intros [-> | H]; [done |]. by apply suffix_cons_r.
    + intros H. destruct t as [| x t]; [right; apply suffix_nil |].
      apply suffix_cons_inv in H. tauto.
Qed.

Lemma toLowerCase_notCapital (s : JsString) : Forall notCapital (toLowerCase s).
Proof.
  unfold toLowerCase. induction s as [| c s IH]; simpl; [constructor |].
  apply Forall_app. split; [| exact IH].
  unfold lowerUnit, notCapital.
  destruct ((65 <=? c) && (c <=? 90))%N eqn:E1.
  - apply andb_true_iff in E1 as [H1 H2].
    apply N.leb_le in H1, H2. repeat constructor. lia.
  - destruct (c =? 8490)%N; [repeat constructor; lia |].
    destruct (c =? 304)%N; [repeat constructor; lia |].
    repeat constructor. intros [H1 H2].
    apply N.leb_le in H1, H2. rewrite H1, H2 in E1. discriminate.
Qed.

Lemma canonicalize_inj (a b : N) :
  notCapital a -> notCapital b -> canonicalize a = canonicalize b -> a = b.
Proof.
  unfold notCapital, canonicalize. intros Ha Hb.
  destruct (N.leb_spec 97 a), (N.leb_spec a 122), (N.leb_spec 97 b),
    (N.leb_spec b 122); simpl; lia.
Qed.

Lemma eqIgnoreCase_eq (pat t : JsString) :
  Forall notCapital pat -> Forall notCapital t ->
  eqIgnoreCase pat t = true <-> pat = t.
Proof.
  intros Hp. revert t. induction Hp as [| a pat Ha Hp IH]; intros t Ht.
  - destruct t; simpl; split; congruence.
  - destruct Ht as [| b t Hb Ht]; simpl; [split; congruence |].
    rewrite andb_true_iff, N.eqb_eq, (IH t Ht). split.
    + intros [Hc ->]. f_equal. by apply canonicalize_inj.
    + intros [= -> ->]. done.
Qed.

Lemma extensions_notCapital (ext : JsString) :
  ext ∈ extensions -> Forall notCapital (dot :: ext).
Proof.
  intros H. apply Forall_forall. intros c Hc.
  assert (Hall : forallb (fun e => forallb (fun c => negb ((65 <=? c) && (c <=? 90))%N) (dot :: e))
                   extensions = true) by reflexivity.
  rewrite forallb_forall in Hall. apply list_elem_of_In in H.
  specialize (Hall ext H). rewrite forallb_forall in Hall.
  apply list_elem_of_In in Hc. specialize (Hall c Hc).
  unfold notCapital. intros [H1 H2]. apply N.leb_le in H1, H2.
  rewrite H1, H2 in Hall. discriminate.
Qed.

Lemma extensionTest_suffix (name : JsString) :
  extensionTest (toLowerCase name) = true <->
  exists ext, ext ∈ extensions /\ (dot :: ext) `suffix_of` toLowerCase name.
Proof.
  unfold extensionTest. rewrite existsb_exists. split.
  - intros (t & Ht & Hex). apply existsb_exists in Hex as (ext & Hext & Heq).
    apply list_elem_of_In in Ht, Hext. apply elem_of_tails in Ht.
    exists ext. split; [done |].
    apply eqIgnoreCase_eq in Heq; [by subst t | by apply extensions_notCapital |].
    destruct Ht as [k Hk]. pose proof (toLowerCase_notCapital name) as Hall.
    rewrite Hk in Hall. by apply Forall_app in Hall as [_ ?].
  - intros (ext & Hext & Hsuf). exists (dot :: ext). split.
    + by apply list_elem_of_In, elem_of_tails.
    + apply existsb_exists. exists ext. split; [by apply list_elem_of_In |].
      apply eqIgnoreCase_eq; [by apply extensions_notCapital | | done].
      by apply extensions_notCapital.
Qed.

(** C9: a file passes the validation of the workflow if and only if its
    declared media type starts with [image/] or its lowercased name ends
    with a dot and one of png, jpg, jpeg, webp, bmp, gif, heic, heif; the
    workflow answers any other file with the invalid-file message and calls
    nothing: the browser, with the list of calls made (file reads, image
    decoding, uploads), is as it was. *)
Theorem isLikelyImageFile_accepts (file : File) :
  (isLikelyImageFile file = true <->
     js "image/" `prefix_of` file_type file
     \/ exists ext, ext ∈ extensions
                    /\ (dot :: ext) `suffix_of` toLowerCase (file_name file))
  /\ (isLikelyImageFile file = false ->
      forall env s b,
        snd (handleScanReceiptFile env file (s, b)) = b
        /\ error (fst (handleScanReceiptFile env file (s, b))) = invalidFile
        /\ form (fst (handleScanReceiptFile env file (s, b))) = form s).
Proof.
  split.
  - unfold isLikelyImageFile. rewrite <- startsWith_prefix, <- extensionTest_suffix.
    destruct (startsWith (js "image/") (file_type file)); intuition congruence.
  - intros Hrej env s b. unfold handleScanReceiptFile, scanBody.
    rewrite Hrej. simpl. done.
Qed.

End Validation.

Section Workflow.
Import CashPage.

(** Preparing the image only reads, decodes and draws. *)
Lemma fileToOptimizedDataUrl_local env file b :
  localStorage (snd (fileToOptimizedDataUrl env file b)) = localStorage b
  /\ exists l, effects (snd (fileToOptimizedDataUrl env file b)) = effects b ++ l
               /\ forallb localOnly l = true.
Proof.
  unfold fileToOptimizedDataUrl.
  destruct (readAsDataURL env file) as [original |]; simpl.
  2: { split; [done |]. by eexists [_]. }
  destruct (loadImage env original) as [[w h] |]; simpl.
  2: { split; [done |]. rewrite <- app_assoc. by eexists [_; _]. }
  destruct (optimizedSize w h) as [width height].
  destruct (context2d env); simpl.
  - split; [done |]. rewrite <- !app_assoc. by eexists [_; _; _].
  - split; [done |]. rewrite <- app_assoc. by eexists [_; _].
Qed.

(** C6: when the encoded image is longer than 9,500,000 code units the
    workflow stops with the size message before the upload: the only calls
    made are the local ones of the image preparation, none goes to the
    recognition service, and the draft is as it was.  A payload of exactly
    9,500,000 code units passes this check: the upload is issued with it. *)
Theorem oversize_rejected env file s b base64 :
  isLikelyImageFile file = true ->
  fst (fileToOptimizedDataUrl env file b) = inr base64 ->
  startsWith (js "data:image/") base64 = true ->
  let prepared := snd (fileToOptimizedDataUrl env file b) in
  let r := handleScanReceiptFile env file (s, b) in
  (jslength base64 > 9500000 ->
     snd r = prepared
     /\ (exists l, effects (snd r) = effects b ++ l /\ forallb localOnly l = true)
     /\ error (fst r) = tooLarge
     /\ form (fst r) = form s)
  /\ (jslength base64 = 9500000 ->
      exists rest, effects (snd r)
                   = effects prepared ++ HttpPostScan base64 (js "por") :: rest).
Proof.
  intros Hok Hurl Hprefix prepared r. subst prepared r.
  pose proof (fileToOptimizedDataUrl_local env file b) as [_ Hlocal].
  unfold handleScanReceiptFile, scanBody. rewrite Hok. cbn [negb].
  destruct (fileToOptimizedDataUrl env file b) as [res b1] eqn:E.
  cbn [fst snd] in *. subst res. rewrite Hprefix. cbn [negb].
  split.
  - intros Hbig. apply Z.gtb_gt in Hbig. rewrite Hbig. simpl. done.
  - intros Heq. rewrite Heq. simpl.
    destruct (scanReceipt env base64 (js "por")); simpl; by eexists.
Qed.

(** After a successful recognition call the draft is the merge of the
    result into the draft before it. *)
Lemma scan_applies_merge env file s b base64 parsed :
  isLikelyImageFile file = true ->
  fst (fileToOptimizedDataUrl env file b) = inr base64 ->
  startsWith (js "data:image/") base64 = true ->
  jslength base64 <= 9500000 ->
  scanReceipt env base64 (js "por") = inr parsed ->
  form (fst (handleScanReceiptFile env file (s, b))) = mergeScan parsed (form s).
Proof.
  intros Hok Hurl Hprefix Hlen Hscan.
  unfold handleScanReceiptFile, scanBody. rewrite Hok. cbn [negb].
  destruct (fileToOptimizedDataUrl env file b) as [res b1].
  cbn [fst] in Hurl. subst res. rewrite Hprefix. cbn [negb].
  rewrite Z.gtb_ltb. replace (9500000 <? jslength base64) with false
    by (symmetry; apply Z.ltb_ge; lia).
  rewrite Hscan. cbn [fst].
  destruct (scan_entryDate parsed) as [d |]; [destruct (truthy d) |]; reflexivity.
Qed.

Lemma jslength_hugeImage : jslength hugeImage = 9500013.
Proof.
  unfold jslength, hugeImage. rewrite length_app, length_replicate.
  rewrite Nat2Z.inj_add, Z2Nat.id by lia. reflexivity.
Qed.

(** The oversize case at a concrete input: a camera photo whose encoding
    has 9,500,013 code units. *)
Lemma oversize_rejected_witness :
  let r := handleScanReceiptFile (expiredSession hugeImage) photo
             (initialCash today, signedIn) in
  jslength hugeImage > 9500000
  /\ (exists l, effects (snd r) = effects signedIn ++ l /\ forallb localOnly l = true)
  /\ error (fst r) = tooLarge
  /\ form (fst r) = form (initialCash today).
Proof.
  intros r.
  assert (Hbig : jslength hugeImage > 9500000) by (rewrite jslength_hugeImage; lia).
  split; [exact Hbig |].
  pose proof (oversize_rejected (expiredSession hugeImage) photo
                (initialCash today) signedIn hugeImage
                eq_refl eq_refl eq_refl) as [H _].
  destruct (H Hbig) as (_ & H2 & H3 & H4). exact (conj H2 (conj H3 H4)).
Defined.

(** Every other authenticated call ends the session on a 401: the
    dashboard load (when the rejection it catches, the earlier one if both
    requests fail, is a 401), the deletion and the creation of an entry, and
    the report load. *)
Lemma other_calls_end_session env (s : State) (b : Browser) m :
  (dashboardRejection env s = Some (AxiosError (Some 401) m) ->
   endsSession b (loadDashboard env (s, b)).2)
  /\ (forall id,
        deleteEntry env (js "/cash-entries/" ++ id) = inl (AxiosError (Some 401) m) ->
        endsSession b (handleDeleteEntry env id (s, b)).2)
  /\ (truthy (trim (dto_description (form s))) = true ->
      isFinite (dto_amount (form s)) = true ->
      SFleb (dto_amount (form s)) Num.zero = false ->
      createEntry env (entryBody (form s)) = inl (AxiosError (Some 401) m) ->
      endsSession b (handleCreateEntry env (s, b)).2)
  /\ (forall (rs : ReportsPage.State) get,
        get (ReportsPage.reportParams rs) = inl (AxiosError (Some 401) m) ->
        endsSession b (ReportsPage.loadReport get (rs, b)).2).
Proof.
  unfold endsSession. split; [| split; [| split]].
  - intros H. unfold loadDashboard, dashboardRejection in *.
    change (dashboardParams (setError [] (setLoadingDashboard true s)))
      with (dashboardParams s).
    cbn [selectedDate setError setLoadingDashboard].
    destruct (getEntries env (dashboardParams s)) as [listErr | ?],
      (getSummary env [("date"%string, selectedDate s)]) as [summaryErr | ?];
      try discriminate; injection H as H; rewrite H;
      cbn [snd handleUnauthorized perform effects setStorage localStorage];
      (split; [reflexivity | apply last_snoc]).
  - intros id H. unfold handleDeleteEntry.
    rewrite H. cbn [snd handleUnauthorized perform effects setStorage localStorage].
    split; [reflexivity | apply last_snoc].
  - intros Hdesc Hfin Hpos H. unfold handleCreateEntry.
    change (form (setError [] s)) with (form s).
    rewrite Hdesc, Hfin, Hpos. cbn [negb orb].
    change (form (setSubmitting true (setError [] s))) with (form s).
    rewrite H. cbn [snd handleUnauthorized perform effects setStorage localStorage].
    split; [reflexivity | apply last_snoc].
  - intros rs get H. unfold ReportsPage.loadReport.
    change (ReportsPage.reportParams (ReportsPage.setError [] (ReportsPage.setLoading true rs)))
      with (ReportsPage.reportParams rs).
    rewrite H.
    cbn [snd ReportsPage.handleUnauthorized perform effects setStorage localStorage].
    split; [reflexivity | apply last_snoc].
Qed.

(** C1, on the code: the digitization handler never touches the session.
    Whatever the browser and the service answer, the storage after it is the
    storage before it and it navigates nowhere.  In particular, with a
    stored session and a service that answers [401 Unauthorized], the user
    stays signed in and only sees the message of the response as a
    digitization error, where [loadDashboard], given the same answer, clears
    the session and navigates to [/login]. *)
Theorem scan_401_keeps_session :
  (forall env file s b,
     let r := handleScanReceiptFile env file (s, b) in
     localStorage (snd r) = localStorage b
     /\ forall path replace,
          Navigate path replace ∈ effects (snd r) ->
          Navigate path replace ∈ effects b)
  /\ (let r := handleScanReceiptFile (expiredSession smallImage) photo
                 (initialCash today, signedIn) in
      Auth.isAuthenticated (localStorage (snd r)) = true
      /\ error (fst r) = js "Unauthorized"
      /\ effects (snd r) !! 3%nat = Some (HttpPostScan smallImage (js "por"))
      /\ length (effects (snd r)) = 4%nat)
  /\ (let r := loadDashboard (expiredSession smallImage)
                 (initialCash today, signedIn) in
      Auth.isAuthenticated (localStorage (snd r)) = false
      /\ Auth.getToken (localStorage (snd r)) = None
      /\ Navigate "/login" true ∈ effects (snd r)).
Proof.
  split; [| split].
  - intros env file s b r. subst r.
    pose proof (fileToOptimizedDataUrl_local env file b) as [Hst (l & Hl & Hloc)].
    assert (Hnav : forall b' l' path replace,
               effects b' = effects b ++ l' ->
               forallb (fun e => match e with Navigate _ _ => false | _ => true end) l' = true ->
               Navigate path replace ∈ effects b' -> Navigate path replace ∈ effects b).
    { intros b' l' path replace -> Hall Hin.
      apply elem_of_app in Hin as [? | Hin]; [done |].
      rewrite forallb_forall in Hall. apply list_elem_of_In in Hin.
      by specialize (Hall _ Hin). }
    assert (Hloc' : forallb (fun e => match e with Navigate _ _ => false | _ => true end) l = true).
    { rewrite forallb_forall in Hloc |- *. intros e He. specialize (Hloc e He).
      by destruct e. }
    unfold handleScanReceiptFile, scanBody.
    destruct (isLikelyImageFile file); cbn [negb fst snd].
    2: { split; [done |]. intros path replace. done. }
    destruct (fileToOptimizedDataUrl env file b) as [[err | base64] b1] eqn:E;
      cbn [fst snd] in Hst, Hl |- *.
    { split; [done |]. intros path replace. by apply (Hnav b1 l). }
    destruct (startsWith (js "data:image/") base64); cbn [negb fst snd].
    2: { split; [done |]. intros path replace. by apply (Hnav b1 l). }
    destruct (jslength base64 >? 9500000); cbn [negb fst snd].
    { split; [done |]. intros path replace. by apply (Hnav b1 l). }
    assert (Hpost : forall path replace,
               Navigate path replace ∈ effects b1 ++ [HttpPostScan base64 (js "por")] ->
               Navigate path replace ∈ effects b).
    { intros path replace Hin. apply elem_of_app in Hin as [Hin | Hin].
      - by apply (Hnav b1 l).
      - apply list_elem_of_singleton in Hin. discriminate. }
    destruct (scanReceipt env base64 (js "por")) as [err | parsed];
      cbn [fst snd]; (split; [done | exact Hpost]).
  - vm_compute. repeat split.
  - vm_compute. repeat split. apply list_elem_of_In. vm_compute. tauto.
Qed.

End Workflow.

(* ===================================================================== *)
(** * Properties of the query construction *)
(* ===================================================================== *)

Section Queries.

Lemma truthy_nonempty (s : JsString) : truthy s = true <-> s <> [].
Proof. destruct s; simpl; split; congruence. Qed.

Lemma streq_nonempty (s : JsString) : negb (streq s []) = true <-> s <> [].
Proof.
  unfold streq. rewrite negb_true_iff, bool_decide_eq_false. tauto.
Qed.

Lemma typeName_nonempty t : typeName t <> [].
Proof. by destruct t. Qed.

Lemma paymentName_nonempty p : paymentName p <> [].
Proof. by destruct p. Qed.

Lemma param_spreadIf_same cond key value rest :
  param key (ReportsPage.spreadIf cond key value ++ rest)
  = if cond then Some value else param key rest.
Proof.
  unfold ReportsPage.spreadIf. destruct cond; simpl; [| done].
  by rewrite String.eqb_refl.
Qed.

Lemma param_spreadIf_other cond key key' value rest :
  key <> key' ->
  param key (ReportsPage.spreadIf cond key' value ++ rest) = param key rest.
Proof.
  intros Hne. unfold ReportsPage.spreadIf. destruct cond; simpl; [| done].
  apply String.eqb_neq in Hne. by rewrite Hne.
Qed.

Lemma Forall_spreadIf cond key value :
  (cond = true -> value <> []) ->
  Forall (fun kv : string * JsString => kv.2 <> []) (ReportsPage.spreadIf cond key value).
Proof.
  intros H. unfold ReportsPage.spreadIf. destruct cond; repeat constructor. by apply H.
Qed.

(** What the report view sends for a text predicate: nothing when the text
    is empty, the text otherwise. *)
Lemma sent_iff (s : JsString) (cond : bool) :
  (cond = true <-> s <> []) ->
  (if cond then Some s else None) = whenSet s.
Proof.
  unfold whenSet. intros H. destruct cond, s; try done.
  - exfalso. by apply (proj1 H).
  - exfalso. destruct H as [_ H]. by discriminate H.
Qed.

(** C8 (as the code has it).  In the report view every predicate is sent
    if and only if it is set, with its value: [type] when the filter is not
    ALL, [dateFrom], [dateTo], [minAmount] and [maxAmount] when not empty,
    [category] and [description] when not blank, trimmed; so no parameter
    of the report request has an empty value.  In the live-ledger view [type]
    and [paymentMethod] are sent if and only if their filter is not ALL, and
    [date] is always sent, with the selected date as it is. *)
Theorem params_omit_unset :
  (forall s : ReportsPage.State,
     let ps := ReportsPage.reportParams s in
     param "type" ps = typeName <$> chosen (ReportsPage.typeFilter s)
     /\ param "dateFrom" ps = whenSet (ReportsPage.dateFrom s)
     /\ param "dateTo" ps = whenSet (ReportsPage.dateTo s)
     /\ param "category" ps = whenSet (trim (ReportsPage.category_ s))
     /\ param "description" ps = whenSet (trim (ReportsPage.description_ s))
     /\ param "minAmount" ps = whenSet (ReportsPage.minAmount s)
     /\ param "maxAmount" ps = whenSet (ReportsPage.maxAmount s)
     /\ Forall (fun kv => kv.2 <> []) ps)
  /\ (forall s : CashPage.State,
        let ps := CashPage.dashboardParams s in
        param "date" ps = Some (CashPage.selectedDate s)
        /\ param "type" ps = typeName <$> chosen (CashPage.typeFilter s)
        /\ param "paymentMethod" ps = paymentName <$> chosen (CashPage.paymentFilter s)
        /\ Forall (fun kv => kv.1 = "date"%string \/ kv.2 <> []) ps).
Proof.
  split.
  - intros s ps. subst ps. unfold ReportsPage.reportParams.
    pose proof (sent_iff _ _ (truthy_nonempty (ReportsPage.dateFrom s))) as H1.
    pose proof (sent_iff _ _ (truthy_nonempty (ReportsPage.dateTo s))) as H2.
    pose proof (sent_iff _ _ (truthy_nonempty (trim (ReportsPage.category_ s)))) as H3.
    pose proof (sent_iff _ _ (truthy_nonempty (trim (ReportsPage.description_ s)))) as H4.
    pose proof (sent_iff _ _ (streq_nonempty (ReportsPage.minAmount s))) as H5.
    pose proof (sent_iff _ _ (streq_nonempty (ReportsPage.maxAmount s))) as H6.
    rewrite <- (app_nil_r (ReportsPage.spreadIf _ "maxAmount" _)).
    repeat split;
      try (destruct (ReportsPage.typeFilter s); simpl;
           repeat first [ rewrite param_spreadIf_same
                        | rewrite param_spreadIf_other by done ];
           simpl; congruence).
    clear H1 H2 H3 H4 H5 H6.
    repeat (apply Forall_app; split); try constructor;
      try (apply Forall_spreadIf; first [ apply truthy_nonempty | apply streq_nonempty ]).
    destruct (ReportsPage.typeFilter s); repeat constructor.
    apply typeName_nonempty.
  - intros s ps. subst ps. unfold CashPage.dashboardParams.
    destruct (CashPage.typeFilter s) as [| t], (CashPage.paymentFilter s) as [| p];
      simpl; (split; [done | split; [done | split; [done |]]]);
      repeat (apply Forall_cons; split); try apply Forall_nil; cbn [fst snd];
      first [ exact I
            | by left
            | right; apply typeName_nonempty
            | right; apply paymentName_nonempty ].
Qed.

(** C8, counterexample: with the date input of the live-ledger view
    cleared, the list request carries [date] with the empty string. *)
Lemma dashboard_sends_empty_date :
  ~ (forall s : CashPage.State,
       Forall (fun kv => kv.2 <> []) (CashPage.dashboardParams s)).
Proof.
  intros H. specialize (H (initialCash [])).
  apply Forall_inv in H. by apply H.
Qed.

End Queries.

(* ===================================================================== *)
(** * Properties of the report totals *)
(* ===================================================================== *)

Section Totals.
Import ReportsPage.

Lemma fold_totalsStep items : forall acc,
  fold_left totalsStep items acc
  = {| totalIn := fold_left Num.add (amountsOf IN items) (totalIn acc);
       totalOut := fold_left Num.add (amountsOf OUT items) (totalOut acc) |}.
Proof.
  unfold amountsOf.
  induction items as [| item items IH]; intros acc; simpl.
  - by destruct acc.
  - rewrite IH. unfold totalsStep. rewrite !filter_cons.
    destruct (type item) eqn:E; simpl;
      repeat case_decide; try congruence; reflexivity.
Qed.

(** C7 (as the code has it): the totals are one left-to-right fold of the
    result set, [totalIn] being the sum, in list order, of the amounts of the
    IN entries and [totalOut] that of the others, with
    [net = totalIn - totalOut]; they are the same for two orders of a result
    set that list the IN entries in the same order and the OUT entries in the
    same order. *)
Theorem totals_fold (items : list CashEntry) :
  totalIn (totals items) = fold_left Num.add (amountsOf IN items) Num.zero
  /\ totalOut (totals items) = fold_left Num.add (amountsOf OUT items) Num.zero
  /\ net items = Num.sub (totalIn (totals items)) (totalOut (totals items))
  /\ forall items',
       amountsOf IN items' = amountsOf IN items ->
       amountsOf OUT items' = amountsOf OUT items ->
       totals items' = totals items /\ net items' = net items.
Proof.
  unfold net, totals. rewrite fold_totalsStep. simpl.
  repeat split; try reflexivity.
  - rewrite fold_totalsStep. simpl. congruence.
  - rewrite !fold_totalsStep. simpl. congruence.
Qed.

(** C7, counterexample: three IN entries of 0.10, 0.20 and 0.30 add up to
    0.6000000000000001 in this order and to 0.6 in the reverse order. *)
Lemma totals_depend_on_order :
  ~ (forall items items' : list CashEntry,
       items ≡ₚ items' ->
       totalIn (totals items) = totalIn (totals items')
       /\ totalOut (totals items) = totalOut (totals items')
       /\ net items = net items').
Proof.
  intros H.
  specialize (H [entry IN 10; entry IN 20; entry IN 30]
                (reverse [entry IN 10; entry IN 20; entry IN 30])).
  destruct H as [H _]; [symmetry; apply reverse_Permutation |].
  vm_compute in H. discriminate H.
Qed.

End Totals.

(* ===================================================================== *)
(** * Properties of the session store *)
(* ===================================================================== *)

Section Session.
Import Auth.

(** C10 (as the code has it): reading the current user answers [null]
    without touching the storage when nothing is stored under the user key
    and when the empty string is; for every other stored value that is not
    JSON it answers [null] and removes the record, so that the next read
    finds nothing and answers [null] again. *)
Theorem getCurrentUser_heals (st : gmap string JsString) :
  (st !! USER_KEY = None -> getCurrentUser st = (JNull, st))
  /\ (st !! USER_KEY = Some (js "") -> getCurrentUser st = (JNull, st))
  /\ (forall raw : JsString,
        st !! USER_KEY = Some raw -> raw <> [] -> JSON.parse raw = None ->
        getCurrentUser st = (JNull, delete USER_KEY st)
        /\ delete USER_KEY st !! USER_KEY = None
        /\ getCurrentUser (delete USER_KEY st) = (JNull, delete USER_KEY st)).
Proof.
  unfold getCurrentUser. split; [| split].
  - intros H. by rewrite H.
  - intros H. by rewrite H.
  - intros raw Hraw Hne Hparse. rewrite Hraw, lookup_delete_eq.
    destruct raw as [| c raw]; [done |].
    cbn [truthy negb]. by rewrite Hparse.
Qed.

(** The corrupted record [{oops] is removed by the first read. *)
Lemma getCurrentUser_heals_witness :
  corrupted !! USER_KEY = Some (js "{oops")
  /\ JSON.parse (js "{oops") = None
  /\ getCurrentUser corrupted = (JNull, delete USER_KEY corrupted)
  /\ getCurrentUser (delete USER_KEY corrupted) = (JNull, delete USER_KEY corrupted).
Proof.
  assert (H1 : corrupted !! USER_KEY = Some (js "{oops")) by apply lookup_insert_eq.
  assert (H2 : JSON.parse (js "{oops") = None) by reflexivity.
  destruct (getCurrentUser_heals corrupted) as (_ & _ & H).
  destruct (H (js "{oops") H1 ltac:(discriminate) H2) as (H3 & _ & H4).
  exact (conj H1 (conj H2 (conj H3 H4))).
Defined.

(** C10, counterexample: the empty string is not JSON, and a read leaves
    it in the storage. *)
Lemma empty_record_is_kept :
  ~ (forall (st : gmap string JsString) (raw : JsString),
       st !! USER_KEY = Some raw -> JSON.parse raw = None ->
       getCurrentUser st = (JNull, delete USER_KEY st)).
Proof.
  intros H.
  specialize (H (<[USER_KEY := js ""]> ∅) (js "") (lookup_insert_eq _ _ _) eq_refl).
  unfold getCurrentUser in H. rewrite lookup_insert_eq in H.
  change (negb (truthy (js ""))) with true in H.
  apply (f_equal (fun r => r.2 !! USER_KEY)) in H. cbn [snd] in H.
  rewrite lookup_insert_eq, lookup_delete_eq in H. discriminate.
Qed.

End Session.

(* ===================================================================== *)
(** * Properties of the image resize *)
(* ===================================================================== *)

(** ** Rounding to binary64 *)

Section Resize.

Lemma digits2_pos_log2 p : Z.pos (digits2_pos p) = Z.log2 (Z.pos p) + 1.
Proof.
  induction p as [p IH | p IH |]; cbn [digits2_pos].
  - rewrite Pos2Z.inj_succ, IH, Pos2Z.inj_xI, Z.log2_succ_double by lia. lia.
  - rewrite Pos2Z.inj_succ, IH, Pos2Z.inj_xO, Z.log2_double by lia. lia.
  - reflexivity.
Qed.

Lemma Zdigits2_log2 m : 0 < m -> Zdigits2 m = Z.log2 m + 1.
Proof. destruct m as [| p | p]; try lia. intros _. apply digits2_pos_log2. Qed.

Lemma shr_m_shr_1 mrs : 0 <= shr_m mrs -> shr_m (shr_1 mrs) = shr_m mrs / 2.
Proof.
  destruct mrs as [m r s]. cbn [shr_m]. intros H. rewrite <- Z.div2_div.
  destruct m as [| [p | p |] | p]; try reflexivity; lia.
Qed.

Lemma pow2_xO p : 2 ^ Z.pos p~0 = 2 ^ Z.pos p * 2 ^ Z.pos p.
Proof. rewrite <- Z.pow_add_r by lia. f_equal. lia. Qed.

Lemma pow2_xI p : 2 ^ Z.pos p~1 = 2 * (2 ^ Z.pos p * 2 ^ Z.pos p).
Proof.
  rewrite <- Z.pow_add_r by lia. rewrite <- (Z.pow_1_r 2) at 2.
  rewrite <- Z.pow_add_r by lia. f_equal. lia.
Qed.

Lemma shr_m_iter p : forall mrs,
  0 <= shr_m mrs -> shr_m (SpecFloat.iter_pos shr_1 p mrs) = shr_m mrs / 2 ^ Z.pos p.
Proof.
  assert (Hnn : forall mrs, 0 <= shr_m mrs -> 0 <= shr_m (shr_1 mrs)).
  { intros mrs H. rewrite shr_m_shr_1 by done. apply Z.div_pos; lia. }
  assert (Hp : forall q, 0 < 2 ^ Z.pos q) by (intros q; apply Z.pow_pos_nonneg; lia).
  induction p as [p IH | p IH |]; intros mrs H; cbn [SpecFloat.iter_pos].
  - assert (H1 : 0 <= shr_m (SpecFloat.iter_pos shr_1 p (shr_1 mrs))).
    { rewrite IH by auto. apply Z.div_pos; auto. }
    rewrite IH, IH, shr_m_shr_1 by auto. specialize (Hp p).
    rewrite !Z.div_div by lia. by rewrite pow2_xI.
  - assert (H1 : 0 <= shr_m (SpecFloat.iter_pos shr_1 p mrs)).
    { rewrite IH by auto. apply Z.div_pos; auto. }
    rewrite IH, IH by auto. specialize (Hp p).
    rewrite Z.div_div by lia. by rewrite pow2_xO.
  - by apply shr_m_shr_1.
Qed.

Lemma shr_m_of_loc m l : shr_m (shr_record_of_loc m l) = m.
Proof. by destruct l as [| []]. Qed.

Lemma loc_of_loc m l : loc_of_shr_record (shr_record_of_loc m l) = l.
Proof. by destruct l as [| []]. Qed.

(** Shifting to 53 bits, for a mantissa of at least 53 bits above the
    subnormal range. *)
Lemma shr_fexp_normal m e l :
  0 < m -> 53 <= Z.log2 m + 1 -> -1074 <= Z.log2 m + 1 + e - 53 ->
  exists mrs,
    shr_fexp Num.prec Num.emax m e l = (mrs, e + (Z.log2 m + 1 - 53))
    /\ shr_m mrs = m / 2 ^ (Z.log2 m + 1 - 53)
    /\ (Z.log2 m + 1 = 53 -> mrs = shr_record_of_loc m l).
Proof.
  intros Hm Hd He. unfold shr_fexp. rewrite Zdigits2_log2 by done.
  unfold fexp, emin, Num.prec, Num.emax.
  replace (Z.max (Z.log2 m + 1 + e - 53) (3 - 1024 - 53) - e)
    with (Z.log2 m + 1 - 53) by lia.
  destruct (Z.log2 m + 1 - 53) as [| n | n] eqn:En; try lia; cbn [shr].
  - eexists. split; [by rewrite Z.add_0_r |]. split; [| done].
    by rewrite shr_m_of_loc, Z.div_1_r.
  - eexists. split; [done |]. split; [| lia].
    rewrite shr_m_iter by (rewrite shr_m_of_loc; lia). by rewrite shr_m_of_loc.
Qed.

Lemma round_nearest_even_bounds m l :
  m <= round_nearest_even m l <= m + 1.
Proof. destruct l as [| []]; cbn; try destruct (Z.even m); lia. Qed.

(** Rounding a positive mantissa of at least 53 bits to binary64, away
    from underflow and overflow: the result is a normal number, at most one
    unit in the last kept place above the value rounded. *)
Lemma binary_round_aux_normal s mx ex lx :
  0 < mx -> 53 <= Z.log2 mx + 1 ->
  -1074 <= Z.log2 mx + 1 + ex - 53 -> Z.log2 mx + 1 + ex <= 1023 ->
  exists m' e',
    binary_round_aux Num.prec Num.emax s mx ex lx = S754_finite s m' e'
    /\ 2 ^ 52 <= Z.pos m' < 2 ^ 53
    /\ ex + (Z.log2 mx + 1 - 53) <= e'
    /\ Z.pos m' * 2 ^ (e' - ex) <= mx + 2 ^ (Z.log2 mx + 1 - 53)
    /\ (Z.log2 mx + 1 = 53 -> lx = loc_Exact -> Z.pos m' = mx /\ e' = ex).
Proof.
  intros Hm Hd Hlo Hhi. set (n := Z.log2 mx + 1 - 53) in *.
  assert (Hn : 0 <= n) by lia.
  pose proof (Z.log2_spec mx Hm) as [Hl1 Hl2].
  assert (Hpow : 2 ^ Z.log2 mx = 2 ^ 52 * 2 ^ n).
  { rewrite <- Z.pow_add_r by lia. f_equal. lia. }
  assert (Hpn : 0 < 2 ^ n) by (apply Z.pow_pos_nonneg; lia).
  unfold binary_round_aux.
  destruct (shr_fexp_normal mx ex lx Hm Hd Hlo) as (mrs1 & -> & Hm1 & Hex1).
  fold n in Hm1, Hex1 |- *.
  set (m1 := shr_m mrs1) in *.
  assert (H1 : 2 ^ 52 <= m1 < 2 ^ 53).
  { rewrite Hm1. split.
    - apply Z.div_le_lower_bound; lia.
    - apply Z.div_lt_upper_bound; [lia |].
      replace (Z.succ (Z.log2 mx)) with (1 + Z.log2 mx) in Hl2 by lia.
      rewrite Z.pow_add_r, Hpow in Hl2 by lia. lia. }
  pose proof (round_nearest_even_bounds m1 (loc_of_shr_record mrs1)) as Hr.
  set (m2 := round_nearest_even m1 (loc_of_shr_record mrs1)) in *.
  assert (Hm2 : 0 < m2) by lia.
  assert (Hmul : m1 * 2 ^ n <= mx).
  { rewrite Hm1, Z.mul_comm. apply Z.mul_div_le. lia. }
  destruct (Z.eq_dec m2 (2 ^ 53)) as [Heq | Hne].
  - assert (Hlog : Z.log2 m2 = 53) by (rewrite Heq; reflexivity).
    destruct (shr_fexp_normal m2 (ex + n) loc_Exact Hm2) as (mrs2 & -> & Hm3 & _);
      [lia | lia |].
    rewrite Hlog in Hm3 |- *. rewrite Heq in Hm3. change (2 ^ 53 / 2 ^ (53 + 1 - 53)) with (2 ^ 52) in Hm3.
    rewrite Hm3. change (2 ^ 52) with (Z.pos (Z.to_pos (2 ^ 52))).
    replace (ex + n + (53 + 1 - 53) <=? Num.emax - Num.prec) with true
      by (symmetry; apply Z.leb_le; unfold Num.emax, Num.prec; lia).
    eexists _, _. split; [reflexivity |].
    split; [done |]. split; [lia |]. split.
    + replace (ex + n + (53 + 1 - 53) - ex) with (1 + n) by lia.
      rewrite Z.pow_add_r by lia.
      change (Z.pos (Z.to_pos (2 ^ 52))) with (2 ^ 52). change (2 ^ 1) with 2.
      assert ((2 ^ 53 - 1) * 2 ^ n <= m1 * 2 ^ n) by (apply Z.mul_le_mono_nonneg_r; lia).
      lia.
    + intros Hd53 Hex. exfalso. unfold m2 in Heq. rewrite (Hex1 Hd53), loc_of_loc, Hex in Heq.
      cbn in Heq. unfold m1 in H1. rewrite (Hex1 Hd53), shr_m_of_loc in H1. lia.
  - assert (Hlog : Z.log2 m2 = 52) by (apply Z.log2_unique; [lia |]; change (Z.succ 52) with 53; lia).
    destruct (shr_fexp_normal m2 (ex + n) loc_Exact Hm2) as (mrs2 & -> & Hm3 & _);
      [lia | lia |].
    rewrite Hlog in Hm3 |- *. change (2 ^ (52 + 1 - 53)) with 1 in Hm3.
    rewrite Z.div_1_r in Hm3. rewrite Hm3.
    destruct m2 as [| p2 | p2] eqn:Ep; try lia.
    replace (ex + n + (52 + 1 - 53) <=? Num.emax - Num.prec) with true
      by (symmetry; apply Z.leb_le; unfold Num.emax, Num.prec; lia).
    eexists _, _. split; [reflexivity |].
    split; [lia |]. split; [lia |]. split.
    + replace (ex + n + (52 + 1 - 53) - ex) with n by lia. nia.
    + intros Hd53 Hex. assert (n = 0) as Hn0 by lia. split; [| lia].
      rewrite <- Ep. unfold m2, m1. rewrite (Hex1 Hd53), loc_of_loc, shr_m_of_loc, Hex. reflexivity.
Qed.


(** ** Values as rationals *)

Lemma pow2Q_pos e : (0 < 2 ^ e)%Q.
Proof. by apply Qpower_0_lt. Qed.

Lemma pow2Q_add a b : (2 ^ (a + b) == 2 ^ a * 2 ^ b)%Q.
Proof. by apply Qpower_plus. Qed.

Lemma pow2Q_inject n : 0 <= n -> (2 ^ n == inject_Z (2 ^ n))%Q.
Proof. intros H. by rewrite Zpower_Qpower. Qed.

(** From an inequality of integers at a common exponent to one of
    values. *)
Lemma scale_le (a b e1 e0 : Z) :
  e0 <= e1 -> a * 2 ^ (e1 - e0) <= b ->
  (inject_Z a * 2 ^ e1 <= inject_Z b * 2 ^ e0)%Q.
Proof.
  intros He H. replace e1 with ((e1 - e0) + e0) at 1 by lia.
  rewrite pow2Q_add, pow2Q_inject by lia.
  rewrite Qmult_assoc, <- inject_Z_mult.
  apply Qmult_le_compat_r; [by rewrite <- Zle_Qle | apply Qlt_le_weak, pow2Q_pos].
Qed.

Lemma binary_round_aux_value s mx ex lx :
  0 < mx -> 53 <= Z.log2 mx + 1 ->
  -1074 <= Z.log2 mx + 1 + ex - 53 -> Z.log2 mx + 1 + ex <= 1023 ->
  exists m' e',
    binary_round_aux Num.prec Num.emax s mx ex lx = S754_finite s m' e'
    /\ 2 ^ 52 <= Z.pos m' < 2 ^ 53
    /\ ex <= e'
    /\ (F2Q m' e' <= inject_Z mx * 2 ^ ex * (1 + eps))%Q.
Proof.
  intros Hm Hd Hlo Hhi.
  destruct (binary_round_aux_normal s mx ex lx Hm Hd Hlo Hhi)
    as (m' & e' & Heq & Hcan & He & Hle & _).
  exists m', e'. split; [done |]. split; [done |]. split; [lia |].
  pose proof (Z.log2_spec mx Hm) as [Hl1 _].
  set (n := Z.log2 mx + 1 - 53) in *.
  assert (Hpow : 2 ^ Z.log2 mx = 2 ^ 52 * 2 ^ n).
  { rewrite <- Z.pow_add_r by lia. f_equal. lia. }
  assert (Hpn : 0 < 2 ^ n) by (apply Z.pow_pos_nonneg; lia).
  unfold F2Q. eapply Qle_trans; [apply (scale_le _ (mx + 2 ^ n) e' ex); lia |].
  assert (H : (inject_Z (2 ^ n) <= inject_Z mx * eps)%Q).
  { unfold eps. change (1 # 4503599627370496)%Q with (/ inject_Z (2 ^ 52))%Q.
    apply Qle_shift_div_l; [reflexivity |].
    rewrite <- inject_Z_mult, <- Zle_Qle. lia. }
  rewrite inject_Z_plus. pose proof (pow2Q_pos ex) as HE.
  set (E := (2 ^ ex)%Q) in *. set (A := inject_Z mx) in *.
  set (B := inject_Z (2 ^ n)) in *. clearbody E A B. unfold eps in *. nra.
Qed.

Lemma F2Q_pos m e : (0 < F2Q m e)%Q.
Proof.
  unfold F2Q. apply Qmult_lt_0_compat; [| apply pow2Q_pos].
  change 0%Q with (inject_Z 0). rewrite <- Zlt_Qlt. lia.
Qed.

Lemma scale_le_r (a b e1 e0 : Z) :
  e0 <= e1 -> a <= b * 2 ^ (e1 - e0) ->
  (inject_Z a * 2 ^ e0 <= inject_Z b * 2 ^ e1)%Q.
Proof.
  intros He H. replace e1 with ((e1 - e0) + e0) at 1 by lia.
  rewrite pow2Q_add, (pow2Q_inject (e1 - e0)) by lia.
  rewrite Qmult_assoc, <- inject_Z_mult.
  apply Qmult_le_compat_r; [by rewrite <- Zle_Qle | apply Qlt_le_weak, pow2Q_pos].
Qed.

Lemma iter_xO p d : Z.pos (Pos.iter xO p d) = Z.pos p * 2 ^ Z.pos d.
Proof.
  induction d as [| d IH] using Pos.peano_ind.
  - cbn. lia.
  - rewrite Pos.iter_succ, Pos2Z.inj_xO, IH, Pos2Z.inj_succ, Z.pow_succ_r by lia. lia.
Qed.

Lemma log2_normal m : 2 ^ 52 <= m < 2 ^ 53 -> Z.log2 m = 52.
Proof. intros H. apply Z.log2_unique; [lia |]. exact H. Qed.

(** An integer below 2^53 is a number, exactly. *)
Lemma ofZ_normal z :
  0 < z < 2 ^ 53 ->
  exists m e,
    Num.ofZ z = S754_finite false m e
    /\ 2 ^ 52 <= Z.pos m < 2 ^ 53
    /\ e = Z.log2 z - 52
    /\ Z.pos m = z * 2 ^ (52 - Z.log2 z).
Proof.
  intros [Hz1 Hz2]. destruct z as [| p | p]; try lia.
  pose proof (Z.log2_spec (Z.pos p) Hz1) as [Hl1 Hl2].
  assert (Hl : 0 <= Z.log2 (Z.pos p) <= 52).
  { split; [apply Z.log2_nonneg |]. apply Z.lt_succ_r, Z.log2_lt_pow2; lia. }
  unfold Num.ofZ, binary_normalize, binary_round, shl_align.
  rewrite digits2_pos_log2. unfold fexp, emin, Num.prec, Num.emax.
  replace (Z.max (Z.log2 (Z.pos p) + 1 + 0 - 53) (3 - 1024 - 53) - 0)
    with (Z.log2 (Z.pos p) - 52) by lia.
  replace (Z.max (Z.log2 (Z.pos p) + 1 + 0 - 53) (3 - 1024 - 53))
    with (Z.log2 (Z.pos p) - 52) by lia.
  destruct (Z.log2 (Z.pos p) - 52) as [| d | d] eqn:Ed; try lia.
  - assert (Hlog : Z.log2 (Z.pos p) = 52) by lia.
    destruct (binary_round_aux_normal false (Z.pos p) 0 loc_Exact) as
      (m' & e' & Heq & Hcan & _ & _ & Hex); try lia.
    destruct Hex as [Hm He]; [lia | done |].
    exists m', e'. fold Num.prec Num.emax. rewrite Heq.
    split; [done |]. split; [done |]. split; [lia |].
    rewrite Hlog. change (2 ^ (52 - 52)) with 1. lia.
  - assert (Hd : Z.pos d = 52 - Z.log2 (Z.pos p)) by lia.
    assert (Hmz : Z.pos (Pos.iter xO p d) = Z.pos p * 2 ^ (52 - Z.log2 (Z.pos p))).
    { by rewrite iter_xO, Hd. }
    assert (Hpow : 2 ^ 52 = 2 ^ Z.log2 (Z.pos p) * 2 ^ (52 - Z.log2 (Z.pos p))).
    { rewrite <- Z.pow_add_r by lia. f_equal. lia. }
    assert (Hpd : 0 < 2 ^ (52 - Z.log2 (Z.pos p))) by (apply Z.pow_pos_nonneg; lia).
    assert (Hcanz : 2 ^ 52 <= Z.pos (Pos.iter xO p d) < 2 ^ 53).
    { rewrite Hmz. replace (Z.succ (Z.log2 (Z.pos p))) with (1 + Z.log2 (Z.pos p)) in Hl2 by lia.
      rewrite Z.pow_add_r in Hl2 by lia. change (2 ^ 53) with (2 * 2 ^ 52). nia. }
    pose proof (log2_normal _ Hcanz) as Hlog.
    destruct (binary_round_aux_normal false (Z.pos (Pos.iter xO p d)) (Z.neg d) loc_Exact) as
      (m' & e' & Heq & Hcan & _ & _ & Hex); try lia.
    destruct Hex as [Hm He]; [lia | done |].
    exists m', e'. fold Num.prec Num.emax. rewrite Heq.
    split; [done |]. split; [done |]. split; [lia |]. lia.
Qed.

Lemma ofZ_value z m e :
  0 < z < 2 ^ 53 -> Num.ofZ z = S754_finite false m e ->
  2 ^ 52 <= Z.pos m < 2 ^ 53 /\ -52 <= e <= 0 /\ (F2Q m e == inject_Z z)%Q.
Proof.
  intros Hz Heq. destruct (ofZ_normal z Hz) as (m' & e' & Heq' & Hcan & He & Hm).
  rewrite Heq in Heq'. injection Heq' as -> ->.
  assert (Hl : 0 <= Z.log2 z <= 52).
  { split; [apply Z.log2_nonneg |]. apply Z.lt_succ_r, Z.log2_lt_pow2; lia. }
  split; [done |]. split; [lia |].
  unfold F2Q. rewrite Hm, inject_Z_mult, <- pow2Q_inject by lia.
  rewrite <- Qmult_assoc, <- pow2Q_add, He.
  replace (52 - Z.log2 z + (Z.log2 z - 52)) with 0 by lia. cbn. ring.
Qed.

(** The product of two normal numbers, away from underflow and overflow. *)
Lemma mul_normal m1 e1 m2 e2 :
  2 ^ 52 <= Z.pos m1 < 2 ^ 53 -> 2 ^ 52 <= Z.pos m2 < 2 ^ 53 ->
  -900 <= e1 + e2 <= 800 ->
  exists m e,
    Num.mul (S754_finite false m1 e1) (S754_finite false m2 e2) = S754_finite false m e
    /\ 2 ^ 52 <= Z.pos m < 2 ^ 53
    /\ (F2Q m e <= F2Q m1 e1 * F2Q m2 e2 * (1 + eps))%Q.
Proof.
  intros H1 H2 He. unfold Num.mul, SFmul. cbn [xorb].
  assert (Hp : 2 ^ 104 <= Z.pos (m1 * m2) < 2 ^ 106).
  { rewrite Pos2Z.inj_mul. change (2 ^ 104) with (2 ^ 52 * 2 ^ 52).
    change (2 ^ 106) with (2 ^ 53 * 2 ^ 53). nia. }
  assert (Hl : 104 <= Z.log2 (Z.pos (m1 * m2)) < 106).
  { split; [apply Z.log2_le_pow2; lia | apply Z.log2_lt_pow2; lia]. }
  destruct (binary_round_aux_value false (Z.pos (m1 * m2)) (e1 + e2) loc_Exact)
    as (m & e & Heq & Hcan & _ & Hv); try lia.
  exists m, e. split; [done |]. split; [done |].
  eapply Qle_trans; [exact Hv |]. apply Qle_lteq. right.
  unfold F2Q. rewrite Pos2Z.inj_mul, inject_Z_mult, pow2Q_add. ring.
Qed.

(** The quotient of two normal numbers, away from underflow and
    overflow. *)
Lemma div_normal m1 e1 m2 e2 :
  2 ^ 52 <= Z.pos m1 < 2 ^ 53 -> 2 ^ 52 <= Z.pos m2 < 2 ^ 53 ->
  -900 <= e1 - e2 <= 900 ->
  exists m e,
    Num.div (S754_finite false m1 e1) (S754_finite false m2 e2) = S754_finite false m e
    /\ 2 ^ 52 <= Z.pos m < 2 ^ 53
    /\ e1 - e2 - 53 <= e
    /\ (F2Q m e * F2Q m2 e2 <= F2Q m1 e1 * (1 + eps))%Q.
Proof.
  intros H1 H2 He. unfold Num.div, SFdiv, SFdiv_core_binary. cbn [xorb Zdigits2].
  rewrite !digits2_pos_log2, (log2_normal _ H1), (log2_normal _ H2).
  unfold fexp, emin, Num.prec, Num.emax.
  replace (Z.min (Z.max (52 + 1 + e1 - (52 + 1 + e2) - 53) (3 - 1024 - 53)) (e1 - e2))
    with (e1 - e2 - 53) by lia.
  replace (e1 - e2 - (e1 - e2 - 53)) with 53 by lia.
  rewrite Z.shiftl_mul_pow2 by lia.
  pose proof (Z_div_mod (Z.pos m1 * 2 ^ 53) (Z.pos m2) ltac:(lia)) as Hdm.
  destruct (Z.div_eucl (Z.pos m1 * 2 ^ 53) (Z.pos m2)) as [q r].
  destruct Hdm as [Hdm Hr].
  assert (Hq : 2 ^ 52 <= q < 2 ^ 54).
  { change (2 ^ 54) with (2 * 2 ^ 53). change (2 ^ 53) with (2 * 2 ^ 52) in *. nia. }
  assert (Hl : 52 <= Z.log2 q < 54).
  { split; [apply Z.log2_le_pow2; lia | apply Z.log2_lt_pow2; lia]. }
  destruct (binary_round_aux_value false q (e1 - e2 - 53) (new_location (Z.pos m2) r))
    as (m & e & Heq & Hcan & Hge & Hv); try lia.
  fold Num.prec Num.emax. exists m, e. split; [exact Heq |]. split; [done |].
  split; [done |].
  assert (Hq2 : (inject_Z q * 2 ^ (e1 - e2 - 53) * F2Q m2 e2 <= F2Q m1 e1)%Q).
  { unfold F2Q.
    assert (Hx : (inject_Z q * 2 ^ (e1 - e2 - 53) * (inject_Z (Z.pos m2) * 2 ^ e2)
                  == inject_Z (q * Z.pos m2) * 2 ^ (e1 - 53))%Q).
    { rewrite inject_Z_mult. replace (e1 - 53) with ((e1 - e2 - 53) + e2) by lia.
      rewrite pow2Q_add. ring. }
    rewrite Hx. apply scale_le_r; [lia |].
    replace (e1 - (e1 - 53)) with 53 by lia. lia. }
  pose proof (F2Q_pos m2 e2) as Hp2. pose proof (F2Q_pos m1 e1) as Hp1.
  set (A := F2Q m e) in *. set (B := F2Q m2 e2) in *. set (C := F2Q m1 e1) in *.
  set (D := (inject_Z q * 2 ^ (e1 - e2 - 53))%Q) in *.
  clearbody A B C D. unfold eps in *. nra.
Qed.

Lemma ofZ_1 : Num.ofZ 1 = S754_finite false 4503599627370496 (-52).
Proof. reflexivity. Qed.

(** A normal number below one is [<] the number one. *)
Lemma ltb_one m e :
  2 ^ 52 <= Z.pos m < 2 ^ 53 -> (F2Q m e < 1)%Q ->
  SFltb (S754_finite false m e) (Num.ofZ 1) = true.
Proof.
  intros Hcan Hlt. rewrite ofZ_1. unfold SFltb, SFcompare.
  destruct (Z.compare_spec e (-52)) as [He | He | He]; [| done |]; exfalso.
  - subst e. unfold F2Q in Hlt.
    assert (H : (inject_Z (2 ^ 52) * 2 ^ (-52) <= inject_Z (Z.pos m) * 2 ^ (-52))%Q).
    { apply Qmult_le_compat_r; [rewrite <- Zle_Qle; lia | done]. }
    change (inject_Z (2 ^ 52) * 2 ^ (-52))%Q with (4503599627370496 # 4503599627370496)%Q in H.
    assert ((4503599627370496 # 4503599627370496) == 1)%Q by reflexivity. lra.
  - unfold F2Q in Hlt.
    assert (H : (inject_Z (2 ^ 52) * 2 ^ (-52) <= inject_Z (Z.pos m) * 2 ^ e)%Q).
    { apply scale_le_r; [lia |].
      assert (1 <= 2 ^ (e - -52)) by (apply (Z.pow_le_mono_r 2 0); lia). nia. }
    change (inject_Z (2 ^ 52) * 2 ^ (-52))%Q with (4503599627370496 # 4503599627370496)%Q in H.
    assert ((4503599627370496 # 4503599627370496) == 1)%Q by reflexivity. lra.
Qed.

(** [floor(x + 1/2)] is at most [x + 1/2], and not negative for a
    positive [x]. *)
Lemma roundHalfUp_bound m e :
  0 <= JsMath.roundHalfUp false m e
  /\ (inject_Z (JsMath.roundHalfUp false m e) <= F2Q m e + (1 # 2))%Q.
Proof.
  unfold JsMath.roundHalfUp, cond_Zopp, F2Q.
  destruct (Z.leb_spec 0 e) as [He | He].
  - assert (0 < 2 ^ e) by (apply Z.pow_pos_nonneg; lia). split; [lia |].
    rewrite inject_Z_mult, <- pow2Q_inject by lia.
    pose proof (pow2Q_pos e). set (A := (inject_Z (Z.pos m) * 2 ^ e)%Q). lra.
  - assert (Hk : 0 < 2 ^ (- e)) by (apply Z.pow_pos_nonneg; lia).
    assert (Hk1 : 2 ^ (- e + 1) = 2 * 2 ^ (- e)).
    { rewrite Z.pow_add_r by lia. lia. }
    split; [apply Z.div_pos; lia |].
    pose proof (Z.mul_div_le (2 * Z.pos m + 2 ^ (- e)) (2 ^ (- e + 1)) ltac:(lia)) as Hd.
    set (r := (2 * Z.pos m + 2 ^ (- e)) / 2 ^ (- e + 1)) in *.
    rewrite Hk1 in Hd.
    assert (HdQ : (inject_Z (2 * 2 ^ (- e) * r) <= inject_Z (2 * Z.pos m + 2 ^ (- e)))%Q)
      by (rewrite <- Zle_Qle; lia).
    rewrite !inject_Z_plus, !inject_Z_mult in HdQ.
    rewrite <- (pow2Q_inject (- e)) in HdQ by lia.
    assert (Hone : (2 ^ e * 2 ^ (- e) == 1)%Q).
    { rewrite <- pow2Q_add. replace (e + - e) with 0 by lia. reflexivity. }
    pose proof (pow2Q_pos e) as HE. pose proof (pow2Q_pos (- e)) as HP.
    set (E := (2 ^ e)%Q) in *. set (P := (2 ^ (- e))%Q) in *.
    set (R := inject_Z r) in *. set (M := inject_Z (Z.pos m)) in *.
    change (inject_Z 2) with 2%Q in HdQ.
    clearbody E P R M.
    assert (H1 : (R * P <= M + P * (1 # 2))%Q) by lra.
    assert (H2 : (R * P * E <= (M + P * (1 # 2)) * E)%Q)
      by (apply Qmult_le_compat_r; lra).
    assert (H3 : (R * P * E == R)%Q).
    { rewrite <- Qmult_assoc, (Qmult_comm P E), Hone. ring. }
    assert (H4 : ((M + P * (1 # 2)) * E == M * E + (1 # 2))%Q).
    { rewrite Qmult_plus_distr_l, <- Qmult_assoc, (Qmult_comm (1 # 2) E), Qmult_assoc,
        (Qmult_comm P E), Hone. ring. }
    rewrite H3, H4 in H2. exact H2.
Qed.

(** [Math.max] of two positive integers below 2^53. *)
Lemma max_ofZ w h :
  0 < w < 2 ^ 53 -> 0 < h < 2 ^ 53 ->
  JsMath.max (Num.ofZ w) (Num.ofZ h) = Num.ofZ (Z.max w h).
Proof.
  intros Hw Hh.
  destruct (ofZ_normal w Hw) as (mw & ew & Ew & Hcw & Hew & Hmw).
  destruct (ofZ_normal h Hh) as (mh & eh & Eh & Hch & Heh & Hmh).
  assert (Hlw : 0 <= Z.log2 w <= 52).
  { split; [apply Z.log2_nonneg |]. apply Z.lt_succ_r, Z.log2_lt_pow2; lia. }
  assert (Hlh : 0 <= Z.log2 h <= 52).
  { split; [apply Z.log2_nonneg |]. apply Z.lt_succ_r, Z.log2_lt_pow2; lia. }
  assert (Hlt : SFltb (Num.ofZ w) (Num.ofZ h) = (w <? h)).
  { rewrite Ew, Eh. unfold SFltb, SFcompare.
    destruct (Z.compare_spec ew eh) as [He | He | He].
    - assert (Z.log2 w = Z.log2 h) as Hl by lia.
      rewrite Pos.compare_cont_spec. cbn [Pos.switch_Eq].
      rewrite Pos2Z.inj_compare, Hmw, Hmh, Hl.
      assert (0 < 2 ^ (52 - Z.log2 h)) by (apply Z.pow_pos_nonneg; lia).
      rewrite <- Zmult_compare_compat_r by lia. unfold Z.ltb.
      by destruct (w ?= h).
    - assert (w < h) by (apply Z.log2_lt_cancel; lia).
      symmetry. by apply Z.ltb_lt.
    - assert (h < w) by (apply Z.log2_lt_cancel; lia).
      symmetry. apply Z.ltb_ge. lia. }
  unfold JsMath.max. rewrite Hlt. rewrite Ew, Eh. cbn [JsMath.isNaN orb].
  rewrite <- Ew, <- Eh.
  destruct (Z.ltb_spec w h); f_equal; lia.
Qed.

(** ** The resize arithmetic *)

Lemma checked (f : Z -> bool) (lo n x : Z) :
  forallb f (seqZ lo n) = true -> lo <= x < lo + n -> f x = true.
Proof.
  intros Hall Hx. rewrite forallb_forall in Hall. apply Hall.
  apply list_elem_of_In, elem_of_seqZ. lia.
Qed.

Lemma scale_small M :
  1 <= M <= 1600 ->
  JsMath.min (Num.ofZ 1) (Num.div CashPage.maxDimension (Num.ofZ M)) = Num.ofZ 1.
Proof.
  intros HM. assert (Hall : forallb scaleIsOne (seqZ 1 1600) = true) by (vm_compute; reflexivity).
  apply (checked _ _ _ M) in Hall; [| lia]. by apply bool_decide_eq_true in Hall.
Qed.

Lemma side_kept w :
  1 <= w <= 1600 ->
  JsMath.max (Num.ofZ 1) (JsMath.round (Num.mul (Num.ofZ w) (Num.ofZ 1))) = Num.ofZ w.
Proof.
  intros Hw. assert (Hall : forallb sideIsKept (seqZ 1 1600) = true) by (vm_compute; reflexivity).
  apply (checked _ _ _ w) in Hall; [| lia]. by apply bool_decide_eq_true in Hall.
Qed.

Lemma max_with_one r :
  0 <= r <= 1600 ->
  JsMath.max (Num.ofZ 1) (JsMath.ofRounded false r) = Num.ofZ (Z.max 1 r).
Proof.
  intros Hr. assert (Hall : forallb maxWithOne (seqZ 0 1601) = true) by (vm_compute; reflexivity).
  apply (checked _ _ _ r) in Hall; [| lia]. by apply bool_decide_eq_true in Hall.
Qed.

Lemma ofZ_1600 : CashPage.maxDimension = S754_finite false 7036874417766400 (-42).
Proof. reflexivity. Qed.

(** The scale of an image whose larger side [M] exceeds 1600: a normal
    number [s] below one with [s * M <= 1600 * (1 + eps)]. *)
Lemma scale_large M :
  1600 < M < 2 ^ 53 ->
  exists m e,
    JsMath.min (Num.ofZ 1) (Num.div CashPage.maxDimension (Num.ofZ M))
    = S754_finite false m e
    /\ 2 ^ 52 <= Z.pos m < 2 ^ 53
    /\ -200 <= e < -52
    /\ (F2Q m e * inject_Z M <= 1600 * (1 + eps))%Q.
Proof.
  intros HM.
  destruct (ofZ_normal M ltac:(lia)) as (mM & eM & EM & HcM & _ & _).
  destruct (ofZ_value M mM eM ltac:(lia) EM) as (_ & HeM & HvM).
  assert (H16 : (F2Q 7036874417766400 (-42) == 1600)%Q) by reflexivity.
  rewrite ofZ_1600, EM.
  destruct (div_normal 7036874417766400 (-42) mM eM) as (m & e & Heq & Hcan & Hge & Hv);
    [lia | done | lia |].
  rewrite Heq. rewrite HvM, H16 in Hv.
  assert (HMq : (1601 <= inject_Z M)%Q).
  { change 1601%Q with (inject_Z 1601). rewrite <- Zle_Qle. lia. }
  pose proof (F2Q_pos m e) as Hpos.
  assert (Hlt : (F2Q m e < 1)%Q).
  { set (A := F2Q m e) in *. set (B := inject_Z M) in *. clearbody A B.
    unfold eps in *. nra. }
  pose proof (ltb_one m e Hcan Hlt) as Hltb.
  assert (He : e < -52).
  { rewrite ofZ_1 in Hltb. unfold SFltb, SFcompare in Hltb.
    destruct (Z.compare_spec e (-52)) as [He | He | He]; [| done | done].
    subst e. rewrite Pos.compare_cont_spec in Hltb. cbn [Pos.switch_Eq] in Hltb.
    destruct (Pos.compare_spec m 4503599627370496) as [Hc | Hc | Hc]; try done.
    apply Pos2Z.pos_lt_pos in Hc. clear -Hc Hcan. lia. }
  exists m, e. split.
  - unfold JsMath.min. rewrite ofZ_1. cbn [JsMath.isNaN orb].
    rewrite <- ofZ_1. by rewrite Hltb.
  - split; [done |]. split; [lia |]. exact Hv.
Qed.

(** A side [x] of such an image, scaled and rounded. *)
Lemma side_scaled x M m e :
  1 <= x <= M -> M < 2 ^ 53 ->
  2 ^ 52 <= Z.pos m < 2 ^ 53 -> -200 <= e < -52 ->
  (F2Q m e * inject_Z M <= 1600 * (1 + eps))%Q ->
  exists out,
    JsMath.max (Num.ofZ 1)
      (JsMath.round (Num.mul (Num.ofZ x) (S754_finite false m e)))
    = Num.ofZ out
    /\ 1 <= out <= 1600.
Proof.
  intros Hx HM Hcan He Hs.
  destruct (ofZ_normal x ltac:(lia)) as (mx & ex & Ex & Hcx & _ & _).
  destruct (ofZ_value x mx ex ltac:(lia) Ex) as (_ & Hex & Hvx).
  rewrite Ex.
  destruct (mul_normal mx ex m e) as (mp & ep & Heq & Hcp & Hv); [done | done | lia |].
  rewrite Heq. cbn [JsMath.round].
  destruct (roundHalfUp_bound mp ep) as [Hr0 Hr].
  set (r := JsMath.roundHalfUp false mp ep) in *.
  assert (Hr1 : r <= 1600).
  { apply Z.lt_succ_r. rewrite Zlt_Qlt. change (inject_Z (Z.succ 1600)) with 1601%Q.
    rewrite Hvx in Hv.
    assert (HxM : (inject_Z x <= inject_Z M)%Q) by (rewrite <- Zle_Qle; lia).
    assert (Hx0 : (1 <= inject_Z x)%Q).
    { change 1%Q with (inject_Z 1). rewrite <- Zle_Qle. lia. }
    pose proof (F2Q_pos m e) as Hpos.
    set (R := inject_Z r) in *. set (P := F2Q mp ep) in *. set (S := F2Q m e) in *.
    set (X := inject_Z x) in *. set (MM := inject_Z M) in *.
    clearbody R P S X MM. unfold eps in *.
    assert (H1 : (X * S <= MM * S)%Q) by nra.
    assert (H2 : (X * S <= 1600 * (1 + (1 # 4503599627370496)))%Q) by lra.
    assert (H3 : (P <= 1600 * (1 + (1 # 4503599627370496)) * (1 + (1 # 4503599627370496)))%Q)
      by nra.
    lra. }
  exists (Z.max 1 r). split; [apply max_with_one; lia | lia].
Qed.

(** The sides [optimizedSize] computes: the formula of the source, and its
    bounds. *)
Lemma optimizedSize_sides (width height : Z) :
  1 <= width < 2 ^ 53 -> 1 <= height < 2 ^ 53 ->
  CashPage.scale width height
  = JsMath.min (Num.ofZ 1)
      (Num.div CashPage.maxDimension (JsMath.max (Num.ofZ width) (Num.ofZ height)))
  /\ CashPage.optimizedSize width height
     = (JsMath.max (Num.ofZ 1)
          (JsMath.round (Num.mul (Num.ofZ width) (CashPage.scale width height))),
        JsMath.max (Num.ofZ 1)
          (JsMath.round (Num.mul (Num.ofZ height) (CashPage.scale width height))))
  /\ exists outW outH : Z,
       CashPage.optimizedSize width height = (Num.ofZ outW, Num.ofZ outH)
       /\ 1 <= outW /\ 1 <= outH
       /\ Z.max outW outH <= 1600
       /\ (Z.max width height <= 1600 -> outW = width /\ outH = height).
Proof.
  intros Hw Hh. split; [reflexivity |]. split; [reflexivity |].
  unfold CashPage.optimizedSize, CashPage.scale.
  rewrite max_ofZ by lia.
  destruct (Z_le_gt_dec (Z.max width height) 1600) as [Hsmall | Hlarge].
  - rewrite scale_small by lia. exists width, height.
    rewrite !side_kept by lia. repeat split; lia.
  - destruct (scale_large (Z.max width height)) as (m & e & -> & Hcan & He & Hs); [lia |].
    destruct (side_scaled width (Z.max width height) m e) as (outW & -> & HW); try done; try lia.
    destruct (side_scaled height (Z.max width height) m e) as (outH & -> & HH); try done; try lia.
    exists outW, outH. repeat split; lia.
Qed.

(** C5: for an image of [width] by [height] pixels, both at least one,
    the resize step computes [scale = Math.min(1, 1600 / Math.max(width,
    height))] and the sides [Math.max(1, Math.round(side * scale))] in
    binary64 arithmetic, and these are the sides of its output: when the
    file is read, the image decoded and a drawing context obtained,
    [fileToOptimizedDataUrl] draws the image at that width and height and
    returns the encoding of the canvas of that width and height.  Both sides
    are integers between 1 and 1600, and an image whose larger side is at
    most 1600 keeps its dimensions: nothing is ever scaled up.  (A side is
    below 2^53, the integers a number holds exactly; the sides of a decoded
    image are far below.) *)
Theorem optimizedSize_bounded env (file : File) (b : Browser) (original : JsString)
    (width height : Z) :
  readAsDataURL env file = Some original ->
  loadImage env original = Some (width, height) ->
  context2d env = true ->
  1 <= width < 2 ^ 53 -> 1 <= height < 2 ^ 53 ->
  let scale :=
    JsMath.min (Num.ofZ 1)
      (Num.div (Num.ofZ 1600) (JsMath.max (Num.ofZ width) (Num.ofZ height))) in
  exists outW outH : Z,
    Num.ofZ outW = JsMath.max (Num.ofZ 1) (JsMath.round (Num.mul (Num.ofZ width) scale))
    /\ Num.ofZ outH = JsMath.max (Num.ofZ 1) (JsMath.round (Num.mul (Num.ofZ height) scale))
    /\ CashPage.fileToOptimizedDataUrl env file b
       = (inr (toDataURL env original (Num.ofZ outW) (Num.ofZ outH)),
          perform (DrawImage (Num.ofZ outW) (Num.ofZ outH))
            (perform (LoadImage original) (perform (ReadFile (file_name file)) b)))
    /\ 1 <= outW /\ 1 <= outH
    /\ Z.max outW outH <= 1600
    /\ (Z.max width height <= 1600 -> outW = width /\ outH = height).
Proof.
  intros Hread Hload Hctx Hw Hh scale.
  destruct (optimizedSize_sides width height Hw Hh)
    as (Hscale & Hsides & outW & outH & Hout & HW & HH & Hmax & Hkeep).
  exists outW, outH.
  rewrite Hout in Hsides. injection Hsides as HoutW HoutH.
  split; [exact HoutW |]. split; [exact HoutH |].
  split; [| done].
  unfold CashPage.fileToOptimizedDataUrl.
  rewrite Hread, Hload, Hout, Hctx. reflexivity.
Qed.

(** A 4000 by 3000 photo is drawn on a canvas of 1600 by 1200, and the
    encoding of that canvas is what the resize step returns. *)
Lemma optimizedSize_bounded_witness :
  (readAsDataURL (recognizing smallImage lunchScan) photo
     = Some (js "data:image/jpeg;base64,/9j/4AAQ")
   /\ loadImage (recognizing smallImage lunchScan) (js "data:image/jpeg;base64,/9j/4AAQ")
      = Some (4000, 3000)
   /\ context2d (recognizing smallImage lunchScan) = true
   /\ 1 <= 4000 < 2 ^ 53 /\ 1 <= 3000 < 2 ^ 53)
  /\ CashPage.fileToOptimizedDataUrl (recognizing smallImage lunchScan) photo signedIn
     = (inr smallImage,
        perform (DrawImage (Num.ofZ 1600) (Num.ofZ 1200))
          (perform (LoadImage (js "data:image/jpeg;base64,/9j/4AAQ"))
             (perform (ReadFile (file_name photo)) signedIn)))
  /\ exists outW outH : Z,
       CashPage.fileToOptimizedDataUrl (recognizing smallImage lunchScan) photo signedIn
       = (inr (toDataURL (recognizing smallImage lunchScan)
                 (js "data:image/jpeg;base64,/9j/4AAQ") (Num.ofZ outW) (Num.ofZ outH)),
          perform (DrawImage (Num.ofZ outW) (Num.ofZ outH))
            (perform (LoadImage (js "data:image/jpeg;base64,/9j/4AAQ"))
               (perform (ReadFile (file_name photo)) signedIn)))
       /\ Z.max outW outH <= 1600.
Proof.
  assert (H1 : 1 <= 4000 < 2 ^ 53) by (split; [discriminate | reflexivity]).
  assert (H2 : 1 <= 3000 < 2 ^ 53) by (split; [discriminate | reflexivity]).
  split; [exact (conj eq_refl (conj eq_refl (conj eq_refl (conj H1 H2)))) |].
  split; [reflexivity |].
  destruct (optimizedSize_bounded (recognizing smallImage lunchScan) photo signedIn
              (js "data:image/jpeg;base64,/9j/4AAQ") 4000 3000
              eq_refl eq_refl eq_refl H1 H2)
    as (outW & outH & _ & _ & Hrun & _ & _ & Hmax & _).
  exists outW, outH. exact (conj Hrun Hmax).
Defined.

End Resize.

(* ===================================================================== *)
(** * JSON.stringify and JSON.parse *)
(* ===================================================================== *)

Section Stringify.
Import JSON.

Lemma hexVal_hexDigit n : (n < 16)%N -> hexVal (hexDigit n) = Some n.
Proof.
  intros H. rewrite <- (N2Nat.id n). assert (Hk : (N.to_nat n < 16)%nat) by lia.
  clear H. generalize dependent (N.to_nat n). intros k Hk.
  do 16 (destruct k as [| k]; [reflexivity |]). lia.
Qed.

Lemma hex_recompose c :
  (c < 65536)%N ->
  ((((c / 4096) mod 16 * 16 + (c / 256) mod 16) * 16 + (c / 16) mod 16) * 16
   + c mod 16)%N = c.
Proof.
  intros Hc.
  change 4096%N with (16 * 16 * 16)%N. change 256%N with (16 * 16)%N.
  rewrite <- !N.Div0.div_div.
  pose proof (N.div_mod' c 16) as H1.
  pose proof (N.div_mod' (c / 16) 16) as H2.
  pose proof (N.div_mod' (c / 16 / 16) 16) as H3.
  pose proof (N.mod_lt c 16 ltac:(lia)).
  pose proof (N.mod_lt (c / 16) 16 ltac:(lia)).
  pose proof (N.mod_lt (c / 16 / 16) 16 ltac:(lia)).
  assert (c / 16 / 16 / 16 < 16)%N.
  { rewrite !N.Div0.div_div. apply N.Div0.div_lt_upper_bound. lia. }
  rewrite (N.mod_small (c / 16 / 16 / 16)) by done.
  set (q1 := (c / 16)%N) in *. set (q2 := (q1 / 16)%N) in *. set (q3 := (q2 / 16)%N) in *.
  set (r0 := (c mod 16)%N) in *. set (r1 := (q1 mod 16)%N) in *.
  set (r2 := (q2 mod 16)%N) in *. clearbody q1 q2 q3 r0 r1 r2. lia.
Qed.

Lemma chars_unicodeEscape c rest :
  (c < 65536)%N ->
  chars (unicodeEscape c ++ rest)
  = match chars rest with Some (t, r) => Some (c :: t, r) | None => None end.
Proof.
  intros Hc. unfold unicodeEscape. cbn [app].
  cbn -[hexVal hexDigit N.div N.modulo N.mul N.add].
  rewrite !hexVal_hexDigit by (apply N.mod_lt; lia).
  rewrite (hex_recompose c Hc). reflexivity.
Qed.


(** Reading back the body of a quoted string. *)
Lemma chars_quoteUnits_bounded n : forall s rest,
  (length s <= n)%nat -> chars (quoteUnits s ++ 34%N :: rest) = Some (s, rest).
Proof.
  induction n as [| n IH]; intros s rest Hlen.
  - destruct s; [reflexivity | simpl in Hlen; lia].
  - destruct s as [| c s]; [reflexivity |]. simpl in Hlen.
    assert (IHs : forall rest, chars (quoteUnits s ++ 34%N :: rest) = Some (s, rest)).
    { intros r. apply IH. lia. }
    cbn [quoteUnits].
    destruct (N.eqb_spec c 8) as [-> | H8]; [cbn; by rewrite IHs |].
    destruct (N.eqb_spec c 9) as [-> | H9]; [cbn; by rewrite IHs |].
    destruct (N.eqb_spec c 10) as [-> | H10]; [cbn; by rewrite IHs |].
    destruct (N.eqb_spec c 12) as [-> | H12]; [cbn; by rewrite IHs |].
    destruct (N.eqb_spec c 13) as [-> | H13]; [cbn; by rewrite IHs |].
    destruct (N.eqb_spec c 34) as [-> | H34]; [cbn; by rewrite IHs |].
    destruct (N.eqb_spec c 92) as [-> | H92]; [cbn; by rewrite IHs |].
    destruct (N.ltb_spec c 32) as [Hlt | Hge].
    { rewrite <- app_assoc, chars_unicodeEscape by lia. by rewrite IHs. }
    assert (Hraw : forall u t r,
               chars t = Some (u, r) -> chars (c :: t) = Some (c :: u, r)).
    { intros u t r Ht. cbn [chars].
      destruct (N.eqb_spec c 34); [done |].
      destruct (N.ltb_spec c 32); [lia |].
      destruct (N.eqb_spec c 92); [done |]. by rewrite Ht. }
    destruct (isLeadingSurrogate c) eqn:Elead.
    { unfold isLeadingSurrogate in Elead. apply andb_true_iff in Elead as [H1 H2].
      apply N.leb_le in H1, H2.
      destruct s as [| d s'].
      - rewrite chars_unicodeEscape by lia. reflexivity.
      - destruct (isTrailingSurrogate d) eqn:Etrail.
        + unfold isTrailingSurrogate in Etrail. apply andb_true_iff in Etrail as [H3 H4].
          apply N.leb_le in H3, H4.
          assert (IHs' : chars (quoteUnits s' ++ 34%N :: rest) = Some (s', rest)).
          { apply IH. simpl in Hlen. lia. }
          cbn [app]. apply Hraw.
          cbn [chars].
          destruct (N.eqb_spec d 34); [lia |].
          destruct (N.ltb_spec d 32); [lia |].
          destruct (N.eqb_spec d 92); [lia |]. by rewrite IHs'.
        + rewrite <- app_assoc, chars_unicodeEscape by lia. by rewrite IHs. }
    destruct (isTrailingSurrogate c) eqn:Etrail.
    { unfold isTrailingSurrogate in Etrail. apply andb_true_iff in Etrail as [H3 H4].
      apply N.leb_le in H3, H4.
      rewrite <- app_assoc, chars_unicodeEscape by lia. by rewrite IHs. }
    cbn [app]. apply Hraw, IHs.
Qed.

Lemma chars_quoteUnits s rest :
  chars (quoteUnits s ++ 34%N :: rest) = Some (s, rest).
Proof. by apply (chars_quoteUnits_bounded (length s)). Qed.

Lemma value_quote fuel s rest :
  (1 <= fuel)%nat -> value fuel (quote s ++ rest) = Some (JString s, rest).
Proof.
  intros Hfuel. destruct fuel as [| fuel]; [lia |].
  unfold quote. rewrite <- !app_assoc. cbn [app value skipWs].
  change (isWs 34) with false. cbn iota.
  change (34 =? 110)%N with false. change (34 =? 116)%N with false.
  change (34 =? 102)%N with false. change (34 =? 34)%N with true. cbn iota.
  by rewrite chars_quoteUnits.
Qed.

Lemma members_record ms : forall kv fuel rest,
  (length ms + 2 <= fuel)%nat ->
  members fuel (join [44%N] (List.map member (kv :: ms)) ++ 125%N :: rest)
  = Some (List.map (fun kv => (kv.1, JString kv.2)) (kv :: ms), rest).
Proof.
  induction ms as [| kv' ms IH]; intros [k v] fuel rest Hfuel.
  - destruct fuel as [| fuel]; simpl in Hfuel; try lia.
    cbn [List.map join]. unfold member. cbn [fst snd]. unfold quote at 1.
    rewrite <- !app_assoc. cbn [app members skipWs].
    change (isWs 34) with false. cbn iota.
    change (34 =? 34)%N with true. cbn iota.
    rewrite chars_quoteUnits. cbn [skipWs].
    change (isWs 58) with false. cbn iota. change (58 =? 58)%N with true. cbn iota.
    rewrite value_quote by lia. cbn [skipWs].
    change (isWs 125) with false. cbn iota. change (125 =? 125)%N with true.
    reflexivity.
  - destruct fuel as [| fuel]; simpl in Hfuel; try lia.
    change (join [44%N] (List.map member ((k, v) :: kv' :: ms)))
      with (member (k, v) ++ 44%N :: join [44%N] (List.map member (kv' :: ms))).
    unfold member at 1. cbn [fst snd]. unfold quote at 1.
    rewrite <- !app_assoc. cbn [app members skipWs].
    change (isWs 34) with false. cbn iota.
    change (34 =? 34)%N with true. cbn iota.
    rewrite chars_quoteUnits. cbn [skipWs].
    change (isWs 58) with false. cbn iota. change (58 =? 58)%N with true. cbn iota.
    rewrite value_quote by lia. cbn [skipWs].
    change (isWs 44) with false. cbn iota. change (44 =? 125)%N with false.
    change (44 =? 44)%N with true. cbn iota.
    rewrite IH by (simpl; lia). reflexivity.
Qed.

Lemma length_members ms :
  (length ms <= length (join [44%N] (List.map member ms)))%nat.
Proof.
  induction ms as [| kv [| kv' ms] IH].
  - simpl. lia.
  - cbn [List.map join]. unfold member, quote. rewrite !length_app. simpl. lia.
  - change (join [44%N] (List.map member (kv :: kv' :: ms)))
      with (member kv ++ 44%N :: join [44%N] (List.map member (kv' :: ms))).
    rewrite length_app. cbn [length] in *. lia.
Qed.

(** [JSON.parse(JSON.stringify(o)) = o] for an object of string
    properties. *)
Lemma parse_stringifyRecord (r : StringRecord) :
  JSON.parse (stringifyRecord r) = Some (recordJson r).
Proof.
  unfold JSON.parse, stringifyRecord, recordJson.
  pose proof (length_members r) as Hlen.
  set (fuel := (2 * length _ + 2)%nat).
  assert (Hfuel : (length r + 3 <= fuel)%nat).
  { unfold fuel. rewrite !length_app. simpl. lia. }
  clearbody fuel. destruct fuel as [| fuel]; [lia |].
  cbn [app value skipWs].
  change (isWs 123) with false. cbn iota.
  change (123 =? 110)%N with false. change (123 =? 116)%N with false.
  change (123 =? 102)%N with false. change (123 =? 34)%N with false.
  change (123 =? 91)%N with false. change (123 =? 123)%N with true. cbn iota.
  destruct r as [| kv ms].
  - cbn. reflexivity.
  - assert (Hhead : exists t, join [44%N] (List.map member (kv :: ms)) = 34%N :: t).
    { destruct ms; cbn [List.map join]; unfold member, quote; cbn; eauto. }
    destruct Hhead as [t Ht].
    assert (Hm := members_record ms kv fuel [] ltac:(simpl in Hfuel; lia)).
    rewrite Ht in Hm |- *. cbn [app skipWs] in Hm |- *.
    change (isWs 34) with false. cbn iota. change (34 =? 125)%N with false. cbn iota.
    rewrite Hm. reflexivity.
Qed.

End Stringify.

(* ===================================================================== *)
(** * The session: auth.ts and api.ts *)
(* ===================================================================== *)

(** Case analysis on the status of a caught error, down to [401]. *)
Ltac by_status :=
  repeat match goal with
         | |- context [match ?p with _ => _ end] => is_var p; destruct p
         end.

Section SessionStore.

Lemma keys_differ : Auth.TOKEN_KEY <> Auth.USER_KEY.
Proof. discriminate. Qed.

Lemma truthy_false (s : JsString) : truthy s = false <-> s = [].
Proof. destruct s; cbn; split; congruence. Qed.

Lemma truthy_true (s : JsString) : truthy s = true <-> s <> [].
Proof. destruct s; cbn; split; congruence. Qed.

Lemma getCurrentUser_setSession (token : JsString) (user : StringRecord)
    (st : gmap string JsString) :
  Auth.getCurrentUser (Auth.setSession token user st)
  = (recordJson user, Auth.setSession token user st).
Proof.
  unfold Auth.getCurrentUser, Auth.setSession. rewrite lookup_insert_eq.
  rewrite parse_stringifyRecord. reflexivity.
Qed.

Lemma getToken_setSession (token : JsString) (user : StringRecord)
    (st : gmap string JsString) :
  Auth.setSession token user st !! Auth.TOKEN_KEY = Some token.
Proof.
  unfold Auth.setSession.
  rewrite lookup_insert_ne by (symmetry; apply keys_differ).
  by rewrite lookup_insert_eq.
Qed.

Lemma isAuthenticated_logout (st : gmap string JsString) :
  Auth.isAuthenticated (Auth.logout st) = false.
Proof.
  unfold Auth.isAuthenticated, Auth.getToken, Auth.logout.
  rewrite lookup_delete_ne by (symmetry; apply keys_differ).
  by rewrite lookup_delete_eq.
Qed.

(** X1: a session written by [setSession] is read back as it was written.
    Whatever the token and the user (an object whose properties are
    strings, with any code units in them), [getCurrentUser] then returns
    that user and leaves the storage alone, [getToken] returns the token,
    [isAuthenticated] holds exactly when the token is not the empty string,
    and no other key of the storage is touched. *)
Theorem session_round_trip (token : JsString) (user : StringRecord)
    (st : gmap string JsString) :
  let st' := Auth.setSession token user st in
  Auth.getCurrentUser st' = (recordJson user, st')
  /\ Auth.getToken st' = Some token
  /\ Auth.isAuthenticated st' = truthy token
  /\ forall k, k <> Auth.TOKEN_KEY -> k <> Auth.USER_KEY -> st' !! k = st !! k.
Proof.
  cbn zeta. repeat split.
  - apply getCurrentUser_setSession.
  - apply getToken_setSession.
  - unfold Auth.isAuthenticated, Auth.getToken. by rewrite getToken_setSession.
  - intros k H1 H2. unfold Auth.setSession. by rewrite !lookup_insert_ne.
Qed.

(** X2: [logout] ends the session for every reader of the storage: there is
    no token, [isAuthenticated] is false, [getCurrentUser] returns [null]
    without writing, the request interceptor adds no header, a second
    [logout] changes nothing, and every other key of the storage is kept. *)
Theorem logout_ends_session (st : gmap string JsString) :
  let st' := Auth.logout st in
  Auth.getToken st' = None
  /\ Auth.isAuthenticated st' = false
  /\ Auth.getCurrentUser st' = (JNull, st')
  /\ (forall headers, Api.authorize st' headers = headers)
  /\ Auth.logout st' = st'
  /\ forall k, k <> Auth.TOKEN_KEY -> k <> Auth.USER_KEY -> st' !! k = st !! k.
Proof.
  cbn zeta. unfold Auth.logout.
  assert (Ht : delete Auth.USER_KEY (delete Auth.TOKEN_KEY st) !! Auth.TOKEN_KEY = None).
  { rewrite lookup_delete_ne by (symmetry; apply keys_differ). apply lookup_delete_eq. }
  assert (Hu : delete Auth.USER_KEY (delete Auth.TOKEN_KEY st) !! Auth.USER_KEY = None).
  { apply lookup_delete_eq. }
  repeat split.
  - exact Ht.
  - unfold Auth.isAuthenticated, Auth.getToken. by rewrite Ht.
  - unfold Auth.getCurrentUser. by rewrite Hu.
  - intros headers. unfold Api.authorize.
    change Api.TOKEN_KEY with Auth.TOKEN_KEY. by rewrite Ht.
  - rewrite (delete_id _ Auth.TOKEN_KEY) by exact Ht.
    by rewrite delete_id.
  - intros k H1 H2. by rewrite !lookup_delete_ne.
Qed.

(** X3: the request interceptor of [api.ts] and [isAuthenticated] of
    [auth.ts] agree, each reading the key under its own constant: a request
    gets the header [Authorization: Bearer <token>] exactly when
    [isAuthenticated()] holds, and otherwise leaves with its headers as they
    were. *)
Theorem authorize_iff_authenticated (st headers : gmap string JsString) :
  Api.authorize st headers =
    match Auth.getToken st with
    | Some token =>
        if Auth.isAuthenticated st
        then <["Authorization"%string := js "Bearer " ++ token]> headers
        else headers
    | None => headers
    end.
Proof.
  unfold Api.authorize, Auth.isAuthenticated, Auth.getToken.
  change Api.TOKEN_KEY with Auth.TOKEN_KEY.
  destruct (st !! Auth.TOKEN_KEY) as [t |]; reflexivity.
Qed.

(** X4: [getCurrentUser] writes at most once.  Read again from the storage
    it left, it returns the same user and leaves that storage as it is, and
    it never touches the token. *)
Theorem getCurrentUser_stable (st : gmap string JsString) :
  let '(user, st') := Auth.getCurrentUser st in
  Auth.getCurrentUser st' = (user, st')
  /\ Auth.getToken st' = Auth.getToken st.
Proof.
  unfold Auth.getCurrentUser, Auth.getToken.
  destruct (st !! Auth.USER_KEY) as [raw |] eqn:Hraw.
  2: { by rewrite Hraw. }
  destruct (truthy raw) eqn:Ht; cbn [negb].
  2: { by rewrite Hraw, Ht. }
  destruct (JSON.parse raw) as [user |] eqn:Hp.
  - by rewrite Hraw, Ht, Hp.
  - rewrite lookup_delete_eq. split; [done |].
    apply lookup_delete_ne. symmetry. apply keys_differ.
Qed.

End SessionStore.

(* ===================================================================== *)
(** * pages/LoginPage.tsx *)
(* ===================================================================== *)

Section SignIn.
Import LoginPage.

Lemma calls_app_ne (l : list Call) (x : Call) : l ++ [x] <> l.
Proof.
  intros H. apply (f_equal length) in H. rewrite length_app in H. cbn in H. lia.
Qed.

Lemma calls_app2_ne (l : list Call) (x y : Call) : (l ++ [x]) ++ [y] <> l.
Proof.
  intros H. apply (f_equal length) in H. rewrite !length_app in H. cbn in H. lia.
Qed.

(** The test that guards the request of [handleSubmit]. *)
Lemma required_fields (s : State) :
  negb (truthy (trim (email s))) || negb (truthy (trim (password s)))
     || (isRegister s && negb (truthy (trim (name s)))) = true
  <-> trim (email s) = [] \/ trim (password s) = []
      \/ (mode s = RegisterMode /\ trim (name s) = []).
Proof.
  unfold isRegister. rewrite <- !truthy_false.
  destruct (truthy (trim (email s))), (truthy (trim (password s))), (mode s),
    (truthy (trim (name s))); cbn; split; intros H; try done;
    try (by left); try (by right; left); try (by right; right);
    destruct H as [H | [H | [H1 H2]]]; congruence.
Qed.

(** X5: [handleSubmit] of the login page contacts the service exactly when
    no required field is blank: the e-mail and the password, and in
    register mode the name, each after trimming.  When one is blank nothing
    leaves the page (no call, the storage as it was), the mode, the
    password and the loading flag stay, and the message asks for the
    required fields; when the service is contacted the loading flag is off again at
    the end, whatever the answer. *)
Theorem submit_needs_required_fields (svc : Service) (s : State) (c : Client) :
  let '(s', c') := handleSubmit svc (s, c) in
  (calls c' = calls c <->
     trim (email s) = [] \/ trim (password s) = []
     \/ (mode s = RegisterMode /\ trim (name s) = []))
  /\ (calls c' = calls c ->
        c' = c /\ loading s' = loading s /\ mode s' = mode s
        /\ password s' = password s
        /\ error s' = ErrorText (js "Preencha os campos obrigatorios."))
  /\ (calls c' <> calls c -> loading s' = false).
Proof.
  unfold handleSubmit.
  pose proof (required_fields s) as Hreq.
  cbn [email password name setMessage setError] in *.
  change (isRegister (setMessage [] (setError (ErrorText []) s))) with (isRegister s).
  destruct (negb (truthy (trim (email s))) || negb (truthy (trim (password s)))
            || (isRegister s && negb (truthy (trim (name s))))) eqn:Hgate.
  - split; [| split]; cbn; try done.
    split; [intros _; by apply Hreq | done].
  - assert (Hno : ~ (trim (email s) = [] \/ trim (password s) = []
       \/ (mode s = RegisterMode /\ trim (name s) = []))).
    { intros H. apply Hreq in H. done. }
    change (isRegister (setLoading true (setMessage [] (setError (ErrorText []) s))))
      with (isRegister s).
    destruct (isRegister s).
    + unfold Auth.register.
      destruct (postRegister svc _); cbn;
        (split; [split; [intros H; by apply calls_app_ne in H | tauto] |
         split; [intros H; by apply calls_app_ne in H | done]]).
    + unfold Auth.login. cbn [storage call].
      destruct (postLogin svc _ _); cbn;
        (split; [split; [intros H | tauto] | split; [intros H | done]]);
        first [by apply calls_app_ne in H | by apply calls_app2_ne in H].
Qed.

Lemma filter_isGoTo_app (l : list Call) (x : Call) :
  isGoTo x = false -> filter isGoTo (l ++ [x]) = filter isGoTo l.
Proof.
  intros H. rewrite filter_app. cbn. rewrite decide_False.
  - by rewrite app_nil_r.
  - rewrite H. intros [].
Qed.

(** X6: registering never signs in.  In register mode, whatever the
    service answers, the storage is as it was and no navigation is issued;
    when the service accepts the registration the page switches to login mode
    with the password cleared, the name and e-mail kept, and a message
    shown. *)
Theorem register_never_signs_in (svc : Service) (s : State) (c : Client) :
  mode s = RegisterMode ->
  let '(s', c') := handleSubmit svc (s, c) in
  storage c' = storage c
  /\ filter isGoTo (calls c') = filter isGoTo (calls c)
  /\ (calls c' <> calls c -> rejection svc s = None ->
        mode s' = LoginMode /\ password s' = [] /\ name s' = name s
        /\ email s' = email s /\ loading s' = false /\ error s' = ErrorText []
        /\ message s' <> []).
Proof.
  intros Hmode. unfold handleSubmit, rejection, registerInput.
  cbn [email password name setMessage setError].
  change (isRegister (setMessage [] (setError (ErrorText []) s))) with (isRegister s).
  destruct (negb (truthy (trim (email s))) || negb (truthy (trim (password s)))
            || (isRegister s && negb (truthy (trim (name s))))) eqn:Hgate.
  { cbn. done. }
  change (isRegister (setLoading true (setMessage [] (setError (ErrorText []) s))))
    with (isRegister s).
  unfold isRegister. rewrite Hmode. unfold Auth.register.
  cbn [name email password setLoading setMessage setError].
  destruct (postRegister svc _) as [err | user]; cbn [storage call calls];
    (split; [done |]); (split; [by apply filter_isGoTo_app |]); intros _ Hrej;
    [done |]. cbn. done.
Qed.

(** Ana registers with a service that accepts her. *)
Lemma register_never_signs_in_witness :
  mode signUp = RegisterMode
  /\ let '(s', c') := handleSubmit accepting (signUp, signedOut) in
     storage c' = storage signedOut
     /\ filter isGoTo (calls c') = filter isGoTo (calls signedOut)
     /\ (calls c' <> calls signedOut -> rejection accepting signUp = None ->
           mode s' = LoginMode /\ password s' = [] /\ name s' = name signUp
           /\ email s' = email signUp /\ loading s' = false
           /\ error s' = ErrorText [] /\ message s' <> []).
Proof.
  split; [reflexivity |].
  exact (register_never_signs_in accepting signUp signedOut eq_refl).
Defined.

(** X7: a login the service accepts establishes the session end to end.
    The one request carries the e-mail and password as typed, the page then
    replaces itself by [/cash]; the stored user is read back by
    [getCurrentUser] as the service sent it, [isAuthenticated] holds when the
    token is not empty, and from then on the request interceptor sends
    [Bearer <token>]. *)
Theorem login_signs_in (svc : Service) (s : State) (c : Client)
    (res : Auth.LoginResponse) :
  mode s = LoginMode ->
  trim (email s) <> [] -> trim (password s) <> [] ->
  postLogin svc (email s) (password s) = inr res ->
  let '(s', c') := handleSubmit svc (s, c) in
  calls c' = calls c ++ [PostLogin (email s) (password s); GoTo "/cash" true]
  /\ Auth.getCurrentUser (storage c') = (recordJson (Auth.user res), storage c')
  /\ Auth.isAuthenticated (storage c') = truthy (Auth.accessToken res)
  /\ (forall headers,
        Api.authorize (storage c') headers =
          if truthy (Auth.accessToken res)
          then <["Authorization"%string := js "Bearer " ++ Auth.accessToken res]> headers
          else headers)
  /\ loading s' = false /\ error s' = ErrorText [] /\ mode s' = LoginMode.
Proof.
  intros Hmode He Hp Hres. unfold handleSubmit.
  cbn [email password name setMessage setError].
  change (isRegister (setMessage [] (setError (ErrorText []) s))) with (isRegister s).
  destruct (negb (truthy (trim (email s))) || negb (truthy (trim (password s)))
            || (isRegister s && negb (truthy (trim (name s))))) eqn:Hgate.
  { apply required_fields in Hgate as [H | [H | [H _]]]; congruence. }
  change (isRegister (setLoading true (setMessage [] (setError (ErrorText []) s))))
    with (isRegister s).
  unfold isRegister. rewrite Hmode. unfold Auth.login.
  cbn [name email password setLoading setMessage setError].
  rewrite Hres. cbn [storage call calls store].
  split; [by rewrite <- app_assoc |].
  split; [apply getCurrentUser_setSession |].
  split; [unfold Auth.isAuthenticated, Auth.getToken; by rewrite getToken_setSession |].
  split; [| by cbn].
  intros headers. unfold Api.authorize. change Api.TOKEN_KEY with Auth.TOKEN_KEY.
  by rewrite getToken_setSession.
Qed.

(** Ana logs in with a service that accepts her. *)
Lemma login_signs_in_witness :
  (mode signIn = LoginMode /\ trim (email signIn) <> [] /\ trim (password signIn) <> [])
  /\ let '(s', c') := handleSubmit accepting (signIn, signedOut) in
     calls c' = calls signedOut
                ++ [PostLogin (email signIn) (password signIn); GoTo "/cash" true]
     /\ Auth.getCurrentUser (storage c') = (recordJson ana, storage c')
     /\ Auth.isAuthenticated (storage c') = true.
Proof.
  assert (He : trim (email signIn) <> []) by (vm_compute; discriminate).
  assert (Hp : trim (password signIn) <> []) by (vm_compute; discriminate).
  split; [exact (conj eq_refl (conj He Hp)) |].
  pose proof (login_signs_in accepting signIn signedOut
                {| Auth.accessToken := js "eyJhbGciOi"; Auth.user := ana |}
                eq_refl He Hp eq_refl) as H.
  destruct (handleSubmit accepting (signIn, signedOut)) as [s' c'].
  destruct H as (H1 & H2 & H3 & _). exact (conj H1 (conj H2 H3)).
Defined.

(** X8: a submission the service refuses changes nothing but the error:
    the storage is as it was, no navigation is issued, the mode and the
    password stay and no success message appears.  When the service was
    contacted, the loading flag is off, and the error paragraph is missing
    from the page (the [error] state is falsy) exactly when the message the
    service sent was itself falsy: the empty string, an array that joins to
    the empty string, or a falsy value of another type such as [false] or
    [0], which [??] lets through. *)
Theorem rejected_submit_keeps_session (svc : Service) (s : State) (c : Client)
    (err : JsError) :
  rejection svc s = Some err ->
  let '(s', c') := handleSubmit svc (s, c) in
  storage c' = storage c
  /\ filter isGoTo (calls c') = filter isGoTo (calls c)
  /\ mode s' = mode s /\ password s' = password s /\ message s' = []
  /\ (calls c' <> calls c ->
        loading s' = false
        /\ (shown (error s') = false <->
              exists status,
                err = AxiosError status (MessageText [])
                \/ (exists l, err = AxiosError status (MessageList l)
                              /\ join (js ", ") l = [])
                \/ err = AxiosError status (MessageOther false))).
Proof.
  intros Hrej. unfold handleSubmit.
  cbn [email password name setMessage setError].
  change (isRegister (setMessage [] (setError (ErrorText []) s))) with (isRegister s).
  destruct (negb (truthy (trim (email s))) || negb (truthy (trim (password s)))
            || (isRegister s && negb (truthy (trim (name s))))) eqn:Hgate.
  { cbn. done. }
  change (isRegister (setLoading true (setMessage [] (setError (ErrorText []) s))))
    with (isRegister s).
  unfold rejection, registerInput, isRegister in *.
  cbn [name email password setLoading setMessage setError].
  assert (Hshown : forall s0, shown (error (caught err s0)) = false <->
            exists status,
                err = AxiosError status (MessageText [])
                \/ (exists l, err = AxiosError status (MessageList l)
                              /\ join (js ", ") l = [])
                \/ err = AxiosError status (MessageOther false)).
  { intros s0. unfold caught.
    destruct err as [status [| m | l | t] | m]; cbn [error setError setLoading shown].
    - split; [done |]. intros (st & [H | [(l & H & _) | H]]); discriminate.
    - rewrite truthy_false. split.
      + intros ->. exists status. by left.
      + intros (st & [H | [(l & H & _) | H]]); by inversion H.
    - rewrite truthy_false. split.
      + intros H. exists status. right. left. by exists l.
      + intros (st & [H | [(l' & H & Hj) | H]]); inversion H; by subst.
    - split.
      + intros ->. exists status. by right; right.
      + intros (st & [H | [(l & H & _) | H]]); by inversion H.
    - split; [done |]. intros (st & [H | [(l & H & _) | H]]); discriminate. }
  destruct (mode s) eqn:Hmode.
  - unfold Auth.login. cbn [storage call calls store].
    destruct (postLogin svc _ _) as [e | res]; [| done].
    injection Hrej as ->. cbn [storage call calls store].
    split; [done |]. split; [by apply filter_isGoTo_app |].
    split; [by cbn |]. split; [by cbn |]. split; [by cbn |].
    intros _. split; [by cbn |]. apply Hshown.
  - unfold Auth.register.
    destruct (postRegister svc _) as [e | res]; [| done].
    injection Hrej as ->. cbn [storage call calls store].
    split; [done |]. split; [by apply filter_isGoTo_app |].
    split; [by cbn |]. split; [by cbn |]. split; [by cbn |].
    intros _. split; [by cbn |]. apply Hshown.
Qed.

(** Ana logs in and the service answers [401] with a message. *)
Lemma rejected_submit_keeps_session_witness :
  rejection (refusing unauthorized) signIn = Some unauthorized
  /\ let '(s', c') := handleSubmit (refusing unauthorized) (signIn, signedOut) in
     storage c' = storage signedOut
     /\ filter isGoTo (calls c') = filter isGoTo (calls signedOut)
     /\ mode s' = mode signIn /\ password s' = password signIn.
Proof.
  split; [reflexivity |].
  pose proof (rejected_submit_keeps_session (refusing unauthorized) signIn signedOut
                unauthorized eq_refl) as H.
  destruct (handleSubmit (refusing unauthorized) (signIn, signedOut)) as [s' c'].
  destruct H as (H1 & H2 & H3 & H4 & _). exact (conj H1 (conj H2 (conj H3 H4))).
Defined.

End SignIn.

(* ===================================================================== *)
(** * pages/CredentialsPage.tsx *)
(* ===================================================================== *)

Section Credentials.
Import CredentialsPage.

Lemma sessionOutcome_kept (c : Client) (x : Call) :
  isGoTo x = false -> sessionOutcome false c (call x c).
Proof.
  intros H. split; [done |]. cbn [call calls]. rewrite filter_isGoTo_app by done.
  by rewrite app_nil_r.
Qed.

Lemma sessionOutcome_ended (c : Client) (x : Call) :
  isGoTo x = false -> sessionOutcome true c (handleUnauthorized (call x c)).
Proof.
  intros H. split; [done |]. cbn [handleUnauthorized call calls store].
  rewrite filter_app. cbn. rewrite filter_isGoTo_app by done. done.
Qed.

Lemma sessionOutcome_trans (e : bool) (c c' : Client) (x : Call) :
  isGoTo x = false -> sessionOutcome e (call x c) c' -> sessionOutcome e c c'.
Proof.
  intros H [H1 H2]. split; [exact H1 |]. rewrite H2. cbn [call calls].
  by rewrite filter_isGoTo_app.
Qed.

Lemma loadCredentials_session (svc : Service) (s : State) (c : Client) :
  sessionOutcome (is401 (getCredentials svc)) c (loadCredentials svc (s, c)).2.
Proof.
  unfold loadCredentials.
  destruct (getCredentials svc) as [[[[] |] m | m] | data]; cbn [snd is401];
    try (by apply sessionOutcome_kept).
  all: try (by apply sessionOutcome_ended).
  all: repeat (match goal with |- context [match ?p with _ => _ end] => destruct p end);
    cbn [snd]; first [by apply sessionOutcome_kept | by apply sessionOutcome_ended].
Qed.

(** X9: on the credentials page the session ends exactly on a [401].
    Loading the list ends it (storage cleared of the session, login page
    opened) when and only when the list request is answered [401]; creating
    and deleting a credential end it when and only when the write is
    answered [401], or the write succeeds and the list request that follows
    is answered [401].  In every other case the storage is as it was and no
    navigation is issued. *)
Theorem credentials_session_ends_on_401 (svc : Service) (s : State) (c : Client)
    (id : JsString) :
  sessionOutcome (is401 (getCredentials svc)) c (loadCredentials svc (s, c)).2
  /\ sessionOutcome (expires (postCredential svc (form s)) (getCredentials svc))
       c (handleSubmit svc (s, c)).2
  /\ sessionOutcome
       (expires (deleteCredential svc (js "/credentials/" ++ id)) (getCredentials svc))
       c (handleDelete svc id (s, c)).2.
Proof.
  split; [apply loadCredentials_session |]. split.
  - unfold handleSubmit, expires. cbn [form setError setLoading].
    destruct (postCredential svc (form s)) as [err | []]; cbn [succeeded].
    + destruct err as [[status |] m | m]; cbn [snd is401];
        try (by apply sessionOutcome_kept).
      by_status; cbn [snd];
        first [by apply sessionOutcome_kept | by apply sessionOutcome_ended].
    + pose proof (loadCredentials_session svc
                    (setForm emptyForm (setError [] (setLoading true s)))
                    (call (PostCredential (form s)) c)) as H.
      destruct (loadCredentials svc _) as [s' c']. cbn [snd] in *.
      by apply sessionOutcome_trans in H.
  - unfold handleDelete, expires.
    destruct (deleteCredential svc _) as [err | []]; cbn [succeeded].
    + destruct err as [[status |] m | m]; cbn [snd is401];
        try (by apply sessionOutcome_kept).
      by_status; cbn [snd];
        first [by apply sessionOutcome_kept | by apply sessionOutcome_ended].
    + pose proof (loadCredentials_session svc (setError [] s)
                    (call (DeleteCredential (js "/credentials/" ++ id)) c)) as H.
      destruct (loadCredentials svc _) as [s' c']. cbn [snd] in *.
      by apply sessionOutcome_trans in H.
Qed.

Lemma loadCredentials_items (svc : Service) (s : State) (c : Client) :
  let s' := (loadCredentials svc (s, c)).1 in
  form s' = form s /\ loading s' = loading s /\ loadingList s' = false
  /\ (items s' <> items s -> getCredentials svc = inr (items s')).
Proof.
  unfold loadCredentials.
  destruct (getCredentials svc) as [err | data]; [| by cbn].
  destruct err as [[status |] m | m]; cbn; try done.
  by_status; cbn; done.
Qed.

Lemma loadCredentials_calls (svc : Service) (s : State) (c : Client) :
  calls (loadCredentials svc (s, c)).2
  = calls c ++ [GetCredentials]
    ++ (if is401 (getCredentials svc) then [GoTo "/login" true] else []).
Proof.
  unfold loadCredentials.
  destruct (getCredentials svc) as [err | data]; [| by cbn].
  destruct err as [[status |] m | m]; cbn; try done.
  by_status; cbn; by rewrite <- ?app_assoc.
Qed.

(** X10: creating and deleting a credential reload the list exactly when
    the write succeeded.  The calls issued are the write, then the list
    request if the write succeeded, then the navigation to the login page if
    the session expired.  The form is emptied exactly when the creation
    succeeded (a deletion never touches it), the loading flag is off after
    a creation, and the list shown changes only to what a list request
    after a successful write answered. *)
Theorem credential_writes_reload_on_success (svc : Service) (s : State) (c : Client)
    (id : JsString) :
  let '(s1, c1) := handleSubmit svc (s, c) in
  let '(s2, c2) := handleDelete svc id (s, c) in
  let url := js "/credentials/" ++ id in
  let posted := postCredential svc (form s) in
  let deleted := deleteCredential svc url in
  let listed := getCredentials svc in
  let opened (ends : bool) := if ends then [GoTo "/login" true] else [] in
  calls c1 = calls c ++ [PostCredential (form s)]
             ++ (if succeeded posted then [GetCredentials] else [])
             ++ opened (expires posted listed)
  /\ form s1 = (if succeeded posted then emptyForm else form s)
  /\ loading s1 = false
  /\ (items s1 <> items s -> succeeded posted = true /\ listed = inr (items s1))
  /\ calls c2 = calls c ++ [DeleteCredential url]
                ++ (if succeeded deleted then [GetCredentials] else [])
                ++ opened (expires deleted listed)
  /\ form s2 = form s
  /\ (items s2 <> items s -> succeeded deleted = true /\ listed = inr (items s2)).
Proof.
  unfold handleSubmit, handleDelete, expires. cbn [form setError setLoading].
  pose proof (loadCredentials_calls svc
                (setForm emptyForm (setError [] (setLoading true s)))
                (call (PostCredential (form s)) c)) as Hc1.
  pose proof (loadCredentials_items svc
                (setForm emptyForm (setError [] (setLoading true s)))
                (call (PostCredential (form s)) c)) as Hi1.
  pose proof (loadCredentials_calls svc (setError [] s)
                (call (DeleteCredential (js "/credentials/" ++ id)) c)) as Hc2.
  pose proof (loadCredentials_items svc (setError [] s)
                (call (DeleteCredential (js "/credentials/" ++ id)) c)) as Hi2.
  cbn zeta in Hi1, Hi2.
  destruct (loadCredentials svc (setForm _ _, _)) as [s1 c1].
  destruct (loadCredentials svc (setError [] s, _)) as [s2 c2].
  cbn [fst snd call calls form setForm setError setLoading items loading] in *.
  destruct Hi1 as (Hf1 & _ & _ & Hit1). destruct Hi2 as (Hf2 & _ & _ & Hit2).
  assert (Hsubmit :
    let '(s1, c1) :=
      match postCredential svc (form s) with
      | inl (AxiosError (Some 401) _) =>
          (setLoading false (setError [] (setLoading true s)),
           handleUnauthorized (call (PostCredential (form s)) c))
      | inl _ =>
          (setLoading false
             (setError (js "Falha ao criar credencial. Confira os campos e a API.")
                (setError [] (setLoading true s))),
           call (PostCredential (form s)) c)
      | inr _ => (setLoading false s1, c1)
      end in
    calls c1 = calls c ++ [PostCredential (form s)]
               ++ (if succeeded (postCredential svc (form s)) then [GetCredentials] else [])
               ++ (if if succeeded (postCredential svc (form s))
                      then is401 (getCredentials svc)
                      else is401 (postCredential svc (form s))
                   then [GoTo "/login" true] else [])
    /\ form s1 = (if succeeded (postCredential svc (form s)) then emptyForm else form s)
    /\ loading s1 = false
    /\ (items s1 <> items s ->
        succeeded (postCredential svc (form s)) = true
        /\ getCredentials svc = inr (items s1))).
  { destruct (postCredential svc (form s)) as [err | []]; cbn [succeeded].
    - destruct err as [[status |] m | m]; cbn; try (by rewrite ?app_nil_r).
      by_status; cbn; by rewrite <- ?app_assoc, ?app_nil_r.
    - cbn. rewrite Hc1, <- !app_assoc. split; [done |]. split; [done |].
      split; [done |]. intros H. split; [done |]. by apply Hit1. }
  assert (Hdelete :
    let '(s2, c2) :=
      match deleteCredential svc (js "/credentials/" ++ id) with
      | inl (AxiosError (Some 401) _) =>
          (setError [] s,
           handleUnauthorized (call (DeleteCredential (js "/credentials/" ++ id)) c))
      | inl _ =>
          (setError (js "Falha ao excluir credencial.") (setError [] s),
           call (DeleteCredential (js "/credentials/" ++ id)) c)
      | inr _ => (s2, c2)
      end in
    calls c2 = calls c ++ [DeleteCredential (js "/credentials/" ++ id)]
               ++ (if succeeded (deleteCredential svc (js "/credentials/" ++ id))
                   then [GetCredentials] else [])
               ++ (if if succeeded (deleteCredential svc (js "/credentials/" ++ id))
                      then is401 (getCredentials svc)
                      else is401 (deleteCredential svc (js "/credentials/" ++ id))
                   then [GoTo "/login" true] else [])
    /\ form s2 = form s
    /\ (items s2 <> items s ->
        succeeded (deleteCredential svc (js "/credentials/" ++ id)) = true
        /\ getCredentials svc = inr (items s2))).
  { destruct (deleteCredential svc _) as [err | []]; cbn [succeeded].
    - destruct err as [[status |] m | m]; cbn; try (by rewrite ?app_nil_r).
      by_status; cbn; by rewrite <- ?app_assoc, ?app_nil_r.
    - rewrite Hc2, <- !app_assoc. split; [done |]. split; [done |].
      intros H. split; [done |]. by apply Hit2. }
  destruct (match postCredential svc (form s) with inl _ => _ | inr _ => _ end)
    as [t1 d1].
  destruct (match deleteCredential svc _ with inl _ => _ | inr _ => _ end) as [t2 d2].
  cbn zeta. tauto.
Qed.

End Credentials.

(* ===================================================================== *)
(** * pages/CashPage.tsx: the ledger *)
(* ===================================================================== *)

Section Trim.

Lemma trimStart_head (s : JsString) :
  trimStart s = [] \/ exists c t, trimStart s = c :: t /\ isWhiteSpace c = false.
Proof.
  induction s as [| c s IH]; [by left |]. cbn [trimStart].
  destruct (isWhiteSpace c) eqn:E; [exact IH |]. right. by exists c, s.
Qed.

Lemma trimStart_keeps_last (l : JsString) (c : N) :
  isWhiteSpace c = false -> exists u, trimStart (l ++ [c]) = u ++ [c].
Proof.
  intros Hc. induction l as [| d l IH]; cbn [app trimStart].
  - rewrite Hc. by exists [].
  - destruct (isWhiteSpace d); [exact IH |]. by exists (d :: l).
Qed.

Lemma trimStart_trim (s : JsString) : trimStart (trim s) = trim s.
Proof.
  unfold trim, trimEnd.
  destruct (trimStart_head s) as [-> | (c & t & -> & Hc)]; [done |].
  cbn [rev]. destruct (trimStart_keeps_last (rev t) c Hc) as [u ->].
  rewrite rev_app_distr. cbn [rev app trimStart]. by rewrite Hc.
Qed.

Lemma trimStart_idem (s : JsString) : trimStart (trimStart s) = trimStart s.
Proof.
  destruct (trimStart_head s) as [-> | (c & t & -> & Hc)]; [done |].
  cbn [trimStart]. by rewrite Hc.
Qed.

Lemma trim_idem (s : JsString) : trim (trim s) = trim s.
Proof.
  unfold trim at 1. rewrite trimStart_trim.
  unfold trim, trimEnd. by rewrite rev_involutive, trimStart_idem.
Qed.

End Trim.

Section Ledger.
Import CashPage.

Lemma positive_amount (x : Num.number) :
  isFinite x = true -> SFleb x Num.zero = false -> SFltb Num.zero x = true.
Proof.
  destruct x as [[] | [] | | [] m e]; cbn; try done.
Qed.

Lemma entryBody_normalized (f : CreateCashEntryDto) :
  truthy (trim (dto_description f)) = true ->
  isFinite (dto_amount f) = true ->
  SFleb (dto_amount f) Num.zero = false ->
  normalized (entryBody f).
Proof.
  intros Hd Hf Hp. unfold normalized, entryBody. cbn.
  split; [apply trim_idem |]. split; [by apply truthy_true |].
  split; [done |]. split; [by apply positive_amount |].
  intros c. destruct (dto_category f) as [c0 |]; [| done].
  destruct (truthy (trim c0)) eqn:E; [| done].
  intros [= <-]. split; [apply trim_idem | by apply truthy_true].
Qed.

(** What [loadDashboard] leaves alone, and the two requests it starts
    with. *)
Lemma loadDashboard_frame env (s : State) (b : Browser) :
  let '(s', b') := loadDashboard env (s, b) in
  form s' = form s /\ selectedDate s' = selectedDate s
  /\ submitting s' = submitting s
  /\ (entries s' <> entries s -> getEntries env (dashboardParams s) = inr (entries s'))
  /\ exists rest,
       effects b' = effects b
         ++ [HttpGet "/cash-entries" (dashboardParams s);
             HttpGet "/cash-summary/daily" [("date"%string, selectedDate s)]]
         ++ rest
       /\ Forall (fun e => exists p r, e = Navigate p r) rest.
Proof.
  unfold loadDashboard.
  change (dashboardParams (setError [] (setLoadingDashboard true s)))
    with (dashboardParams s).
  cbn [selectedDate setError setLoadingDashboard].
  assert (Hcaught : forall err,
    let '(s', b') :=
      match err with
      | AxiosError (Some 401) _ =>
          (setLoadingDashboard false (setError [] (setLoadingDashboard true s)),
           handleUnauthorized
             (perform (HttpGet "/cash-summary/daily" [("date"%string, selectedDate s)])
                (perform (HttpGet "/cash-entries" (dashboardParams s)) b)))
      | _ =>
          (setLoadingDashboard false
             (setError (js "Nao foi possivel carregar os dados do caixa. Verifique se o backend esta rodando.")
                (setError [] (setLoadingDashboard true s))),
           perform (HttpGet "/cash-summary/daily" [("date"%string, selectedDate s)])
             (perform (HttpGet "/cash-entries" (dashboardParams s)) b))
      end in
    form s' = form s /\ selectedDate s' = selectedDate s
    /\ submitting s' = submitting s /\ entries s' = entries s
    /\ exists rest,
         effects b' = effects b
           ++ [HttpGet "/cash-entries" (dashboardParams s);
               HttpGet "/cash-summary/daily" [("date"%string, selectedDate s)]]
           ++ rest
         /\ Forall (fun e => exists p r, e = Navigate p r) rest).
  { intros err.
    assert (Hkept : exists rest,
      effects (perform (HttpGet "/cash-summary/daily" [("date"%string, selectedDate s)])
                (perform (HttpGet "/cash-entries" (dashboardParams s)) b))
      = effects b
           ++ [HttpGet "/cash-entries" (dashboardParams s);
               HttpGet "/cash-summary/daily" [("date"%string, selectedDate s)]]
           ++ rest
         /\ Forall (fun e => exists p r, e = Navigate p r) rest).
    { exists []. cbn. rewrite <- !app_assoc. by cbn. }
    assert (Hended : exists rest,
      effects (handleUnauthorized
                 (perform (HttpGet "/cash-summary/daily" [("date"%string, selectedDate s)])
                    (perform (HttpGet "/cash-entries" (dashboardParams s)) b)))
      = effects b
           ++ [HttpGet "/cash-entries" (dashboardParams s);
               HttpGet "/cash-summary/daily" [("date"%string, selectedDate s)]]
           ++ rest
         /\ Forall (fun e => exists p r, e = Navigate p r) rest).
    { exists [Navigate "/login" true]. cbn. rewrite <- !app_assoc. cbn.
      split; [done |]. repeat constructor. by eexists _, _. }
    destruct err as [[status |] m | m]; try (by cbn).
    by_status; by cbn. }
  assert (Hweak : forall err,
    let '(s', b') :=
      match err with
      | AxiosError (Some 401) _ =>
          (setLoadingDashboard false (setError [] (setLoadingDashboard true s)),
           handleUnauthorized
             (perform (HttpGet "/cash-summary/daily" [("date"%string, selectedDate s)])
                (perform (HttpGet "/cash-entries" (dashboardParams s)) b)))
      | _ =>
          (setLoadingDashboard false
             (setError (js "Nao foi possivel carregar os dados do caixa. Verifique se o backend esta rodando.")
                (setError [] (setLoadingDashboard true s))),
           perform (HttpGet "/cash-summary/daily" [("date"%string, selectedDate s)])
             (perform (HttpGet "/cash-entries" (dashboardParams s)) b))
      end in
    form s' = form s /\ selectedDate s' = selectedDate s
    /\ submitting s' = submitting s
    /\ (entries s' <> entries s ->
        getEntries env (dashboardParams s) = inr (entries s'))
    /\ exists rest,
         effects b' = effects b
           ++ [HttpGet "/cash-entries" (dashboardParams s);
               HttpGet "/cash-summary/daily" [("date"%string, selectedDate s)]]
           ++ rest
         /\ Forall (fun e => exists p r, e = Navigate p r) rest).
  { intros err. specialize (Hcaught err).
    destruct (match err with AxiosError _ _ => _ | OtherError _ => _ end) as [s' b'].
    destruct Hcaught as (H1 & H2 & H3 & H4 & H5). done. }
  destruct (getEntries env (dashboardParams s)) as [listErr | entriesRes],
    (getSummary env _) as [summaryErr | summaryRes]; try apply Hweak.
  cbn. repeat split; try done. exists []. rewrite <- !app_assoc. by cbn.
Qed.

(** X11: [loadDashboard] replaces the entries and the summary together
    or not at all.  Both requests are always issued, and the loading flag is
    off at the end.  When both are answered, the entries and the summary
    shown are the two answers, no error is shown and the storage is as it
    was.  When either fails, the entries and the summary shown stay as they
    were (also the half that was answered); the rejection caught is the one
    of the request that failed, the earlier one when both failed, and on it
    alone depends what follows: a [401] ends the session and shows no error,
    anything else shows the loading error and leaves the storage as it
    was. *)
Theorem loadDashboard_all_or_nothing env (s : State) (b : Browser) :
  let '(s', b') := loadDashboard env (s, b) in
  let listed := getEntries env (dashboardParams s) in
  let summed := getSummary env [("date"%string, selectedDate s)] in
  let requested :=
    perform (HttpGet "/cash-summary/daily" [("date"%string, selectedDate s)])
      (perform (HttpGet "/cash-entries" (dashboardParams s)) b) in
  loadingDashboard s' = false
  /\ match dashboardRejection env s with
     | None =>
         listed = inr (entries s')
         /\ (exists m, summed = inr m /\ summary s' = Some m)
         /\ error s' = [] /\ b' = requested
     | Some err =>
         entries s' = entries s /\ summary s' = summary s
         /\ match err with
            | AxiosError (Some 401) _ =>
                b' = handleUnauthorized requested /\ endsSession b b'
                /\ error s' = []
            | _ =>
                b' = requested /\ error s' <> []
            end
     end.
Proof.
  unfold loadDashboard, dashboardRejection.
  change (dashboardParams (setError [] (setLoadingDashboard true s)))
    with (dashboardParams s).
  cbn [selectedDate setError setLoadingDashboard].
  assert (Hended : endsSession b
    (handleUnauthorized
       (perform (HttpGet "/cash-summary/daily" [("date"%string, selectedDate s)])
          (perform (HttpGet "/cash-entries" (dashboardParams s)) b)))).
  { split; [done |]. cbn. apply last_snoc. }
  assert (Hcaught : forall err,
    let '(s', b') :=
      match err with
      | AxiosError (Some 401) _ =>
          (setLoadingDashboard false (setError [] (setLoadingDashboard true s)),
           handleUnauthorized
             (perform (HttpGet "/cash-summary/daily" [("date"%string, selectedDate s)])
                (perform (HttpGet "/cash-entries" (dashboardParams s)) b)))
      | _ =>
          (setLoadingDashboard false
             (setError (js "Nao foi possivel carregar os dados do caixa. Verifique se o backend esta rodando.")
                (setError [] (setLoadingDashboard true s))),
           perform (HttpGet "/cash-summary/daily" [("date"%string, selectedDate s)])
             (perform (HttpGet "/cash-entries" (dashboardParams s)) b))
      end in
    loadingDashboard s' = false
    /\ entries s' = entries s /\ summary s' = summary s
    /\ match err with
       | AxiosError (Some 401) _ =>
           b' = handleUnauthorized
                  (perform (HttpGet "/cash-summary/daily" [("date"%string, selectedDate s)])
                     (perform (HttpGet "/cash-entries" (dashboardParams s)) b))
           /\ endsSession b b' /\ error s' = []
       | _ =>
           b' = perform (HttpGet "/cash-summary/daily" [("date"%string, selectedDate s)])
                  (perform (HttpGet "/cash-entries" (dashboardParams s)) b)
           /\ error s' <> []
       end).
  { intros err. destruct err as [[status |] m | m]; try (by cbn).
    by_status; by cbn. }
  destruct (getEntries env (dashboardParams s)) as [listErr | entriesRes],
    (getSummary env _) as [summaryErr | summaryRes]; try apply Hcaught.
  cbn. split; [done |]. split; [done |]. split; [by exists summaryRes | done].
Qed.

Lemma effects_app_ne (l : list Effect) (x : Effect) (rest : list Effect) :
  l ++ x :: rest <> l.
Proof.
  intros H. apply (f_equal length) in H. rewrite length_app in H. cbn in H. lia.
Qed.

(** X12: [handleCreateEntry] contacts the service exactly when the draft
    is valid: the description is not blank and the amount is a finite
    number above zero.  An invalid draft leaves the browser, the draft and
    the submitting flag as they were and shows an error.  A valid draft is
    posted once, before anything else and never again, and the body posted
    is normalized: description trimmed and not empty, amount positive and
    finite, category absent or trimmed and not empty. *)
Theorem create_entry_gate env (s : State) (b : Browser) :
  let '(s', b') := handleCreateEntry env (s, b) in
  (effects b' = effects b <->
     trim (dto_description (form s)) = []
     \/ isFinite (dto_amount (form s)) = false
     \/ SFleb (dto_amount (form s)) Num.zero = true)
  /\ (effects b' = effects b ->
        b' = b /\ form s' = form s /\ submitting s' = submitting s /\ error s' <> [])
  /\ (effects b' <> effects b ->
        submitting s' = false
        /\ normalized (entryBody (form s))
        /\ exists rest,
             effects b' = effects b ++ HttpPostEntry (entryBody (form s)) :: rest
             /\ Forall (fun e => forall body, e <> HttpPostEntry body) rest).
Proof.
  unfold handleCreateEntry. change (form (setError [] s)) with (form s).
  destruct (truthy (trim (dto_description (form s)))) eqn:Hd; cbn [negb].
  2: { apply truthy_false in Hd. split; [split; [by left | done] |].
       split; [by destruct b | done]. }
  destruct (isFinite (dto_amount (form s))) eqn:Hf; cbn [negb orb].
  2: { split; [split; [by right; left | done] |].
       split; [by destruct b | done]. }
  destruct (SFleb (dto_amount (form s)) Num.zero) eqn:Hp.
  { split; [split; [by right; right | done] |].
    split; [by destruct b | done]. }
  apply truthy_true in Hd as Hd'.
  change (form (setSubmitting true (setError [] s))) with (form s).
  pose proof (entryBody_normalized (form s) Hd Hf Hp) as Hnorm.
  set (body := entryBody (form s)) in *.
  assert (Hgoal : forall (s' : State) b' rest,
    effects b' = effects b ++ HttpPostEntry body :: rest ->
    Forall (fun e => forall body, e <> HttpPostEntry body) rest ->
    submitting s' = false ->
    (effects b' = effects b <->
       trim (dto_description (form s)) = [] \/ true = false \/ false = true)
    /\ (effects b' = effects b ->
          b' = b /\ form s' = form s /\ submitting s' = submitting s /\ error s' <> [])
    /\ (effects b' <> effects b ->
          submitting s' = false /\ normalized body
          /\ exists rest,
               effects b' = effects b ++ HttpPostEntry body :: rest
               /\ Forall (fun e => forall body, e <> HttpPostEntry body) rest)).
  { intros s' b' rest He Hrest Hsub.
    assert (Hne : effects b' <> effects b) by (rewrite He; apply effects_app_ne).
    split; [split; [done | intros [H | [H | H]]; congruence] |].
    split; [done |]. intros _. split; [done |]. split; [done |]. by exists rest. }
  destruct (createEntry env body) as [err | []].
  - destruct err as [[status |] m | m];
      try (apply (Hgoal _ _ []); [by cbn | constructor | by cbn]).
    by_status;
      first [ apply (Hgoal _ _ []); [by cbn | constructor | by cbn]
            | apply (Hgoal _ _ [Navigate "/login" true]);
              [cbn; by rewrite <- app_assoc | by repeat constructor | by cbn] ].
  - pose proof (loadDashboard_frame env
        (setForm (clearedForm (selectedDate (setSubmitting true (setError [] s))) (form s))
           (setSubmitting true (setError [] s)))
        (perform (HttpPostEntry body) b)) as Hframe.
    destruct (loadDashboard env _) as [s1 b1].
    destruct Hframe as (_ & _ & _ & _ & rest & Hrest & Hnav).
    eapply (Hgoal _ _ (_ :: _ :: rest)).
    + rewrite Hrest. cbn [perform effects]. rewrite <- !app_assoc. reflexivity.
    + do 2 (constructor; [done |]).
      eapply Forall_impl; [exact Hnav |]. intros e (p & r & ->) body'. done.
    + by cbn.
Qed.

Lemma normalized_passes (f : CreateCashEntryDto) :
  normalized (entryBody f) ->
  truthy (trim (dto_description f)) = true
  /\ isFinite (dto_amount f) = true
  /\ SFleb (dto_amount f) Num.zero = false.
Proof.
  intros (_ & Hd & Hf & Hp & _). cbn in *.
  split; [by apply truthy_true |]. split; [done |].
  destruct (dto_amount f) as [[] | [] | | [] m e]; cbn in *; done.
Qed.

Lemma trim_nil_inv (m : JsString) : trim m <> [] -> m <> [].
Proof. intros H ->. by apply H. Qed.

(** When the message shown for a failed request is empty, the service sent
    a list of messages that joins to nothing. *)
Lemma shown_message_empty (err : JsError) (fallback : JsString) :
  fallback <> [] ->
  (extractApiMessage err ?? fallback) = [] ->
  exists status l, err = AxiosError status (MessageList l) /\ join (js ", ") l = [].
Proof.
  intros Hfb. unfold extractApiMessage, nullish.
  destruct err as [status [| m | l |] | m]; try done.
  - destruct (truthy (trim m)) eqn:E; [| done].
    apply truthy_true, trim_nil_inv in E. done.
  - intros H. by exists status, l.
Qed.

(** X13: what a valid draft leads to.  When the service accepts the
    entry, the draft is reset (type and payment method kept, amount zero,
    description and category empty) and the dashboard is reloaded for the
    selected date.  When it refuses, the draft, the entries and the summary
    stay as they were; on a [401], and only then, the session ends;
    otherwise nothing but the POST was issued, the storage is as it was, and
    the error shown is empty only when the service sent a list of messages
    that joins to nothing.  The submitting flag is off in every case. *)
Theorem create_entry_outcome env (s : State) (b : Browser) :
  normalized (entryBody (form s)) ->
  let '(s', b') := handleCreateEntry env (s, b) in
  let body := entryBody (form s) in
  submitting s' = false
  /\ match createEntry env body with
     | inr _ =>
         form s' = clearedForm (selectedDate s) (form s)
         /\ exists rest,
              effects b' = effects b
                ++ [HttpPostEntry body;
                    HttpGet "/cash-entries" (dashboardParams s);
                    HttpGet "/cash-summary/daily" [("date"%string, selectedDate s)]]
                ++ rest
     | inl err =>
         form s' = form s /\ entries s' = entries s /\ summary s' = summary s
         /\ if is401 (createEntry env body)
            then effects b' = effects b ++ [HttpPostEntry body; Navigate "/login" true]
                 /\ localStorage b' = Auth.logout (localStorage b)
            else effects b' = effects b ++ [HttpPostEntry body]
                 /\ localStorage b' = localStorage b
                 /\ (error s' = [] ->
                       exists status l,
                         err = AxiosError status (MessageList l)
                         /\ join (js ", ") l = [])
     end.
Proof.
  intros Hnorm. apply normalized_passes in Hnorm as (Hd & Hf & Hp).
  unfold handleCreateEntry. change (form (setError [] s)) with (form s).
  rewrite Hd, Hf, Hp. cbn [negb orb].
  change (form (setSubmitting true (setError [] s))) with (form s).
  set (body := entryBody (form s)) in *.
  destruct (createEntry env body) as [err | []].
  - assert (Hshown := shown_message_empty err (js "Falha ao criar lancamento.")).
    destruct err as [[status |] m | m];
      try (cbn; do 4 (split; [done |]); split; [done |]; split; [done |];
           by apply Hshown).
    by_status;
      first [ cbn; do 4 (split; [done |]); split; [done |]; split; [done |];
              by apply Hshown
            | cbn; do 4 (split; [done |]); split; [by rewrite <- app_assoc | done] ].
  - pose proof (loadDashboard_frame env
        (setForm (clearedForm (selectedDate (setSubmitting true (setError [] s))) (form s))
           (setSubmitting true (setError [] s)))
        (perform (HttpPostEntry body) b)) as Hframe.
    destruct (loadDashboard env _) as [s1 b1].
    destruct Hframe as (Hform & _ & _ & _ & rest & Hrest & _).
    cbn zeta. split; [done |].
    change (form (setSubmitting false s1)) with (form s1).
    split; [by rewrite Hform |].
    exists rest. cbn [snd]. rewrite Hrest. cbn [perform effects]. by rewrite <- !app_assoc.
Qed.

(** The lunch entry, submitted to a service that accepts it. *)
Lemma create_entry_outcome_witness :
  normalized (entryBody (form lunchEntry))
  /\ let '(s', b') :=
       handleCreateEntry (recognizing smallImage lunchScan) (lunchEntry, signedIn) in
     submitting s' = false
     /\ form s' = clearedForm today (form lunchEntry)
     /\ dto_description (entryBody (form lunchEntry)) = js "almoco".
Proof.
  assert (Hn : normalized (entryBody (form lunchEntry))).
  { repeat split; try (vm_compute; reflexivity); try (vm_compute; discriminate). }
  split; [exact Hn |].
  pose proof (create_entry_outcome (recognizing smallImage lunchScan) lunchEntry
                signedIn Hn) as H.
  destruct (handleCreateEntry (recognizing smallImage lunchScan) (lunchEntry, signedIn))
    as [s' b'].
  destruct H as (H1 & H2 & _). split; [exact H1 |]. split; [exact H2 | reflexivity].
Defined.

(** X14: [handleDeleteEntry] never touches the draft or the selected
    date.  When the service accepts the deletion the dashboard is reloaded
    for the selected date, and the entries shown change only to what the
    list request answered.  When it refuses, the entries and the summary
    stay; on a [401], and only then, the session ends and no error is shown;
    otherwise nothing but the DELETE was issued, the storage is as it was
    and the deletion error is shown. *)
Theorem delete_entry_outcome env (id : JsString) (s : State) (b : Browser) :
  let '(s', b') := handleDeleteEntry env id (s, b) in
  let url := js "/cash-entries/" ++ id in
  form s' = form s /\ selectedDate s' = selectedDate s
  /\ if succeeded (deleteEntry env url)
     then (entries s' <> entries s ->
             getEntries env (dashboardParams s) = inr (entries s'))
          /\ exists rest,
               effects b' = effects b
                 ++ [HttpDelete url;
                     HttpGet "/cash-entries" (dashboardParams s);
                     HttpGet "/cash-summary/daily" [("date"%string, selectedDate s)]]
                 ++ rest
     else entries s' = entries s /\ summary s' = summary s
          /\ if is401 (deleteEntry env url)
             then effects b' = effects b ++ [HttpDelete url; Navigate "/login" true]
                  /\ localStorage b' = Auth.logout (localStorage b)
                  /\ error s' = []
             else effects b' = effects b ++ [HttpDelete url]
                  /\ localStorage b' = localStorage b
                  /\ error s' = js "Falha ao excluir lancamento.".
Proof.
  unfold handleDeleteEntry.
  destruct (deleteEntry env (js "/cash-entries/" ++ id)) as [err | []].
  - destruct err as [[status |] m | m]; try (by cbn).
    by_status; cbn; do 4 (split; [done |]); by rewrite <- ?app_assoc.
  - pose proof (loadDashboard_frame env (setError [] s)
                  (perform (HttpDelete (js "/cash-entries/" ++ id)) b)) as Hframe.
    destruct (loadDashboard env _) as [s1 b1].
    destruct Hframe as (Hform & Hdate & _ & Hent & rest & Hrest & _).
    cbn zeta. split; [done |]. split; [done |]. cbn [succeeded]. split; [done |].
    exists rest. rewrite Hrest. cbn [perform effects]. by rewrite <- !app_assoc.
Qed.




(** X16: the digitization workflow moves the selected date only to a
    recognised date.  After [handleScanReceiptFile] the selected date is
    the one before, or it is a non-empty date that is also the entry date of
    the draft. *)
Theorem scan_selected_date env (file : File) (s : State) (b : Browser) :
  let '(s', b') := handleScanReceiptFile env file (s, b) in
  selectedDate s' = selectedDate s
  \/ selectedDate s' <> [] /\ dto_entryDate (form s') = Some (selectedDate s').
Proof.
  unfold handleScanReceiptFile, scanBody.
  destruct (isLikelyImageFile file); cbn [negb]; [| by left].
  destruct (fileToOptimizedDataUrl env file b) as [[err | image] b1]; [by left |].
  destruct (startsWith (js "data:image/") image); cbn [negb]; [| by left].
  destruct (jslength image >? 9500000); [by left |].
  destruct (scanReceipt env image (js "por")) as [err | parsed]; [by left |].
  destruct (scan_entryDate parsed) as [d |] eqn:Hd; [| by left].
  destruct (truthy d) eqn:Ht; [| by left].
  right. cbn. rewrite Hd. split; [by apply truthy_true | done].
Qed.

(** X21: the logout buttons sign out.  After [handleLogout] of the cash
    page and of the credentials page the storage is the one [logout]
    leaves, [isAuthenticated] is false, and the last call made replaces the
    page by [/login]; nothing is sent to the service. *)
Theorem logout_buttons_sign_out (b : Browser) (c : Client) :
  endsSession b (handleLogout b)
  /\ Auth.isAuthenticated (localStorage (handleLogout b)) = false
  /\ effects (handleLogout b) = effects b ++ [Navigate "/login" true]
  /\ sessionOutcome true c (CredentialsPage.handleLogout c)
  /\ Auth.isAuthenticated (storage (CredentialsPage.handleLogout c)) = false
  /\ calls (CredentialsPage.handleLogout c) = calls c ++ [GoTo "/login" true].
Proof.
  split; [split; [done | apply last_snoc] |].
  split; [apply isAuthenticated_logout |]. split; [done |].
  split.
  - split; [done |]. cbn. by rewrite filter_app.
  - split; [apply isAuthenticated_logout | done].
Qed.

End Ledger.

(* ===================================================================== *)
(** * Dates, and pages/ReportsPage.tsx: filters and loading *)
(* ===================================================================== *)

Section Dates.

Lemma digit_not_hyphen (c : N) : isDecimalDigit c = true -> (c =? 45)%N = false.
Proof.
  unfold isDecimalDigit. intros H. apply andb_true_iff in H as [H _].
  apply N.leb_le in H. apply N.eqb_neq. lia.
Qed.

(** X17: the two date formatters agree on ISO dates.  For a string of the
    form [dddd-dd-dd], [formatDateBR] of the cash page (which never consults
    [Date] for it) and [formatDateInputBR] of the reports page both give
    day, month and year separated by slashes. *)
Theorem date_formats_agree (toLocaleDateString : JsString -> option JsString)
    (value year month day : JsString) :
  CashPage.isoDate value = Some (year, month, day) ->
  CashPage.formatDateBR toLocaleDateString value = day ++ js "/" ++ month ++ js "/" ++ year
  /\ ReportsPage.formatDateInputBR value = CashPage.formatDateBR toLocaleDateString value.
Proof.
  intros H. unfold CashPage.formatDateBR. rewrite H. split; [done |].
  unfold CashPage.isoDate in H.
  destruct value as [| y1 [| y2 [| y3 [| y4 [| h1 [| m1 [| m2 [| h2 [| d1 [| d2 [| ? ?]]]]]]]]]]];
    try discriminate.
  destruct (forallb _ _ && _ && _) eqn:E; [| discriminate].
  injection H as <- <- <-.
  apply andb_true_iff in E as [E Hh2]. apply andb_true_iff in E as [E Hh1].
  cbn [forallb] in E.
  repeat match type of E with (_ && _ = true) =>
    let H := fresh "Hd" in apply andb_true_iff in E as [H E]; apply digit_not_hyphen in H
  end.
  unfold ReportsPage.formatDateInputBR. cbn [truthy negb splitOn].
  rewrite Hd, Hd0, Hd1, Hd2, Hd3, Hd4, Hd5, Hd6, Hh1, Hh2. 
  reflexivity.
Qed.

(** The first of March 2024. *)
Lemma date_formats_agree_witness :
  CashPage.isoDate today = Some (js "2024", js "03", js "01")
  /\ CashPage.formatDateBR plainDate today = js "01/03/2024"
  /\ ReportsPage.formatDateInputBR today = CashPage.formatDateBR plainDate today.
Proof.
  split; [reflexivity |].
  exact (date_formats_agree plainDate today (js "2024") (js "03") (js "01") eq_refl).
Defined.

End Dates.

Section Reports.
Import ReportsPage.

(** X18: after [clearFilters] the report asks for everything.  The
    request [loadReport] then issues carries no parameter at all; clearing
    keeps the items shown, and clearing twice is clearing once. *)
Theorem clearFilters_asks_for_everything (get : Params -> JsError + list CashEntry)
    (s : State) (b : Browser) :
  reportParams (clearFilters s) = []
  /\ clearFilters (clearFilters s) = clearFilters s
  /\ items (clearFilters s) = items s
  /\ exists rest,
       effects (loadReport get (clearFilters s, b)).2
       = effects b ++ HttpGet "/cash-entries" [] :: rest.
Proof.
  split; [done |]. split; [done |]. split; [done |].
  unfold loadReport.
  change (reportParams (setError [] (setLoading true (clearFilters s)))) with (@nil (string * JsString)).
  destruct (get []) as [err | data]; [| by exists []].
  destruct err as [[status |] m | m]; try (by exists []).
  by_status; first [by exists [] | exists [Navigate "/login" true]; cbn; by rewrite <- app_assoc].
Qed.

(** X19: [loadReport] never touches the filters and ends with the loading
    flag off.  When the request is answered the items shown are the answer
    and no error is shown; when it fails the items shown stay; on a [401],
    and only then, the session ends and no error is shown; otherwise nothing
    but the request was issued, and the error shown is empty only when the
    service sent a list of messages that joins to nothing. *)
Theorem loadReport_outcome (get : Params -> JsError + list CashEntry)
    (s : State) (b : Browser) :
  let '(s', b') := loadReport get (s, b) in
  let request := HttpGet "/cash-entries" (reportParams s) in
  filtersOf s' = filtersOf s /\ loading s' = false
  /\ match get (reportParams s) with
     | inr data =>
         items s' = data /\ error s' = [] /\ b' = perform request b
     | inl err =>
         items s' = items s
         /\ if is401 (get (reportParams s))
            then b' = handleUnauthorized (perform request b) /\ error s' = []
            else b' = perform request b
                 /\ (error s' = [] ->
                       exists status l,
                         err = AxiosError status (MessageList l)
                         /\ join (js ", ") l = [])
     end.
Proof.
  unfold loadReport.
  change (reportParams (setError [] (setLoading true s))) with (reportParams s).
  destruct (get (reportParams s)) as [err | data]; [| by cbn].
  destruct err as [[status |] [| t | l |] | m]; try (by cbn).
  all: try (cbn; do 4 (split; [done |]); intros H; by exists None, l).
  all: by_status;
    first [ by cbn
          | cbn; do 4 (split; [done |]); intros H; by eexists _, l ].
Qed.

Lemma loadReport_request (get : Params -> JsError + list CashEntry)
    (s : State) (b : Browser) :
  let '(s', b') := loadReport get (s, b) in
  filtersOf s' = filtersOf s
  /\ exists rest,
       effects b' = effects b ++ HttpGet "/cash-entries" (reportParams s) :: rest
       /\ (rest = [] \/ rest = [Navigate "/login" true]).
Proof.
  unfold loadReport.
  change (reportParams (setError [] (setLoading true s))) with (reportParams s).
  destruct (get (reportParams s)) as [err | data].
  2: { cbn. split; [done |]. exists []. by split; [| left]. }
  destruct err as [[status |] m | m];
    try (cbn; split; [done |]; exists []; by split; [| left]).
  by_status; cbn; (split; [done |]);
    first [ exists []; by split; [| left]
          | exists [Navigate "/login" true]; rewrite <- app_assoc; by split; [| right] ].
Qed.

Lemma withFilters_filtersOf (s : State) : withFilters (filtersOf s) s = s.
Proof. by destruct s. Qed.

Lemma filtersOf_withFilters (f : Filters) (s : State) : filtersOf (withFilters f s) = f.
Proof. by destruct f. Qed.

Lemma reportParams_filters (s t : State) :
  filtersOf s = filtersOf t -> reportParams s = reportParams t.
Proof.
  destruct s, t. unfold filtersOf, reportParams. cbn. by intros [= -> -> -> -> -> -> ->].
Qed.

Lemma mount_waiting (s : State) (b : Browser) (time : Z) :
  waitingFor (filtersOf s) b (mount s b time).
Proof. split; [done |]. split; [done |]. by eexists. Qed.

Lemma change_waiting get (f f' : Filters) (b : Browser) (p : Page) (gap : Z) :
  0 <= gap < 250 -> f' <> f -> waitingFor f b p ->
  waitingFor f' b (setFilters f' (elapse get gap p)).
Proof.
  intros Hgap Hne (Hf & Hb & t & Ht & Hc & Hcap & Hdue).
  unfold elapse. rewrite Ht. cbn [filter list_filter].
  rewrite decide_False by lia. rewrite decide_True by lia.
  cbn [fold_right fold_left]. unfold setFilters. cbn [view].
  rewrite Hf, decide_False by done.
  unfold runCleanup. cbn [cleanup]. rewrite Hc. cbn [timers filter list_filter].
  rewrite decide_False by (intros H; by apply H).
  unfold runEffect. cbn.
  split; [apply filtersOf_withFilters |]. split; [done |].
  eexists. split; [done |]. cbn. by rewrite filtersOf_withFilters.
Qed.

Lemma typing_waiting get (changes : list (Z * Filters)) :
  forall (f : Filters) (b : Browser) (p : Page),
    burst f changes -> waitingFor f b p ->
    waitingFor (lastFilters f changes) b (typing get changes p).
Proof.
  induction changes as [| [gap f'] changes IH]; intros f b p Hburst Hw; [done |].
  destruct Hburst as (Hgap & Hne & Hrest). cbn [typing fold_left lastFilters fst snd].
  apply (IH f'); [done |]. by apply change_waiting with (f := f).
Qed.

(** X20: filter changes are debounced.  From the first render, let the
    filters change any number of times, each change less than 250 ms after
    the one before (or after the first render) and each giving filters other
    than the ones in place, and then let 250 ms or more pass.  Then exactly
    one report request has been issued in all, it carries the parameters of
    the last filters, the filters shown are the last ones, and no timeout is
    left waiting. *)
Theorem filter_changes_are_debounced (get : Z -> Params -> JsError + list CashEntry)
    (s : State) (b : Browser) (time rest : Z) (changes : list (Z * Filters)) :
  burst (filtersOf s) changes ->
  250 <= rest ->
  let final := lastFilters (filtersOf s) changes in
  let p := elapse get rest (typing get changes (mount s b time)) in
  filter isGet (effects (browser p))
  = filter isGet (effects b)
    ++ [HttpGet "/cash-entries" (reportParams (withFilters final s))]
  /\ filtersOf (view p) = final
  /\ timers p = [].
Proof.
  intros Hburst Hrest final p.
  pose proof (typing_waiting get changes (filtersOf s) b (mount s b time) Hburst
                (mount_waiting s b time)) as (Hf & Hb & t & Ht & Hc & Hcap & Hdue).
  fold final in Hf, Hcap. subst p.
  set (q := typing get changes (mount s b time)) in *.
  unfold elapse. rewrite Ht. cbn [filter list_filter].
  rewrite decide_True by lia. rewrite decide_False by lia.
  cbn [fold_right insertTimer fold_left]. unfold fire. cbn [view browser].
  rewrite Hcap, <- Hf, withFilters_filtersOf.
  pose proof (loadReport_request (get (due t)) (view q) (browser q)) as Hreq.
  destruct (loadReport (get (due t)) (view q, browser q)) as [s' b'].
  destruct Hreq as (Hfs & tail & Heff & Htail). cbn [view browser timers].
  split; [| split; [apply filtersOf_withFilters | done]].
  rewrite Heff, Hb, filter_app.
  rewrite (reportParams_filters (withFilters (filtersOf (view q)) s) (view q))
    by apply filtersOf_withFilters.
  f_equal. destruct Htail as [-> | ->]; reflexivity.
Qed.

(** The category [cafe] typed letter by letter, then a pause. *)
Lemma filter_changes_are_debounced_witness :
  (burst (filtersOf initialReport) typingCafe /\ 250 <= 250)
  /\ let p := elapse (fun _ _ => inr []) 250
                (typing (fun _ _ => inr []) typingCafe (mount initialReport signedIn 0)) in
     filter isGet (effects (browser p))
     = [HttpGet "/cash-entries" [("category"%string, js "cafe")]]
     /\ timers p = [].
Proof.
  assert (Hb : burst (filtersOf initialReport) typingCafe).
  { cbn. repeat split; try lia; discriminate. }
  assert (Hr : 250 <= 250) by lia.
  split; [exact (conj Hb Hr) |].
  pose proof (filter_changes_are_debounced (fun _ _ => inr []) initialReport signedIn
                0 250 typingCafe Hb Hr) as (H1 & _ & H3).
  exact (conj H1 H3).
Defined.

End Reports.
